(** * Request lifecycle correlation and screenshot capture gate

    A shallow embedding of
    [browser_use/browser/watchdogs/network_watchdog.py] and
    [browser_use/browser/watchdogs/screenshot_watchdog.py], and the
    properties of the specification that concern them.

    Conventions of the embedding.
    - A Python [str] is a [string].  [str.lower] is a library function
      and an argument ([lower]) of the code that calls it; what is known
      of it is what it does to a string of ASCII characters
      ([ascii_lower]).
    - A Python [float] is a binary64 [float] of the kernel, so [-], [*]
      and the comparisons are the IEEE ones Python uses.
    - A Python [int] is a [Z].
    - A value of type [Any] (an initiator, a call frame, post data) is a
      [pyval], the JSON-shaped part of Python's values.
    - A [dict] read only through [.get] is a record of [option] fields: a
      field is [None] when the key is missing; a key read with [[...]]
      is a plain field.  A dict whose order matters is an association
      list.
    - Code that raises returns a [result]; code that mutates [self] takes
      the state and returns the new one; what the outside world answers
      to an [await] is an argument (an environment record). *)

From Stdlib Require Import ZArith String List Ascii Bool Lia.
From Stdlib Require Import PrimFloat SpecFloat FloatOps.
From Stdlib Require FloatAxioms.
From Stdlib Require Import DecimalString.
From stdpp Require Import base option list gmap strings.

Set Warnings "-register-all".

Local Open Scope string_scope.
Local Open Scope list_scope.

(** ** Python values *)

Module Py.

Inductive pyval : Type :=
| PNone
| PBool (b : bool)
| PInt (z : Z)
| PFloat (f : float)
| PStr (s : string)
| PList (l : list pyval)
| PDict (d : list (string * pyval)).

(** [bool(v)]: the truth value Python gives to [v]. *)
Definition float_truthy (f : float) : bool := negb (PrimFloat.eqb f 0%float).

Definition truthy (v : pyval) : bool :=
  match v with
  | PNone => false
  | PBool b => b
  | PInt z => negb (Z.eqb z 0)
  | PFloat f => float_truthy f
  | PStr s => negb (String.eqb s "")
  | PList l => match l with [] => false | _ => true end
  | PDict d => match d with [] => false | _ => true end
  end.

(** [a or b]. *)
Definition py_or (a b : pyval) : pyval := if truthy a then a else b.

(** [isinstance(v, dict)], [isinstance(v, str)]. *)
Definition is_dict (v : pyval) : bool :=
  match v with PDict _ => true | _ => false end.

(** [d.get(k)] on the items of a dict: [None] when the key is missing. *)
Fixpoint dict_get (d : list (string * pyval)) (k : string) : pyval :=
  match d with
  | [] => PNone
  | (k', v) :: d' => if String.eqb k' k then v else dict_get d' k
  end.

(** [max(a, b)] on floats: the first argument unless the second is
    strictly greater. *)
Definition py_max (a b : float) : float := if PrimFloat.ltb a b then b else a.

(** [str(z)] for an [int]. *)
Definition str_of_int (z : Z) : string := NilZero.string_of_int (Z.to_int z).

(** [format(x, '.0f')]: the exact value of [x] rounded to an integer, ties
    to even, printed in decimal; a finite float is [m * 2^e]. *)
Definition round_half_even (m : positive) (e : Z) : Z :=
  if (0 <=? e)%Z then (Z.pos m * 2 ^ e)%Z
  else
    let d := (2 ^ (- e))%Z in
    let q := (Z.pos m / d)%Z in
    let r := (Z.pos m mod d)%Z in
    if (2 * r <? d)%Z then q
    else if (d <? 2 * r)%Z then (q + 1)%Z
    else if Z.even q then q else (q + 1)%Z.

Definition format_0f (x : float) : string :=
  match Prim2SF x with
  | S754_nan => "nan"
  | S754_infinity s => if s then "-inf" else "inf"
  | S754_zero s => if s then "-0" else "0"
  | S754_finite s m e =>
      (if s then "-" else "") +:+ str_of_int (round_half_even m e)
  end.

(** [s.isascii()]: every character of [s] has a code below 128. *)
Fixpoint isascii (s : string) : bool :=
  match s with
  | EmptyString => true
  | String c s' => (nat_of_ascii c <? 128)%nat && isascii s'
  end.

(** What [s.lower()] returns when [s.isascii()]: the letters [A] to [Z]
    become [a] to [z], every other character is kept. *)
Definition lower_ascii (c : ascii) : ascii :=
  let n := nat_of_ascii c in
  if (65 <=? n)%nat && (n <=? 90)%nat then ascii_of_nat (n + 32) else c.

Fixpoint ascii_lower (s : string) : string :=
  match s with
  | EmptyString => EmptyString
  | String c s' => String (lower_ascii c) (ascii_lower s')
  end.

(** [p in s] for strings: [p] is a prefix of some suffix of [s]. *)
Fixpoint str_contains (p s : string) : bool :=
  String.prefix p s ||
  match s with
  | EmptyString => false
  | String _ s' => str_contains p s'
  end.

(** Exceptions.  [CancelledError] derives from [BaseException] only; every
    other class here derives from [Exception]. *)
Inductive exn : Type :=
| KeyError (key : string)
| AttributeError (msg : string)
| TypeError (msg : string)
| ValueError (msg : string)
| RuntimeError (msg : string)
| TimeoutError
| CancelledError
| BrowserError (msg : string)
| OtherException (msg : string).

(** [isinstance(e, Exception)]: what [except Exception] catches. *)
Definition is_Exception (e : exn) : bool :=
  match e with CancelledError => false | _ => true end.

Inductive result (A : Type) : Type :=
| Returns (a : A)
| Raises (e : exn).
Arguments Returns {A} a.
Arguments Raises {A} e.

Definition bind {A B} (r : result A) (k : A -> result B) : result B :=
  match r with
  | Returns a => k a
  | Raises e => Raises e
  end.

(** Code that mutates state and may raise: the state as it is when the
    exception leaves is kept, as Python keeps it. *)
Definition M (S A : Type) : Type := S -> result A * S.

Definition ret {S A} (a : A) : M S A := fun s => (Returns a, s).

Definition raise {S A} (e : exn) : M S A := fun s => (Raises e, s).

Definition bindM {S A B} (m : M S A) (k : A -> M S B) : M S B :=
  fun s =>
    match m s with
    | (Returns a, s') => k a s'
    | (Raises e, s') => (Raises e, s')
    end.

Definition get {S} : M S S := fun s => (Returns s, s).

Definition modify {S} (f : S -> S) : M S unit := fun s => (Returns tt, f s).

(** A call whose outcome [r] the outside world decides. *)
Definition lift {S A} (r : result A) : M S A := fun s => (r, s).

(** [try: m  except <classes accepted by handles> as e: h e]. *)
Definition try_except {S A} (m : M S A) (handles : exn -> bool) (h : exn -> M S A)
  : M S A :=
  fun s =>
    match m s with
    | (Raises e, s') => if handles e then h e s' else (Raises e, s')
    | r => r
    end.

(** [try: m  finally: f]: [f] runs on every outcome of [m]; an exception
    of [f] replaces that outcome. *)
Definition try_finally {S A} (m : M S A) (f : M S unit) : M S A :=
  fun s =>
    match m s with
    | (r, s') =>
        match f s' with
        | (Returns _, s'') => (r, s'')
        | (Raises e, s'') => (Raises e, s'')
        end
    end.

End Py.

Import Py.

Notation "x <- r ;; k" := (Py.bind r (fun x => k))
  (at level 100, r at next level, right associativity, only parsing).
Notation "x <~ m ;; k" := (Py.bindM m (fun x => k))
  (at level 100, m at next level, right associativity, only parsing).
Notation "m ;;; k" := (Py.bindM m (fun _ => k))
  (at level 100, right associativity, only parsing).

(** ** network_watchdog.py *)

Module network_watchdog.

(** *** The protocol events, as the handlers read them *)

Definition Headers : Type := list (string * string).

Module Request.
Record t : Type := {
  url : option string;
  method : option string;
  headers : option Headers;
  postData : pyval;
}.
(** [{}], the default of [event.get('request', {})]. *)
Definition empty : t :=
  {| url := None; method := None; headers := None; postData := PNone |}.
End Request.

Module RequestWillBeSentEvent.
Record t : Type := {
  requestId : string;
  type : option string;
  request : option Request.t;
  wallTime : option float;
  initiator : pyval;
}.
End RequestWillBeSentEvent.

Module Response.
Record t : Type := {
  status : option Z;
  statusText : option string;
  mimeType : option string;
  headers : option Headers;
  responseTime : option float;
}.
Definition empty : t :=
  {| status := None; statusText := None; mimeType := None;
     headers := None; responseTime := None |}.
End Response.

Module ResponseReceivedEvent.
Record t : Type := {
  requestId : string;
  response : option Response.t;
}.
End ResponseReceivedEvent.

Module LoadingFailedEvent.
Record t : Type := {
  requestId : string;
  errorText : option string;
  timestamp : option float;
}.
End LoadingFailedEvent.

Module LoadingFinishedEvent.
Record t : Type := {
  requestId : string;
  encodedDataLength : option float;
  timestamp : option float;
}.
End LoadingFinishedEvent.

(** *** NetworkLogEntry *)

Record NetworkLogEntry : Type := {
  request_id : string;
  url : string;
  method : string;
  resource_type : string;
  start_time : float;
  status : option Z;
  status_text : option string;
  mime_type : option string;
  error_text : option string;
  initiator_type : pyval;
  request_headers : Headers;
  response_headers : Headers;
  request_body_preview : option string;
  encoded_data_length : option float;
  end_time : option float;
  stack_trace : list pyval;
}.

(** Attribute assignments [entry.f = v]. *)
Definition set_status (v : option Z) (e : NetworkLogEntry) : NetworkLogEntry :=
  {| request_id := request_id e; url := url e; method := method e;
     resource_type := resource_type e; start_time := start_time e;
     status := v; status_text := status_text e; mime_type := mime_type e;
     error_text := error_text e; initiator_type := initiator_type e;
     request_headers := request_headers e;
     response_headers := response_headers e;
     request_body_preview := request_body_preview e;
     encoded_data_length := encoded_data_length e; end_time := end_time e;
     stack_trace := stack_trace e |}.

Definition set_status_text (v : option string) (e : NetworkLogEntry) : NetworkLogEntry :=
  {| request_id := request_id e; url := url e; method := method e;
     resource_type := resource_type e; start_time := start_time e;
     status := status e; status_text := v; mime_type := mime_type e;
     error_text := error_text e; initiator_type := initiator_type e;
     request_headers := request_headers e;
     response_headers := response_headers e;
     request_body_preview := request_body_preview e;
     encoded_data_length := encoded_data_length e; end_time := end_time e;
     stack_trace := stack_trace e |}.

Definition set_mime_type (v : option string) (e : NetworkLogEntry) : NetworkLogEntry :=
  {| request_id := request_id e; url := url e; method := method e;
     resource_type := resource_type e; start_time := start_time e;
     status := status e; status_text := status_text e; mime_type := v;
     error_text := error_text e; initiator_type := initiator_type e;
     request_headers := request_headers e;
     response_headers := response_headers e;
     request_body_preview := request_body_preview e;
     encoded_data_length := encoded_data_length e; end_time := end_time e;
     stack_trace := stack_trace e |}.

Definition set_error_text (v : option string) (e : NetworkLogEntry) : NetworkLogEntry :=
  {| request_id := request_id e; url := url e; method := method e;
     resource_type := resource_type e; start_time := start_time e;
     status := status e; status_text := status_text e;
     mime_type := mime_type e;
     error_text := v; initiator_type := initiator_type e;
     request_headers := request_headers e;
     response_headers := response_headers e;
     request_body_preview := request_body_preview e;
     encoded_data_length := encoded_data_length e; end_time := end_time e;
     stack_trace := stack_trace e |}.

Definition set_response_headers (v : Headers) (e : NetworkLogEntry) : NetworkLogEntry :=
  {| request_id := request_id e; url := url e; method := method e;
     resource_type := resource_type e; start_time := start_time e;
     status := status e; status_text := status_text e;
     mime_type := mime_type e;
     error_text := error_text e; initiator_type := initiator_type e;
     request_headers := request_headers e;
     response_headers := v;
     request_body_preview := request_body_preview e;
     encoded_data_length := encoded_data_length e; end_time := end_time e;
     stack_trace := stack_trace e |}.

Definition set_encoded_data_length (v : option float) (e : NetworkLogEntry) : NetworkLogEntry :=
  {| request_id := request_id e; url := url e; method := method e;
     resource_type := resource_type e; start_time := start_time e;
     status := status e; status_text := status_text e;
     mime_type := mime_type e;
     error_text := error_text e; initiator_type := initiator_type e;
     request_headers := request_headers e;
     response_headers := response_headers e;
     request_body_preview := request_body_preview e;
     encoded_data_length := v; end_time := end_time e;
     stack_trace := stack_trace e |}.

Definition set_end_time (v : option float) (e : NetworkLogEntry) : NetworkLogEntry :=
  {| request_id := request_id e; url := url e; method := method e;
     resource_type := resource_type e; start_time := start_time e;
     status := status e; status_text := status_text e;
     mime_type := mime_type e;
     error_text := error_text e; initiator_type := initiator_type e;
     request_headers := request_headers e;
     response_headers := response_headers e;
     request_body_preview := request_body_preview e;
     encoded_data_length := encoded_data_length e; end_time := v;
     stack_trace := stack_trace e |}.

(** The [duration_ms] property. *)
Definition duration_ms (self : NetworkLogEntry) : option float :=
  match end_time self with
  | None => None
  | Some t => Some (py_max 0%float ((t - start_time self) * 1000)%float)
  end.

(** The first conditional of [to_string]:
    [str(self.status) if self.status else
     (f'FAILED({self.error_text})' if self.error_text else 'PENDING')]. *)
Definition status_truthy (s : option Z) : bool :=
  match s with Some z => negb (Z.eqb z 0) | None => false end.

Definition str_truthy (s : option string) : bool :=
  match s with Some t => negb (String.eqb t "") | None => false end.

Definition status_str (self : NetworkLogEntry) : string :=
  if status_truthy (status self) then
    match status self with Some z => str_of_int z | None => "None" end
  else if str_truthy (error_text self) then
    "FAILED(" +:+ default "None" (error_text self) +:+ ")"
  else "PENDING".

Definition duration_str (self : NetworkLogEntry) : string :=
  match duration_ms self with
  | Some d => " " +:+ format_0f d +:+ "ms"
  | None => ""
  end.

Definition to_string (self : NetworkLogEntry) : string :=
  "[" +:+ method self +:+ "] " +:+ status_str self +:+ " " +:+ url self
  +:+ " (" +:+ resource_type self +:+ ")" +:+ duration_str self.

(** [has_stack]. *)
Definition has_stack (self : NetworkLogEntry) : bool :=
  match stack_trace self with [] => false | _ => true end.

(** *** collections.deque with a maxlen *)

Record deque : Type := {
  items : list NetworkLogEntry;
  maxlen : nat;
}.

(** [deque(maxlen=n)]: a negative [n] is a [ValueError]. *)
Definition deque_new (n : Z) : result deque :=
  if (n <? 0)%Z then Raises (ValueError "maxlen must be non-negative")
  else Returns {| items := []; maxlen := Z.to_nat n |}.

(** [d.append(x)]: the item is added on the right, then the leftmost item
    is dropped when the length exceeds [maxlen]. *)
Definition deque_append (d : deque) (x : NetworkLogEntry) : deque :=
  let l := items d ++ [x] in
  {| items := if (maxlen d <? length l)%nat then tail l else l;
     maxlen := maxlen d |}.

(** *** NetworkWatchdog *)

Record NetworkWatchdog : Type := {
  max_logs_per_tab : Z;
  ignored_resource_types : gset string;
  _network_logs : gmap string deque;
  _monitored_targets : gset string;
}.

Definition default_ignored_resource_types : gset string :=
  {[ "Image"; "Stylesheet"; "Font"; "Media"; "Manifest"; "Other" ]}.

(** A watchdog as the class declares it. *)
Definition new_watchdog : NetworkWatchdog :=
  {| max_logs_per_tab := 200;
     ignored_resource_types := default_ignored_resource_types;
     _network_logs := ∅;
     _monitored_targets := ∅ |}.

Definition set_network_logs (m : gmap string deque) (self : NetworkWatchdog)
  : NetworkWatchdog :=
  {| max_logs_per_tab := max_logs_per_tab self;
     ignored_resource_types := ignored_resource_types self;
     _network_logs := m;
     _monitored_targets := _monitored_targets self |}.

Definition set_monitored_targets (m : gset string) (self : NetworkWatchdog)
  : NetworkWatchdog :=
  {| max_logs_per_tab := max_logs_per_tab self;
     ignored_resource_types := ignored_resource_types self;
     _network_logs := _network_logs self;
     _monitored_targets := m |}.

(** *** _extract_initiator_frames *)

(** What [frames.extend(v)] appends: the items of a list, the characters
    of a string, the keys of a dict; any other value is not iterable. *)
Fixpoint chars (s : string) : list pyval :=
  match s with
  | EmptyString => []
  | String c s' => PStr (String c EmptyString) :: chars s'
  end.

Definition iter_items (v : pyval) : result (list pyval) :=
  match v with
  | PList l => Returns l
  | PStr s => Returns (chars s)
  | PDict d => Returns (map (fun kv => PStr (fst kv)) d)
  | _ => Raises (TypeError "object is not iterable")
  end.

(** The [while stack:] loop, from the value of [stack] on entry to the
    frames it collects.  One round reads [callFrames] with [stack.get],
    which only a dict has, extends [frames], and goes on with
    [stack.get('parent')]; the inner [fix] is that [get], written in place
    so that the recursion is on a part of [stack]. *)
Fixpoint walk_stack (stack : pyval) : result (list pyval) :=
  if truthy stack then
    match stack with
    | PDict d =>
        call_frames <- iter_items (py_or (dict_get d "callFrames") (PList []));;
        rest <- (fix parent (kvs : list (string * pyval)) : result (list pyval) :=
                   match kvs with
                   | [] => Returns []
                   | (k, v) :: kvs' =>
                       if String.eqb k "parent" then walk_stack v else parent kvs'
                   end) d;;
        Returns (call_frames ++ rest)
    | _ => Raises (AttributeError "object has no attribute 'get'")
    end
  else Returns [].

Definition _extract_initiator_frames (initiator : pyval) : result (list pyval) :=
  match initiator with
  | PDict d => walk_stack (py_or (dict_get d "stack") (dict_get d "stackTrace"))
  | _ => Returns []
  end.

(** *** _find_entry and the four handlers *)

(** The position of the first item of [reversed(l)] that satisfies [p]:
    the last one of [l]. *)
Fixpoint find_last {A : Type} (p : A -> bool) (l : list A) : option nat :=
  match l with
  | [] => None
  | x :: l' =>
      match find_last p l' with
      | Some i => Some (S i)
      | None => if p x then Some 0%nat else None
      end
  end.

(** [_find_entry] returns the entry object, which its callers then assign
    to; here it returns the entry's position in the target's deque. *)
Definition _find_entry (self : NetworkWatchdog) (target_id request_id : string)
  : option nat :=
  match _network_logs self !! target_id with
  | None => None
  | Some logs =>
      find_last (fun entry => String.eqb (network_watchdog.request_id entry) request_id)
                (items logs)
  end.

(** Assignments to the attributes of the entry at position [i]. *)
Definition update_entry (self : NetworkWatchdog) (target_id : string) (i : nat)
    (f : NetworkLogEntry -> NetworkLogEntry) : NetworkWatchdog :=
  match _network_logs self !! target_id with
  | None => self
  | Some logs =>
      set_network_logs
        (<[target_id := {| items := alter f i (items logs); maxlen := maxlen logs |}]>
           (_network_logs self))
        self
  end.

Definition body_preview (post_data : pyval) : option string :=
  match post_data with
  | PStr s =>
      if (String.length s <=? 2000)%nat then Some s
      else Some (String.substring 0 2000 s +:+ "... (truncated "
                 +:+ str_of_int (Z.of_nat (String.length s) - 2000) +:+ " chars)")
  | _ => None
  end.

Definition on_request (self : NetworkWatchdog) (target_id : string)
    (event : RequestWillBeSentEvent.t) : result NetworkWatchdog :=
  let resource_type := default "Unknown" (RequestWillBeSentEvent.type event) in
  if decide (resource_type ∈ ignored_resource_types self) then Returns self
  else
    let request := default Request.empty (RequestWillBeSentEvent.request event) in
    (* the values of the headers are strings, which [str] leaves as they are *)
    let request_headers := default [] (Request.headers request) in
    let request_body_preview := body_preview (Request.postData request) in
    stack_frames <- _extract_initiator_frames (RequestWillBeSentEvent.initiator event);;
    let entry :=
      {| request_id := RequestWillBeSentEvent.requestId event;
         url := default "" (Request.url request);
         method := default "GET" (Request.method request);
         resource_type := resource_type;
         start_time := default 0%float (RequestWillBeSentEvent.wallTime event);
         status := None; status_text := None; mime_type := None;
         error_text := None;
         initiator_type :=
           match RequestWillBeSentEvent.initiator event with
           | PDict d => dict_get d "type"
           | _ => PNone
           end;
         request_headers := request_headers;
         response_headers := [];
         request_body_preview := request_body_preview;
         encoded_data_length := None; end_time := None;
         stack_trace := stack_frames |} in
    match _network_logs self !! target_id with
    | None => Raises (KeyError target_id)
    | Some logs =>
        Returns (set_network_logs
                   (<[target_id := deque_append logs entry]> (_network_logs self))
                   self)
    end.

(** [x or y] on an optional float. *)
Definition float_or (x y : option float) : option float :=
  match x with
  | Some f => if float_truthy f then x else y
  | None => y
  end.

Definition apply_response (response : Response.t) (entry : NetworkLogEntry)
  : NetworkLogEntry :=
  let entry := set_status (Response.status response) entry in
  let entry := set_status_text (Response.statusText response) entry in
  let entry := set_mime_type (Response.mimeType response) entry in
  let entry :=
    match Response.headers response with
    | Some h => set_response_headers h entry
    | None => entry
    end in
  set_end_time (float_or (Response.responseTime response) (end_time entry)) entry.

Definition on_response (self : NetworkWatchdog) (target_id : string)
    (event : ResponseReceivedEvent.t) : NetworkWatchdog :=
  let req_id := ResponseReceivedEvent.requestId event in
  let response := default Response.empty (ResponseReceivedEvent.response event) in
  match _find_entry self target_id req_id with
  | None => self
  | Some i => update_entry self target_id i (apply_response response)
  end.

Definition apply_failure (event : LoadingFailedEvent.t) (entry : NetworkLogEntry)
  : NetworkLogEntry :=
  let entry := set_error_text (LoadingFailedEvent.errorText event) entry in
  let entry :=
    match status entry with
    | None => set_status (Some 0%Z) entry
    | Some _ => entry
    end in
  match end_time entry with
  | None => set_end_time (LoadingFailedEvent.timestamp event) entry
  | Some _ => entry
  end.

Definition on_failure (self : NetworkWatchdog) (target_id : string)
    (event : LoadingFailedEvent.t) : NetworkWatchdog :=
  let req_id := LoadingFailedEvent.requestId event in
  match _find_entry self target_id req_id with
  | None => self
  | Some i => update_entry self target_id i (apply_failure event)
  end.

Definition apply_loading_finished (event : LoadingFinishedEvent.t)
    (entry : NetworkLogEntry) : NetworkLogEntry :=
  let entry :=
    set_encoded_data_length (LoadingFinishedEvent.encodedDataLength event) entry in
  set_end_time (LoadingFinishedEvent.timestamp event) entry.

Definition on_loading_finished (self : NetworkWatchdog) (target_id : string)
    (event : LoadingFinishedEvent.t) : NetworkWatchdog :=
  let req_id := LoadingFinishedEvent.requestId event in
  match _find_entry self target_id req_id with
  | None => self
  | Some i => update_entry self target_id i (apply_loading_finished event)
  end.

(** *** Queries *)

Definition get_traffic_log (self : NetworkWatchdog) (target_id : string)
  : list NetworkLogEntry :=
  match _network_logs self !! target_id with
  | None => []
  | Some logs => items logs
  end.

(** [lower] is [str.lower]. *)
Definition find_entry (lower : string -> string)
    (self : NetworkWatchdog) (target_id url_pattern : string)
  : option NetworkLogEntry :=
  let logs := get_traffic_log self target_id in
  let url_pattern_lower := lower url_pattern in
  List.find (fun entry => str_contains url_pattern_lower (lower (url entry)))
            (rev logs).

(** *** attach_to_target *)

(** The four registrations of [session.cdp_client.register.Network]. *)
Inductive handler : Type :=
| requestWillBeSent
| responseReceived
| loadingFailed
| loadingFinished.

Inductive log_record : Type :=
| Debug_attached (target_id : string)
| Warning_failed_to_attach (target_id : string) (e : exn).

(** The watchdog together with what it has done to the protocol client:
    the targets [Network.enable] was sent for, the handlers registered
    (each closes over its [target_id]) and the log. *)
Record attach_state : Type := {
  watchdog : NetworkWatchdog;
  enabled : list string;
  registered : list (string * handler);
  logger : list log_record;
}.

Definition set_watchdog (f : NetworkWatchdog -> NetworkWatchdog) (s : attach_state)
  : attach_state :=
  {| watchdog := f (watchdog s); enabled := enabled s;
     registered := registered s; logger := logger s |}.

Definition add_enabled (target_id : string) (s : attach_state) : attach_state :=
  {| watchdog := watchdog s; enabled := enabled s ++ [target_id];
     registered := registered s; logger := logger s |}.

Definition add_registered (target_id : string) (h : handler) (s : attach_state)
  : attach_state :=
  {| watchdog := watchdog s; enabled := enabled s;
     registered := registered s ++ [(target_id, h)]; logger := logger s |}.

Definition add_log (r : log_record) (s : attach_state) : attach_state :=
  {| watchdog := watchdog s; enabled := enabled s;
     registered := registered s; logger := logger s ++ [r] |}.

(** What the session provider and the protocol client answer. *)
Record attach_env : Type := {
  get_or_create_cdp_session : result unit;
  Network_enable : result unit;
  register : handler -> result unit;
}.

Definition register_handler (env : attach_env) (target_id : string) (h : handler)
  : M attach_state unit :=
  lift (register env h) ;;;
  modify (add_registered target_id h).

(** The body of the [try]. *)
Definition attach_body (env : attach_env) (target_id : string)
  : M attach_state unit :=
  lift (get_or_create_cdp_session env) ;;;
  s <~ get ;;
  (match _network_logs (watchdog s) !! target_id with
   | Some _ => ret tt
   | None =>
       logs <~ lift (deque_new (max_logs_per_tab (watchdog s))) ;;
       modify (set_watchdog (fun w =>
                 set_network_logs (<[target_id := logs]> (_network_logs w)) w))
   end) ;;;
  lift (Network_enable env) ;;;
  modify (add_enabled target_id) ;;;
  register_handler env target_id requestWillBeSent ;;;
  register_handler env target_id responseReceived ;;;
  register_handler env target_id loadingFailed ;;;
  register_handler env target_id loadingFinished ;;;
  modify (set_watchdog (fun w =>
            set_monitored_targets ({[ target_id ]} ∪ _monitored_targets w) w)) ;;;
  modify (add_log (Debug_attached target_id)).

Definition attach_to_target (env : attach_env) (target_id : string)
  : M attach_state unit :=
  s <~ get ;;
  if decide (target_id ∈ _monitored_targets (watchdog s)) then ret tt
  else
    try_except (attach_body env target_id) is_Exception
      (fun e => modify (add_log (Warning_failed_to_attach target_id e))).


(** *** The event handlers of the watchdog *)

(** [on_TabCreatedEvent]: the event's [target_id], when it is a non-empty
    string, is attached. *)
Definition on_TabCreatedEvent (env : attach_env) (event_target_id : option string)
  : M attach_state unit :=
  match event_target_id with
  | Some target_id =>
      if negb (String.eqb target_id "") then attach_to_target env target_id
      else ret tt
  | None => ret tt
  end.

(** [on_BrowserStateRequestEvent]: the same for the session's
    [agent_focus_target_id]. *)
Definition on_BrowserStateRequestEvent (env : attach_env)
    (agent_focus_target_id : option string) : M attach_state unit :=
  match agent_focus_target_id with
  | Some target_id =>
      if negb (String.eqb target_id "") then attach_to_target env target_id
      else ret tt
  | None => ret tt
  end.

(** *** Formatting and the response body *)

(** [l[:n]] and [s[:n]]: a negative [n] counts from the end. *)
Definition slice_to {A : Type} (l : list A) (n : Z) : list A :=
  if (0 <=? n)%Z then take (Z.to_nat n) l
  else take (length l - Z.to_nat (- n)) l.

Definition str_slice_to (s : string) (n : Z) : string :=
  if (0 <=? n)%Z then String.substring 0 (Z.to_nat n) s
  else String.substring 0 (String.length s - Z.to_nat (- n)) s.

(** The answer of [Network.getResponseBody], read with [.get]. *)
Module ResponseBody.
Record t : Type := {
  body : option string;
  base64Encoded : option bool;
}.
End ResponseBody.

(** What the session provider answers for a target and the protocol for
    a request identifier, in [get_response_body]. *)
Record body_env : Type := {
  body_session : string -> result unit;
  getResponseBody : string -> result ResponseBody.t;
}.

Section python_library.

(** Functions of Python itself, which the repository does not define:
    [repr] (it is [str] on floats, lists and dicts), [base64.b64decode] and
    [bytes.decode('utf-8', errors='replace')]. *)
Variable repr : pyval -> string.
Variable b64decode : string -> result string.
Variable decode_utf8_replace : string -> string.

(** [str(v)], as an f-string formats [v]. *)
Definition py_str (v : pyval) : string :=
  match v with
  | PNone => "None"
  | PBool true => "True"
  | PBool false => "False"
  | PInt z => str_of_int z
  | PStr s => s
  | _ => repr v
  end.

(** [frame.get(key)]: only a dict has [get]. *)
Definition frame_get (frame : pyval) (key : string) : result pyval :=
  match frame with
  | PDict d => Returns (dict_get d key)
  | _ => Raises (AttributeError "object has no attribute 'get'")
  end.

(** [v + 1 if isinstance(v, (int, float)) else '?']; a [bool] is an [int]. *)
Definition one_based (v : pyval) : pyval :=
  match v with
  | PInt z => PInt (z + 1)
  | PBool b => PInt (Z.b2z b + 1)
  | PFloat f => PFloat (f + 1)%float
  | _ => PStr "?"
  end.

(** One line of the loop of [format_stack_trace]. *)
Definition format_frame (idx : nat) (frame : pyval) : result string :=
  function_name <- frame_get frame "functionName";;
  let function_name := py_or function_name (PStr "(anonymous)") in
  url <- frame_get frame "url";;
  let url := py_or url (PStr "<unknown>") in
  line <- frame_get frame "lineNumber";;
  let line := one_based line in
  column <- frame_get frame "columnNumber";;
  let column := one_based column in
  Returns ("#" +:+ str_of_int (Z.of_nat idx) +:+ " " +:+ py_str function_name
           +:+ " @ " +:+ py_str url +:+ ":" +:+ py_str line +:+ ":"
           +:+ py_str column).

(** The loop over [enumerate(...)], from the index [idx] on. *)
Fixpoint format_frames (idx : nat) (frames : list pyval) : result (list string) :=
  match frames with
  | [] => Returns []
  | frame :: frames' =>
      line <- format_frame idx frame;;
      lines <- format_frames (S idx) frames';;
      Returns (line :: lines)
  end.

Definition format_stack_trace (entry : NetworkLogEntry) (frame_limit : Z)
  : result string :=
  match stack_trace entry with
  | [] => Returns ""
  | _ =>
      lines <- format_frames 0 (slice_to (stack_trace entry) frame_limit);;
      Returns (String.concat (String (ascii_of_nat 10) "") lines)
  end.

(** [get_response_body]: the inner [try] turns a failure of the decoding
    into a placeholder, the outer one turns any other [Exception] into
    [None]. *)
Definition get_response_body (env : body_env) (target_id request_id : string)
  : result (option string) :=
  let outcome :=
    _ <- body_session env target_id;;
    result <- getResponseBody env request_id;;
    match ResponseBody.body result with
    | None => Returns None
    | Some body =>
        if default false (ResponseBody.base64Encoded result) then
          match b64decode body with
          | Returns decoded => Returns (Some (decode_utf8_replace decoded))
          | Raises e =>
              if is_Exception e
              then Returns (Some "<base64-encoded response body could not be decoded>")
              else Raises e
          end
        else Returns (Some body)
    end in
  match outcome with
  | Raises e => if is_Exception e then Returns None else Raises e
  | r => r
  end.

(** The lines [    k: v] of a headers block. *)
Definition header_lines (h : Headers) : string :=
  String.concat (String (ascii_of_nat 10) "")
    (map (fun kv => "    " +:+ fst kv +:+ ": " +:+ snd kv) h).

(** The response body as [format_entry_details] shows it. *)
Definition shown_body (body : string) (body_length : Z) : string :=
  if (body_length <? Z.of_nat (String.length body))%Z then
    str_slice_to body body_length +:+ String (ascii_of_nat 10) ""
    +:+ "... (truncated "
    +:+ str_of_int (Z.of_nat (String.length body) - body_length) +:+ " chars)"
  else body.

(** The lines of [format_entry_details] before the response body. *)
Definition detail_lines (entry : NetworkLogEntry)
    (include_headers include_request_body : bool) : list string :=
  ["Request: [" +:+ method entry +:+ "] " +:+ url entry;
   "Type: " +:+ resource_type entry]
  ++ match status entry with
     | Some s =>
         ["Status: " +:+ str_of_int s
          +:+ (if str_truthy (status_text entry)
               then " (" +:+ default "" (status_text entry) +:+ ")" else "")]
     | None => []
     end
  ++ (if str_truthy (error_text entry)
      then ["Error: " +:+ default "" (error_text entry)] else [])
  ++ (if str_truthy (mime_type entry)
      then ["MIME: " +:+ default "" (mime_type entry)] else [])
  ++ match duration_ms entry with
     | Some d => ["Duration: " +:+ format_0f d +:+ " ms"]
     | None => []
     end
  ++ match encoded_data_length entry with
     | Some n => ["Size: " +:+ format_0f n +:+ " bytes"]
     | None => []
     end
  ++ (if truthy (initiator_type entry)
      then ["Initiator: " +:+ py_str (initiator_type entry)] else [])
  ++ (if include_headers && negb (bool_decide (request_headers entry = []))
      then ["Request Headers:" +:+ String (ascii_of_nat 10) ""
            +:+ header_lines (request_headers entry)] else [])
  ++ (if include_request_body && str_truthy (request_body_preview entry)
      then ["Request Body (preview):" +:+ String (ascii_of_nat 10) ""
            +:+ default "" (request_body_preview entry)] else [])
  ++ (if include_headers && negb (bool_decide (response_headers entry = []))
      then ["Response Headers:" +:+ String (ascii_of_nat 10) ""
            +:+ header_lines (response_headers entry)] else []).

Definition format_entry_details (env : body_env) (target_id : string)
    (entry : NetworkLogEntry)
    (include_headers include_request_body include_response_body : bool)
    (body_length : Z) : result string :=
  let lines := detail_lines entry include_headers include_request_body in
  lines <-
    (if include_response_body then
       body <- get_response_body env target_id (request_id entry);;
       if str_truthy body then
         Returns (lines ++ ["Response Body:" +:+ String (ascii_of_nat 10) ""
                            +:+ shown_body (default "" body) body_length])
       else Returns (lines ++ ["Response Body: <not available>"])
     else Returns lines);;
  Returns (String.concat (String (ascii_of_nat 10) "") lines).

End python_library.

End network_watchdog.

(** ** screenshot_watchdog.py *)

Module screenshot_watchdog.

Record ScreenshotEvent : Type := {
  event_timeout : option float;
}.

Record Target : Type := {
  target_id : string;
  target_type : string;
}.

(** The awaited and external calls of the handler, in the order made. *)
Inductive call : Type :=
| Acquire (timeout : float)
| Get_or_create_cdp_session (target_id : string) (focus : bool)
| CaptureScreenshot (target_id : string) (timeout : float)
| Release
| Remove_highlights.

(** What the rest of the program answers while the handler runs.
    - [cancelled_at_acquire]: the task is cancelled while it waits for the
      lock;
    - [released_within t]: a lock held by another request is released
      within [t] seconds of the wait's start;
    - [captureScreenshot t]: the outcome of the capture command under
      [asyncio.wait_for(..., timeout=t)], [Raises TimeoutError] when it
      does not answer in time. *)
Record env : Type := {
  cancelled_at_acquire : bool;
  released_within : float -> bool;
  get_focused_target : option Target;
  get_page_targets : list Target;
  get_or_create_cdp_session : string -> result unit;
  captureScreenshot : float -> result (list (string * string));
  remove_highlights : result unit;
}.

(** [_screenshot_lock] (is it locked), the local [lock_acquired], and the
    calls made so far. *)
Record state : Type := {
  _screenshot_lock : bool;
  lock_acquired : bool;
  calls : list call;
}.

Definition set_lock (b : bool) (s : state) : state :=
  {| _screenshot_lock := b; lock_acquired := lock_acquired s; calls := calls s |}.

Definition set_lock_acquired (b : bool) (s : state) : state :=
  {| _screenshot_lock := _screenshot_lock s; lock_acquired := b; calls := calls s |}.

Definition record (c : call) : M state unit :=
  modify (fun s =>
    {| _screenshot_lock := _screenshot_lock s;
       lock_acquired := lock_acquired s; calls := calls s ++ [c] |}).

(** [await asyncio.wait_for(self._screenshot_lock.acquire(), timeout=t)]:
    a free lock is taken at once; a held one is taken when its holder
    releases it within [t], and the wait ends in [TimeoutError] otherwise. *)
Definition wait_for_acquire (e : env) (t : float) : M state unit :=
  record (Acquire t) ;;;
  s <~ get ;;
  if cancelled_at_acquire e then raise CancelledError
  else if negb (_screenshot_lock s) then modify (set_lock true)
  else if released_within e t then modify (set_lock true)
  else raise TimeoutError.

(** [self._screenshot_lock.release()]. *)
Definition release : M state unit :=
  record Release ;;;
  s <~ get ;;
  if _screenshot_lock s then modify (set_lock false)
  else raise (RuntimeError "Lock is not acquired.").

Definition is_TimeoutError (e : exn) : bool :=
  match e with TimeoutError => true | _ => false end.

Definition is_page_or_tab (t : Target) : bool :=
  String.eqb (target_type t) "page" || String.eqb (target_type t) "tab".

(** [timeout_seconds] and [capture_timeout]. *)
Definition timeout_seconds (event : ScreenshotEvent) : float :=
  match event_timeout event with
  | Some t => if float_truthy t then t else 15%float
  | None => 15%float
  end.

Definition capture_timeout (event : ScreenshotEvent) : float :=
  py_max (timeout_seconds event - 2)%float 1%float.

(** [d.get(k)] on a dict of strings, [None] when the key is missing. *)
Fixpoint lookup_str (d : list (string * string)) (k : string) : option string :=
  match d with
  | [] => None
  | (k', v) :: d' => if String.eqb k' k then Some v else lookup_str d' k
  end.

(** The inner [try]: the bounded wait for the lock; a wait that times out
    becomes the error of a capture in progress. *)
Definition acquire_lock (e : env) : M state unit :=
  try_except
    (wait_for_acquire e 2%float ;;;
     modify (set_lock_acquired true))
    is_TimeoutError
    (fun _ =>
       raise (BrowserError "[ScreenshotWatchdog] Another screenshot is already in progress")).

(** The target to capture: the focused target when it is a page or a tab,
    the last page target otherwise. *)
Definition select_target (e : env) : M state string :=
  let focused_target := get_focused_target e in
  match focused_target with
  | Some t =>
      if is_page_or_tab t then ret (target_id t)
      else
        match last (get_page_targets e) with
        | None =>
            raise (BrowserError "[ScreenshotWatchdog] No page targets available for screenshot")
        | Some p => ret (target_id p)
        end
  | None =>
      match last (get_page_targets e) with
      | None =>
          raise (BrowserError "[ScreenshotWatchdog] No page targets available for screenshot")
      | Some p => ret (target_id p)
      end
  end.

(** The session of the target, the capture command under its timeout, and
    the payload of the answer. *)
Definition capture_target (e : env) (event : ScreenshotEvent) (target : string)
  : M state string :=
  record (Get_or_create_cdp_session target true) ;;;
  lift (get_or_create_cdp_session e target) ;;;
  record (CaptureScreenshot target (capture_timeout event)) ;;;
  result <~ lift (captureScreenshot e (capture_timeout event)) ;;
  match result, lookup_str result "data" with
  | _ :: _, Some data => ret data
  | _, _ => raise (BrowserError "[ScreenshotWatchdog] Screenshot result missing data")
  end.

(** The body of the outer [try]. *)
Definition capture_body (e : env) (event : ScreenshotEvent) : M state string :=
  acquire_lock e ;;;
  target <~ select_target e ;;
  capture_target e event target.

(** The [finally] block. *)
Definition cleanup (e : env) : M state unit :=
  s <~ get ;;
  (if lock_acquired s then release else ret tt) ;;;
  record Remove_highlights ;;;
  try_except (lift (remove_highlights e)) is_Exception (fun _ => ret tt).

(** The three [except] clauses log and re-raise what they caught. *)
Definition on_ScreenshotEvent (e : env) (event : ScreenshotEvent) : M state string :=
  modify (set_lock_acquired false) ;;;
  try_finally
    (try_except (capture_body e event) (fun _ => true) (fun x => raise x))
    (cleanup e).

(** A request that arrives when the lock is in state [locked]. *)
Definition request (e : env) (event : ScreenshotEvent) (locked : bool)
  : result string * state :=
  on_ScreenshotEvent e event
    {| _screenshot_lock := locked; lock_acquired := false; calls := [] |}.

End screenshot_watchdog.

(** ** The vocabulary of the properties *)

Module lifecycle.
Import network_watchdog.

(** The three events that update an entry, as one tagged type, and the
    handler each is routed to. *)
Inductive update_event : Type :=
| Response_received (event : ResponseReceivedEvent.t)
| Loading_failed (event : LoadingFailedEvent.t)
| Loading_finished (event : LoadingFinishedEvent.t).

Definition handle (self : NetworkWatchdog) (target_id : string) (u : update_event)
  : NetworkWatchdog :=
  match u with
  | Response_received event => on_response self target_id event
  | Loading_failed event => on_failure self target_id event
  | Loading_finished event => on_loading_finished self target_id event
  end.

Definition handle_all (self : NetworkWatchdog) (us : list (string * update_event))
  : NetworkWatchdog :=
  foldl (fun s tu => handle s (fst tu) (snd tu)) self us.

(** The event has every key whose value its handler assigns without a
    test: [status], [statusText] and [mimeType] of a response, [errorText]
    of a failure, [encodedDataLength] and [timestamp] of a finish. *)
Definition carries_fields (u : update_event) : bool :=
  match u with
  | Response_received event =>
      match ResponseReceivedEvent.response event with
      | Some r =>
          bool_decide (is_Some (Response.status r))
          && bool_decide (is_Some (Response.statusText r))
          && bool_decide (is_Some (Response.mimeType r))
      | None => false
      end
  | Loading_failed event =>
      bool_decide (is_Some (LoadingFailedEvent.errorText event))
  | Loading_finished event =>
      bool_decide (is_Some (LoadingFinishedEvent.encodedDataLength event))
      && bool_decide (is_Some (LoadingFinishedEvent.timestamp event))
  end.

(** The update one event makes to the entry it is about. *)
Definition apply_update (u : update_event) : NetworkLogEntry -> NetworkLogEntry :=
  match u with
  | Response_received event =>
      apply_response (default Response.empty (ResponseReceivedEvent.response event))
  | Loading_failed event => apply_failure event
  | Loading_finished event => apply_loading_finished event
  end.

Definition update_request_id (u : update_event) : string :=
  match u with
  | Response_received event => ResponseReceivedEvent.requestId event
  | Loading_failed event => LoadingFailedEvent.requestId event
  | Loading_finished event => LoadingFinishedEvent.requestId event
  end.

(** No attribute of [e] that holds a value is [None] in [e']; the
    attributes that cannot be [None] are left out. *)
Definition never_retracted (e e' : NetworkLogEntry) : Prop :=
  (is_Some (status e) -> is_Some (status e'))
  /\ (is_Some (status_text e) -> is_Some (status_text e'))
  /\ (is_Some (mime_type e) -> is_Some (mime_type e'))
  /\ (is_Some (error_text e) -> is_Some (error_text e'))
  /\ (initiator_type e <> PNone -> initiator_type e' <> PNone)
  /\ (is_Some (request_body_preview e) -> is_Some (request_body_preview e'))
  /\ (is_Some (encoded_data_length e) -> is_Some (encoded_data_length e'))
  /\ (is_Some (end_time e) -> is_Some (end_time e')).

(** A request event delivered to [on_request]: an exception leaves the
    handler and the watchdog is as it was. *)
Definition deliver_request (self : NetworkWatchdog) (target_id : string)
    (event : RequestWillBeSentEvent.t) : NetworkWatchdog :=
  match on_request self target_id event with
  | Returns self' => self'
  | Raises _ => self
  end.

Definition deliver_requests (self : NetworkWatchdog) (target_id : string)
    (events : list RequestWillBeSentEvent.t) : NetworkWatchdog :=
  foldl (fun s event => deliver_request s target_id event) self events.

(** The request events that [on_request] turns into an entry. *)
Definition recorded (self : NetworkWatchdog) (event : RequestWillBeSentEvent.t)
  : bool :=
  bool_decide (default "Unknown" (RequestWillBeSentEvent.type event)
               ∉ ignored_resource_types self)
  && match _extract_initiator_frames (RequestWillBeSentEvent.initiator event) with
     | Returns _ => true
     | Raises _ => false
     end.

(** The last [n] items of [l]. *)
Definition last_n {A : Type} (n : nat) (l : list A) : list A :=
  drop (length l - n) l.

(** *** Concrete runs *)

(** An environment in which every step of the attachment succeeds. *)
Definition attach_ok : attach_env :=
  {| get_or_create_cdp_session := Returns tt;
     Network_enable := Returns tt;
     register := fun _ => Returns tt |}.

Definition fresh (w : NetworkWatchdog) : attach_state :=
  {| watchdog := w; enabled := []; registered := []; logger := [] |}.

(** The default watchdog attached to target ["T"]. *)
Definition attached_T : NetworkWatchdog :=
  watchdog (snd (attach_to_target attach_ok "T" (fresh new_watchdog))).

(** [GET https://api.example.com/v1/search] of type [XHR]. *)
Definition search_request (request_id : string) : RequestWillBeSentEvent.t :=
  {| RequestWillBeSentEvent.requestId := request_id;
     RequestWillBeSentEvent.type := Some "XHR";
     RequestWillBeSentEvent.request :=
       Some {| Request.url := Some "https://api.example.com/v1/search";
               Request.method := Some "GET";
               Request.headers := Some [];
               Request.postData := PNone |};
     RequestWillBeSentEvent.wallTime := Some 1000%float;
     RequestWillBeSentEvent.initiator := PDict [("type", PStr "script")] |}.

Definition response_200 (request_id : string) : ResponseReceivedEvent.t :=
  {| ResponseReceivedEvent.requestId := request_id;
     ResponseReceivedEvent.response :=
       Some {| Response.status := Some 200%Z;
               Response.statusText := Some "OK";
               Response.mimeType := Some "application/json";
               Response.headers := Some [("content-type", "application/json")];
               Response.responseTime := None |} |}.

(** A response that reports the status [0]. *)
Definition response_status_0 (request_id : string) : ResponseReceivedEvent.t :=
  {| ResponseReceivedEvent.requestId := request_id;
     ResponseReceivedEvent.response :=
       Some {| Response.status := Some 0%Z;
               Response.statusText := Some "";
               Response.mimeType := Some "text/plain";
               Response.headers := Some [];
               Response.responseTime := None |} |}.

(** A response whose dict has no ['status'] key. *)
Definition response_without_status (request_id : string) : ResponseReceivedEvent.t :=
  {| ResponseReceivedEvent.requestId := request_id;
     ResponseReceivedEvent.response :=
       Some {| Response.status := None;
               Response.statusText := Some "";
               Response.mimeType := Some "text/plain";
               Response.headers := None;
               Response.responseTime := None |} |}.

Definition connection_reset (request_id : string) : LoadingFailedEvent.t :=
  {| LoadingFailedEvent.requestId := request_id;
     LoadingFailedEvent.errorText := Some "net::ERR_CONNECTION_RESET";
     LoadingFailedEvent.timestamp := Some 1000.25%float |}.

Definition finished_1024 (request_id : string) : LoadingFinishedEvent.t :=
  {| LoadingFinishedEvent.requestId := request_id;
     LoadingFinishedEvent.encodedDataLength := Some 1024%float;
     LoadingFinishedEvent.timestamp := Some 1000.5%float |}.

(** One request dispatched on ["T"], and the same after it failed. *)
Definition one_request : NetworkWatchdog :=
  deliver_request attached_T "T" (search_request "1").

Definition one_failed : NetworkWatchdog :=
  on_failure one_request "T" (connection_reset "1").


(** Requests ["1"] to ["205"], in this order. *)
Definition request_ids (first count : nat) : list string :=
  map (fun n => str_of_int (Z.of_nat n)) (seq first count).

Definition requests_1_to_205 : list RequestWillBeSentEvent.t :=
  map search_request (request_ids 1 205).


(** [response.get('status')] of a response-received event. *)
Definition supplied_status (event : ResponseReceivedEvent.t) : option Z :=
  Response.status (default Response.empty (ResponseReceivedEvent.response event)).


(** An initiator stack given by the frame lists of its chain, innermost
    first: each stack is a dict with its [callFrames] and its [parent]. *)
Fixpoint stack_of_chain (chain : list (list pyval)) : pyval :=
  match chain with
  | [] => PNone
  | frames :: outer =>
      PDict [("callFrames", PList frames); ("parent", stack_of_chain outer)]
  end.

Definition initiator_of_chain (chain : list (list pyval)) : pyval :=
  PDict [("type", PStr "script"); ("stack", stack_of_chain chain)].

Definition frame (name : string) : pyval :=
  PDict [("functionName", PStr name); ("url", PStr "https://example.com/app.js");
         ("lineNumber", PInt 0); ("columnNumber", PInt 0)].

(** An initiator whose [stack] is a string, and one whose innermost stack
    has a string for [parent]. *)
Definition initiator_string_stack : pyval :=
  PDict [("type", PStr "script"); ("stack", PStr "x")].

Definition initiator_string_parent : pyval :=
  PDict [("type", PStr "script");
         ("stack", PDict [("callFrames", PList [frame "a1"]); ("parent", PStr "x")])].

Definition request_with_initiator (request_id : string) (initiator : pyval)
  : RequestWillBeSentEvent.t :=
  {| RequestWillBeSentEvent.requestId := request_id;
     RequestWillBeSentEvent.type := Some "XHR";
     RequestWillBeSentEvent.request :=
       Some {| Request.url := Some "https://api.example.com/v1/search";
               Request.method := Some "GET";
               Request.headers := Some [];
               Request.postData := PNone |};
     RequestWillBeSentEvent.wallTime := Some 1000%float;
     RequestWillBeSentEvent.initiator := initiator |}.


(** *** The steps of an attachment *)

(** The outcomes of the steps of [attach_body] in the order it takes them:
    the session, the target's deque (created when the target has none), the
    enable command, the four registrations. *)
Definition attach_steps (env : attach_env) (s : attach_state) (target_id : string)
  : list (result unit) :=
  [ get_or_create_cdp_session env;
    match _network_logs (watchdog s) !! target_id with
    | Some _ => Returns tt
    | None => _ <- deque_new (max_logs_per_tab (watchdog s));; Returns tt
    end;
    Network_enable env;
    register env requestWillBeSent;
    register env responseReceived;
    register env loadingFailed;
    register env loadingFinished ].

(** The exception of the first step that raises. *)
Fixpoint first_error (steps : list (result unit)) : option exn :=
  match steps with
  | [] => None
  | Raises e :: _ => Some e
  | Returns _ :: steps' => first_error steps'
  end.

Definition monitored (s : attach_state) : gset string :=
  _monitored_targets (watchdog s).

(** An environment whose session provider fails. *)
Definition attach_no_session : attach_env :=
  {| get_or_create_cdp_session := Raises (OtherException "no session");
     Network_enable := Returns tt;
     register := fun _ => Returns tt |}.

(** An environment in which the third registration fails. *)
Definition attach_registration_fails : attach_env :=
  {| get_or_create_cdp_session := Returns tt;
     Network_enable := Returns tt;
     register := fun h =>
       match h with
       | loadingFailed => Raises (RuntimeError "connection closed")
       | _ => Returns tt
       end |}.


(** *** Matching a URL *)

(** [p] occurs in [s]: [s] is [p] between two strings. *)
Definition occurs (p s : string) : Prop :=
  exists pre post, s = pre +:+ p +:+ post.

(** The capital letters [A] to [Z]. *)
Definition is_capital (c : ascii) : bool :=
  (65 <=? nat_of_ascii c)%nat && (nat_of_ascii c <=? 90)%nat.

(** [a] is the small letter of the capital letter [c]. *)
Definition small_of (c a : ascii) : bool :=
  is_capital c && (nat_of_ascii a =? nat_of_ascii c + 32)%nat.

(** Two characters are the same up to case: they are equal, or one is a
    capital letter and the other its small letter. *)
Definition same_letter (c1 c2 : ascii) : bool :=
  Ascii.eqb c1 c2 || small_of c1 c2 || small_of c2 c1.

(** Two strings are the same up to case: they have the same length and
    the same letters up to case at each position. *)
Fixpoint equal_ignoring_case (s1 s2 : string) : bool :=
  match s1, s2 with
  | EmptyString, EmptyString => true
  | String c1 s1', String c2 s2' => same_letter c1 c2 && equal_ignoring_case s1' s2'
  | _, _ => false
  end.

(** [pattern] occurs in [s] up to the case of the letters: some substring
    of [s] is [pattern] up to case. *)
Definition occurs_ignoring_case (pattern s : string) : Prop :=
  exists pre mid post,
    s = pre +:+ mid +:+ post /\ equal_ignoring_case mid pattern = true.

(** [GET https://example.com/Login] of type [Document]. *)
Definition login_request (request_id : string) : RequestWillBeSentEvent.t :=
  {| RequestWillBeSentEvent.requestId := request_id;
     RequestWillBeSentEvent.type := Some "Document";
     RequestWillBeSentEvent.request :=
       Some {| Request.url := Some "https://example.com/Login";
               Request.method := Some "GET";
               Request.headers := Some [];
               Request.postData := PNone |};
     RequestWillBeSentEvent.wallTime := Some 1001%float;
     RequestWillBeSentEvent.initiator := PDict [("type", PStr "other")] |}.

(** Two search requests and then a login request, all in the log. *)
Definition search_search_login : NetworkWatchdog :=
  deliver_requests attached_T "T"
    [search_request "1"; search_request "2"; login_request "3"].


(** *** Runs for the summaries *)

(** The request answered with 200 and finished. *)
Definition one_completed : NetworkWatchdog :=
  on_loading_finished (on_response one_request "T" (response_200 "1")) "T"
    (finished_1024 "1").

(** A loading-failed event whose [errorText] is the empty string. *)
Definition failed_without_text (request_id : string) : LoadingFailedEvent.t :=
  {| LoadingFailedEvent.requestId := request_id;
     LoadingFailedEvent.errorText := Some "";
     LoadingFailedEvent.timestamp := Some 1000.25%float |}.

(** An entry with the sentinel status and an empty error text. *)
Definition entry_status_0_empty_error : NetworkLogEntry :=
  {| request_id := "7"; url := "https://example.com/data"; method := "POST";
     resource_type := "Fetch"; start_time := 1000%float;
     status := Some 0%Z; status_text := None; mime_type := None;
     error_text := Some ""; initiator_type := PNone;
     request_headers := []; response_headers := [];
     request_body_preview := None; encoded_data_length := None;
     end_time := None; stack_trace := [] |}.


(** *** Runs of the watchdog *)

(** What may happen to a watchdog, one step at a time: an attachment, a
    request event, one of the three updating events, each for some target. *)
Inductive operation : Type :=
| Attach (env : attach_env) (target_id : string)
| Request_sent (target_id : string) (event : RequestWillBeSentEvent.t)
| Update (target_id : string) (u : update_event).

Definition step (s : attach_state) (o : operation) : attach_state :=
  match o with
  | Attach env target_id => snd (attach_to_target env target_id s)
  | Request_sent target_id event =>
      set_watchdog (fun w => deliver_request w target_id event) s
  | Update target_id u => set_watchdog (fun w => handle w target_id u) s
  end.

Definition run (s : attach_state) (ops : list operation) : attach_state :=
  foldl step s ops.

(** The watchdog of the class with [max_logs_per_tab] set to [capacity]. *)
Definition watchdog_with_capacity (capacity : Z) : NetworkWatchdog :=
  {| max_logs_per_tab := capacity;
     ignored_resource_types := default_ignored_resource_types;
     _network_logs := ∅;
     _monitored_targets := ∅ |}.

(** Every deque of the store has the capacity [n] and holds at most [n]
    entries. *)
Definition store_bounded (n : nat) (w : NetworkWatchdog) : Prop :=
  forall target_id d,
    _network_logs w !! target_id = Some d ->
    maxlen d = n /\ (length (items d) <= n)%nat.


(** *** More runs *)

(** The entry that [on_request] builds for [search_request "1"]. *)
Definition search_entry : NetworkLogEntry :=
  {| request_id := "1"; url := "https://api.example.com/v1/search";
     method := "GET"; resource_type := "XHR"; start_time := 1000%float;
     status := None; status_text := None; mime_type := None;
     error_text := None; initiator_type := PStr "script";
     request_headers := []; response_headers := [];
     request_body_preview := None; encoded_data_length := None;
     end_time := None; stack_trace := [] |}.

(** The identifier ["1"] used by two requests, both in the log. *)
Definition two_requests_same_id : NetworkWatchdog :=
  deliver_requests attached_T "T" [search_request "1"; search_request "1"].


(** A response with status 200 and the [responseTime] 2000. *)
Definition response_at_2000 (request_id : string) : ResponseReceivedEvent.t :=
  {| ResponseReceivedEvent.requestId := request_id;
     ResponseReceivedEvent.response :=
       Some {| Response.status := Some 200%Z;
               Response.statusText := Some "OK";
               Response.mimeType := Some "application/json";
               Response.headers := None;
               Response.responseTime := Some 2000%float |} |}.


(** A request for an image. *)
Definition image_request : RequestWillBeSentEvent.t :=
  {| RequestWillBeSentEvent.requestId := "1";
     RequestWillBeSentEvent.type := Some "Image";
     RequestWillBeSentEvent.request :=
       Some {| Request.url := Some "https://example.com/logo.png";
               Request.method := Some "GET";
               Request.headers := None;
               Request.postData := PNone |};
     RequestWillBeSentEvent.wallTime := Some 1000%float;
     RequestWillBeSentEvent.initiator := PNone |}.


(** *** What triggers an attachment *)

(** The two events the watchdog listens to, with the target they carry:
    the [target_id] of [TabCreatedEvent], the session's
    [agent_focus_target_id] at a [BrowserStateRequestEvent]. *)
Inductive trigger : Type :=
| Tab_created (target_id : option string)
| Browser_state_request (agent_focus_target_id : option string).

Definition fire (env : attach_env) (s : attach_state) (tr : trigger) : attach_state :=
  match tr with
  | Tab_created target_id => snd (on_TabCreatedEvent env target_id s)
  | Browser_state_request target_id => snd (on_BrowserStateRequestEvent env target_id s)
  end.

Definition fire_all (env : attach_env) (s : attach_state) (trs : list trigger)
  : attach_state :=
  foldl (fire env) s trs.

(** The target a trigger asks to attach, if any. *)
Definition trigger_target (tr : trigger) : option string :=
  match tr with
  | Tab_created (Some t) | Browser_state_request (Some t) =>
      if String.eqb t "" then None else Some t
  | _ => None
  end.

(** The four registrations of a target, in the order they are made. *)
Definition subscriptions (target_id : string) : list (string * handler) :=
  [(target_id, requestWillBeSent); (target_id, responseReceived);
   (target_id, loadingFailed); (target_id, loadingFinished)].

(** An environment in which every step succeeds but the last
    registration. *)
Definition attach_last_registration_fails : attach_env :=
  {| get_or_create_cdp_session := Returns tt;
     Network_enable := Returns tt;
     register := fun h =>
       match h with
       | loadingFinished => Raises (RuntimeError "connection closed")
       | _ => Returns tt
       end |}.

End lifecycle.

(** ** Runs of screenshot requests *)

Module capture.
Import screenshot_watchdog.

Definition contention_error : exn :=
  BrowserError "[ScreenshotWatchdog] Another screenshot is already in progress".

(** The focused target is the page ["P"] and every call is answered; the
    capture returns the payload ["iVBORw0KGgo="]. *)
Definition env_ok : env :=
  {| cancelled_at_acquire := false;
     released_within := fun _ => false;
     get_focused_target := Some {| target_id := "P"; target_type := "page" |};
     get_page_targets := [{| target_id := "P"; target_type := "page" |}];
     get_or_create_cdp_session := fun _ => Returns tt;
     captureScreenshot := fun _ => Returns [("data", "iVBORw0KGgo=")];
     remove_highlights := Returns tt |}.

(** The capture command does not answer in time. *)
Definition env_capture_times_out : env :=
  {| cancelled_at_acquire := false;
     released_within := fun _ => false;
     get_focused_target := Some {| target_id := "P"; target_type := "page" |};
     get_page_targets := [{| target_id := "P"; target_type := "page" |}];
     get_or_create_cdp_session := fun _ => Returns tt;
     captureScreenshot := fun _ => Raises TimeoutError;
     remove_highlights := Raises (OtherException "no overlay") |}.

Definition event_default : ScreenshotEvent := {| event_timeout := None |}.

Definition event_zero : ScreenshotEvent := {| event_timeout := Some 0%float |}.

Definition event_of (t : float) : ScreenshotEvent := {| event_timeout := Some t |}.


(** The request takes the lock: it is not cancelled while it waits, and
    the lock is free or released within the 2 seconds of the wait. *)
Definition acquires (e : env) (locked : bool) : bool :=
  negb (cancelled_at_acquire e) && (negb locked || released_within e 2%float).

(** [s'] is [s] after the calls [more], lock and flag unchanged. *)
Definition after_calls (s s' : state) (more : list call) : Prop :=
  _screenshot_lock s' = _screenshot_lock s
  /\ lock_acquired s' = lock_acquired s
  /\ calls s' = calls s ++ more.

(** What the handler may call between taking the lock and the [finally]
    block: nothing (no page target), the session alone (it raised), or the
    session and the capture command with its timeout. *)
Definition capture_calls (e : env) (event : ScreenshotEvent) (more : list call) : Prop :=
  more = []
  \/ (exists target,
        more = [Get_or_create_cdp_session target true]
        /\ exists x, get_or_create_cdp_session e target = Raises x)
  \/ (exists target,
        more = [Get_or_create_cdp_session target true;
                CaptureScreenshot target (capture_timeout event)]
        /\ get_or_create_cdp_session e target = Returns tt).

(** The outcome of the [finally] block on the outcome [r] of the [try]:
    an exception that leaves the overlay cleanup and is not an [Exception]
    takes its place. *)
Definition after_cleanup (e : env) (r : result string) : result string :=
  match remove_highlights e with
  | Raises x => if is_Exception x then r else Raises x
  | Returns _ => r
  end.


(** The state in which a request finds the handler, and that state after
    the call [c]. *)
Definition start (locked : bool) : state :=
  {| _screenshot_lock := locked; lock_acquired := false; calls := [] |}.

Definition called (c : call) (s : state) : state :=
  {| _screenshot_lock := _screenshot_lock s;
     lock_acquired := lock_acquired s; calls := calls s ++ [c] |}.


(** More environments: the lock is held by another request for the whole
    wait; no target is a page; the answer has no payload; the request is
    cancelled during the capture; the cleanup itself is cancelled. *)
Definition env_no_page : env :=
  {| cancelled_at_acquire := false;
     released_within := fun _ => false;
     get_focused_target := Some {| target_id := "F"; target_type := "iframe" |};
     get_page_targets := [];
     get_or_create_cdp_session := fun _ => Returns tt;
     captureScreenshot := fun _ => Returns [("data", "iVBORw0KGgo=")];
     remove_highlights := Returns tt |}.

Definition env_no_payload : env :=
  {| cancelled_at_acquire := false;
     released_within := fun _ => false;
     get_focused_target := None;
     get_page_targets := [{| target_id := "P"; target_type := "page" |};
                          {| target_id := "Q"; target_type := "page" |}];
     get_or_create_cdp_session := fun _ => Returns tt;
     captureScreenshot := fun _ => Returns [("format", "png")];
     remove_highlights := Returns tt |}.

Definition env_cancelled_in_capture : env :=
  {| cancelled_at_acquire := false;
     released_within := fun _ => true;
     get_focused_target := Some {| target_id := "P"; target_type := "tab" |};
     get_page_targets := [];
     get_or_create_cdp_session := fun _ => Returns tt;
     captureScreenshot := fun _ => Raises CancelledError;
     remove_highlights := Returns tt |}.


(** The capture timeout as the specification words it:
    max(overall_timeout - 2, 1), the overall timeout being the request's,
    and 15 when the request supplies none. *)
Definition spec_capture_timeout (event : ScreenshotEvent) : float :=
  py_max (default 15%float (event_timeout event) - 2)%float 1%float.


(** *** The outcome of a request that took the lock *)

(** What the handler makes of the answer to the capture command: the
    payload under ['data'] of an answer that is not empty, the error of a
    missing payload for any other answer, and the exception itself when
    the command raised (a timeout, a cancellation, a protocol error). *)
Definition payload (answer : result (list (string * string))) : result string :=
  match answer with
  | Returns result =>
      match result, lookup_str result "data" with
      | _ :: _, Some data => Returns data
      | _, _ => Raises (BrowserError "[ScreenshotWatchdog] Screenshot result missing data")
      end
  | Raises x => Raises x
  end.

(** The target is the focused one, a page or a tab, or else the last of
    the page targets. *)
Definition is_capture_target (e : env) (target : string) : Prop :=
  (exists f, get_focused_target e = Some f
             /\ is_page_or_tab f = true /\ target = target_id f)
  \/ ((get_focused_target e = None
       \/ exists f, get_focused_target e = Some f /\ is_page_or_tab f = false)
      /\ exists p, last (get_page_targets e) = Some p /\ target = target_id p).

(** The focused target is an iframe; two page targets are known. *)
Definition env_iframe_focused : env :=
  {| cancelled_at_acquire := false;
     released_within := fun _ => false;
     get_focused_target := Some {| target_id := "F"; target_type := "iframe" |};
     get_page_targets := [{| target_id := "P"; target_type := "page" |};
                          {| target_id := "Q"; target_type := "page" |}];
     get_or_create_cdp_session := fun _ => Returns tt;
     captureScreenshot := fun _ => Returns [("data", "iVBORw0KGgo=")];
     remove_highlights := Raises (OtherException "no overlay") |}.

End capture.

(** ** tools/views.py: the bounds of the network actions *)

Module views.

(** An [int] field declared with [Field(default=..., ge=..., le=...)]. *)
Record IntField : Type := {
  default_value : Z;
  ge : Z;
  le : Z;
}.

(** The value passes the field's validation. *)
Definition accepts (f : IntField) (v : Z) : Prop := (ge f <= v <= le f)%Z.

(** [CheckNetworkTrafficAction.limit]. *)
Definition CheckNetworkTrafficAction_limit : IntField :=
  {| default_value := 20; ge := 1; le := 200 |}.

(** [GetNetworkRequestDetailsAction.max_response_body_length]. *)
Definition GetNetworkRequestDetailsAction_max_response_body_length : IntField :=
  {| default_value := 4000; ge := 500; le := 20000 |}.

(** [GetNetworkRequestStackAction.frame_limit]. *)
Definition GetNetworkRequestStackAction_frame_limit : IntField :=
  {| default_value := 10; ge := 1; le := 30 |}.

End views.

(** ** Call frames and bodies *)

Module formatting.
Import network_watchdog.

(** A call frame as the protocol types it. *)
Module CallFrame.
Record t : Type := {
  functionName : string;
  url : string;
  lineNumber : Z;
  columnNumber : Z;
}.
End CallFrame.

(** The dict of a call frame, as it sits in [stack_trace]. *)
Definition frame_dict (f : CallFrame.t) : pyval :=
  PDict [("functionName", PStr (CallFrame.functionName f));
         ("url", PStr (CallFrame.url f));
         ("lineNumber", PInt (CallFrame.lineNumber f));
         ("columnNumber", PInt (CallFrame.columnNumber f))].

(** The line of the frame at position [idx]: the name, or [(anonymous)]
    when it is empty; the URL, or [<unknown>]; line and column counted
    from 1. *)
Definition frame_line (idx : nat) (f : CallFrame.t) : string :=
  "#" +:+ str_of_int (Z.of_nat idx) +:+ " "
  +:+ (if String.eqb (CallFrame.functionName f) "" then "(anonymous)"
       else CallFrame.functionName f)
  +:+ " @ "
  +:+ (if String.eqb (CallFrame.url f) "" then "<unknown>" else CallFrame.url f)
  +:+ ":" +:+ str_of_int (CallFrame.lineNumber f + 1)
  +:+ ":" +:+ str_of_int (CallFrame.columnNumber f + 1).

Definition newline : string := String (ascii_of_nat 10) "".

(** The entry [e] with the stack [frames]. *)
Definition with_stack (frames : list pyval) (e : NetworkLogEntry) : NetworkLogEntry :=
  {| request_id := request_id e; url := url e; method := method e;
     resource_type := resource_type e; start_time := start_time e;
     status := status e; status_text := status_text e; mime_type := mime_type e;
     error_text := error_text e; initiator_type := initiator_type e;
     request_headers := request_headers e;
     response_headers := response_headers e;
     request_body_preview := request_body_preview e;
     encoded_data_length := encoded_data_length e; end_time := end_time e;
     stack_trace := frames |}.

(** Stand-ins for the functions of Python's library, for the runs. *)
Definition no_repr (v : pyval) : string := "<repr>".
Definition no_b64decode (s : string) : result string :=
  Raises (ValueError "Incorrect padding").
Definition no_decode (s : string) : string := s.

Definition frames_abc : list CallFrame.t :=
  [ {| CallFrame.functionName := "fetchResults";
       CallFrame.url := "https://example.com/app.js";
       CallFrame.lineNumber := 41; CallFrame.columnNumber := 7 |};
    {| CallFrame.functionName := "";
       CallFrame.url := "";
       CallFrame.lineNumber := 0; CallFrame.columnNumber := 0 |};
    {| CallFrame.functionName := "main";
       CallFrame.url := "https://example.com/main.js";
       CallFrame.lineNumber := 9; CallFrame.columnNumber := 0 |} ].

(** The protocol call fails. *)
Definition body_env_fails : body_env :=
  {| body_session := fun _ => Returns tt;
     getResponseBody := fun _ => Raises (OtherException "No resource with given identifier") |}.

(** The body is there, base64-encoded. *)
Definition body_env_base64 : body_env :=
  {| body_session := fun _ => Returns tt;
     getResponseBody := fun _ =>
       Returns {| ResponseBody.body := Some "aGVsbG8";
                  ResponseBody.base64Encoded := Some true |} |}.

End formatting.

(** ** Facts about network_watchdog.py *)

Module network_facts.
Import network_watchdog lifecycle.

(** *** Tactics *)

(** Case analysis on the outcomes of the enable command and of the four
    registrations, in the order [attach_body] takes them; [tac] closes the
    cases in which one of them raises, and the case in which none does. *)
Ltac by_steps en reg tac :=
  destruct en as [[]|?e]; [|tac];
  destruct (reg requestWillBeSent) as [[]|?e]; [|tac];
  destruct (reg responseReceived) as [[]|?e]; [|tac];
  destruct (reg loadingFailed) as [[]|?e]; [|tac];
  destruct (reg loadingFinished) as [[]|?e]; [|tac];
  tac.

(** *** Lists *)

Lemma find_last_Some {A} (p : A -> bool) (l : list A) (i : nat) :
  find_last p l = Some i ->
  exists x, l !! i = Some x /\ p x = true
            /\ forall j y, (i < j)%nat -> l !! j = Some y -> p y = false.
Proof.
  revert i. induction l as [|a l IH]; intros i; simpl; [discriminate|].
  destruct (find_last p l) as [k|] eqn:Hk.
  - intros [= <-]. destruct (IH k eq_refl) as (x & Hx & Hp & Hlast).
    exists x. repeat split; auto.
    intros [|j] y Hj Hy; [lia|]. simpl in Hy. apply (Hlast j); [lia|done].
  - destruct (p a) eqn:Hpa; [|discriminate]. intros [= <-].
    exists a. repeat split; auto.
    intros [|j] y Hj Hy; [lia|]. simpl in Hy.
    clear IH Hj. revert j Hy. induction l as [|b l IHl]; intros j Hy.
    + destruct j; discriminate.
    + simpl in Hk. destruct (find_last p l) eqn:Hl; [discriminate|].
      destruct (p b) eqn:Hpb; [discriminate|].
      destruct j as [|j]; simpl in Hy; [by inversion Hy; subst|].
      by apply (IHl eq_refl j).
Qed.

Lemma find_last_None {A} (p : A -> bool) (l : list A) :
  find_last p l = None <-> forall x, x ∈ l -> p x = false.
Proof.
  induction l as [|a l IH]; simpl.
  - split; [intros _ x Hx; by apply elem_of_nil in Hx|done].
  - destruct (find_last p l) as [k|] eqn:Hk.
    + split; [discriminate|]. intros H.
      assert (Some k = None) as Habs; [|discriminate].
      apply IH. intros x Hx. apply H. by apply elem_of_cons; right.
    + destruct (p a) eqn:Hpa.
      * split; [discriminate|]. intros H.
        assert (p a = false) by (apply H; apply elem_of_cons; by left). congruence.
      * split; [|done]. intros _ x [->|Hx]%elem_of_cons; [done|].
        by apply IH.
Qed.

(** [find_last] does not look at what [f] changes. *)
Lemma find_last_alter {A} (p : A -> bool) (f : A -> A) (l : list A) (i : nat) :
  (forall x, p (f x) = p x) ->
  find_last p (alter f i l) = find_last p l.
Proof.
  intros Hf. revert i. induction l as [|a l IH]; intros i; [done|].
  destruct i as [|i].
  - simpl. by rewrite Hf.
  - change (alter f (S i) (a :: l)) with (a :: alter f i l).
    simpl. by rewrite IH.
Qed.

(** *** The store under [update_entry] *)

Lemma get_traffic_log_update_entry self t' j f t i e :
  get_traffic_log self t !! i = Some e ->
  exists e', get_traffic_log (update_entry self t' j f) t !! i = Some e'
             /\ (e' = e \/ e' = f e).
Proof.
  unfold get_traffic_log, update_entry. intros He.
  destruct (_network_logs self !! t') as [d'|] eqn:Ht'; [|eauto].
  simpl. destruct (decide (t' = t)) as [->|Hne].
  - rewrite lookup_insert_eq. rewrite Ht' in He. simpl.
    destruct (decide (j = i)) as [->|Hji].
    + rewrite list_lookup_alter_eq, He. simpl. eauto.
    + rewrite list_lookup_alter_ne by done. eauto.
  - rewrite lookup_insert_ne by done. eauto.
Qed.

(** Where [update_entry] finds the entry, the entry is rewritten by [f]. *)
Lemma get_traffic_log_update_entry_eq self t i f e :
  get_traffic_log self t !! i = Some e ->
  get_traffic_log (update_entry self t i f) t !! i = Some (f e).
Proof.
  unfold get_traffic_log, update_entry. intros He.
  destruct (_network_logs self !! t) as [d|] eqn:Ht; [|done].
  simpl. rewrite lookup_insert_eq. simpl.
  by rewrite list_lookup_alter_eq, He.
Qed.

Lemma find_entry_update_entry self t' j f t rid :
  (forall e, request_id (f e) = request_id e) ->
  _find_entry (update_entry self t' j f) t rid = _find_entry self t rid.
Proof.
  intros Hf. unfold _find_entry, update_entry.
  destruct (_network_logs self !! t') as [d'|] eqn:Ht'; [|done].
  simpl. destruct (decide (t' = t)) as [->|Hne].
  - rewrite lookup_insert_eq, Ht'. simpl.
    apply find_last_alter. intros x. by rewrite Hf.
  - by rewrite lookup_insert_ne.
Qed.

(** The entry [_find_entry] finds is in the log and has the identifier. *)
Lemma find_entry_lookup self t rid i :
  _find_entry self t rid = Some i ->
  exists e, get_traffic_log self t !! i = Some e /\ request_id e = rid.
Proof.
  unfold _find_entry, get_traffic_log.
  destruct (_network_logs self !! t) as [d|]; [|discriminate].
  intros (e & He & Hp & _)%find_last_Some. exists e. split; [done|].
  by apply String.eqb_eq.
Qed.

(** *** What each handler does to an entry *)

Lemma apply_response_request_id r e : request_id (apply_response r e) = request_id e.
Proof. unfold apply_response. by destruct (Response.headers r). Qed.

Lemma apply_failure_request_id ev e : request_id (apply_failure ev e) = request_id e.
Proof.
  unfold apply_failure. simpl.
  destruct (status e); simpl; by destruct (end_time e).
Qed.

Lemma apply_loading_finished_request_id ev e :
  request_id (apply_loading_finished ev e) = request_id e.
Proof. done. Qed.

Lemma apply_response_status r e : status (apply_response r e) = Response.status r.
Proof. unfold apply_response. by destruct (Response.headers r). Qed.

Lemma apply_response_end_time r e :
  end_time (apply_response r e) = float_or (Response.responseTime r) (end_time e).
Proof. unfold apply_response. by destruct (Response.headers r). Qed.

Lemma apply_failure_status ev e :
  status (apply_failure ev e) = Some (default 0%Z (status e)).
Proof.
  unfold apply_failure. simpl.
  destruct (status e) eqn:Hs; simpl; destruct (end_time e); simpl; by rewrite ?Hs.
Qed.

Lemma float_or_is_Some x y : is_Some y -> is_Some (float_or x y).
Proof.
  intros Hy. unfold float_or. destruct x as [f|]; [|done].
  by destruct (float_truthy f).
Qed.

Lemma handle_unfold self t u :
  handle self t u =
  match _find_entry self t (update_request_id u) with
  | None => self
  | Some i => update_entry self t i (apply_update u)
  end.
Proof. by destruct u. Qed.

Lemma apply_update_request_id u e : request_id (apply_update u e) = request_id e.
Proof.
  destruct u; simpl;
    [apply apply_response_request_id|apply apply_failure_request_id|done].
Qed.

Lemma never_retracted_refl e : never_retracted e e.
Proof. unfold never_retracted. tauto. Qed.

Lemma never_retracted_trans e1 e2 e3 :
  never_retracted e1 e2 -> never_retracted e2 e3 -> never_retracted e1 e3.
Proof. unfold never_retracted. tauto. Qed.

Lemma apply_update_never_retracted u e :
  carries_fields u = true -> never_retracted e (apply_update u e).
Proof.
  destruct u as [ev|ev|ev]; simpl.
  - destruct (ResponseReceivedEvent.response ev) as [r|]; [|discriminate].
    intros [[Hs Ht%bool_decide_eq_true]%andb_prop Hm%bool_decide_eq_true]%andb_prop.
    apply bool_decide_eq_true in Hs. simpl.
    unfold never_retracted, apply_response.
    destruct (Response.headers r); simpl;
      repeat split; auto using float_or_is_Some.
  - intros He%bool_decide_eq_true.
    unfold never_retracted, apply_failure. simpl.
    destruct (status e) eqn:Hs; simpl; destruct (end_time e) eqn:Hend; simpl;
      rewrite ?Hs, ?Hend; repeat split; auto; by intros [? [=]].
  - intros [Hl%bool_decide_eq_true Ht%bool_decide_eq_true]%andb_prop.
    unfold never_retracted, apply_loading_finished. simpl.
    repeat split; auto.
Qed.

Lemma handle_lookup self t' u t i e :
  get_traffic_log self t !! i = Some e ->
  exists e', get_traffic_log (handle self t' u) t !! i = Some e'
             /\ (e' = e \/ e' = apply_update u e).
Proof.
  intros He. rewrite handle_unfold.
  destruct (_find_entry self t' (update_request_id u)) as [j|]; [|eauto].
  by apply get_traffic_log_update_entry.
Qed.

(** *** Entries are not retracted by complete events *)

(** C1, as amended.  Whatever response-received, loading-failed and
    loading-finished events are delivered, to whatever targets and in
    whatever order, provided each carries the keys its handler assigns
    without a test ([status], [statusText], [mimeType]; [errorText];
    [encodedDataLength], [timestamp]): an entry stays at its position in
    its target's log, and every attribute of it that held a value before
    still holds one after. *)
Theorem entry_fields_never_retracted
    (self : NetworkWatchdog) (us : list (string * update_event))
    (target_id : string) (i : nat) (e : NetworkLogEntry) :
  forallb (fun tu => carries_fields (snd tu)) us = true ->
  get_traffic_log self target_id !! i = Some e ->
  exists e', get_traffic_log (handle_all self us) target_id !! i = Some e'
             /\ never_retracted e e'.
Proof.
  revert self e. induction us as [|[t' u] us IH]; intros self e Hall He; simpl.
  - exists e. split; [done|apply never_retracted_refl].
  - simpl in Hall. apply andb_prop in Hall as [Hu Hus].
    destruct (handle_lookup self t' u target_id i e He) as (e1 & He1 & Hcase).
    destruct (IH (handle self t' u) e1 Hus He1) as (e' & He' & Hnr).
    exists e'. split; [done|].
    apply never_retracted_trans with e1; [|done].
    destruct Hcase as [->| ->];
      [apply never_retracted_refl|by apply apply_update_never_retracted].
Qed.

Lemma entry_fields_never_retracted_witness :
  exists e e',
    get_traffic_log one_failed "T" !! 0%nat = Some e
    /\ get_traffic_log
         (handle_all one_failed
            [("T", Response_received (response_200 "1"));
             ("T", Loading_finished (finished_1024 "1"))]) "T" !! 0%nat = Some e'
    /\ never_retracted e e'.
Proof.
  assert (exists e, get_traffic_log one_failed "T" !! 0%nat = Some e) as [e He].
  { vm_compute. eauto. }
  destruct (entry_fields_never_retracted one_failed
              [("T", Response_received (response_200 "1"));
               ("T", Loading_finished (finished_1024 "1"))] "T" 0 e
              eq_refl He) as (e' & He' & Hnr).
  exists e, e'. auto.
Defined.

(** C1 as stated fails: a failure gave the entry the status [0]; a
    response event without a ['status'] key then sets it back to [None]. *)
Lemma response_without_status_retracts :
  exists e e',
    get_traffic_log one_failed "T" !! 0%nat = Some e
    /\ get_traffic_log (on_response one_failed "T" (response_without_status "1")) "T"
         !! 0%nat = Some e'
    /\ status e = Some 0%Z
    /\ status e' = None
    /\ ~ never_retracted e e'.
Proof.
  eexists _, _. split; [vm_compute; reflexivity|].
  split; [vm_compute; reflexivity|].
  split; [reflexivity|]. split; [reflexivity|].
  intros (Hs & _). destruct Hs as [z Hz]; [by eexists|discriminate].
Qed.

(** *** The bounded history *)

Lemma last_n_length {A} (n : nat) (l : list A) :
  length (last_n n l) = Nat.min n (length l).
Proof. unfold last_n. rewrite length_drop. lia. Qed.

Lemma last_n_all {A} (n : nat) (l : list A) :
  (length l <= n)%nat -> last_n n l = l.
Proof. intros H. unfold last_n. by replace (length l - n)%nat with 0%nat by lia. Qed.

Lemma last_n_app_last_n {A} (n : nat) (l k : list A) :
  last_n n (last_n n l ++ k) = last_n n (l ++ k).
Proof.
  destruct (decide (length l <= n)%nat) as [Hle|Hgt].
  - by rewrite (last_n_all n l).
  - unfold last_n at 1 3. rewrite !length_app, last_n_length.
    unfold last_n.
    replace (Nat.min n (length l) + length k - n)%nat with (length k) by lia.
    replace (length l + length k - n)%nat
      with ((length l - n) + length k)%nat by lia.
    rewrite <- drop_drop. f_equal.
    rewrite drop_app_le by lia. done.
Qed.

(** [append] keeps the last [maxlen] items of what the deque would hold
    without a bound. *)
Lemma deque_append_items d x :
  (length (items d) <= maxlen d)%nat ->
  items (deque_append d x) = last_n (maxlen d) (items d ++ [x]).
Proof.
  intros Hle. unfold deque_append, last_n. simpl.
  rewrite length_app. simpl.
  destruct (maxlen d <? length (items d) + 1)%nat eqn:Hlt.
  - apply Nat.ltb_lt in Hlt.
    replace (length (items d) + 1 - maxlen d)%nat with 1%nat by lia.
    by destruct (items d ++ [x]).
  - apply Nat.ltb_ge in Hlt.
    by replace (length (items d) + 1 - maxlen d)%nat with 0%nat by lia.
Qed.


Lemma deliver_request_cases self t ev d :
  _network_logs self !! t = Some d ->
  (recorded self ev = false /\ deliver_request self t ev = self)
  \/ (recorded self ev = true
      /\ exists entry,
           request_id entry = RequestWillBeSentEvent.requestId ev
           /\ deliver_request self t ev
              = set_network_logs (<[t := deque_append d entry]> (_network_logs self))
                                 self).
Proof.
  intros Hd. unfold deliver_request, on_request, recorded.
  destruct (decide (default "Unknown" (RequestWillBeSentEvent.type ev)
                    ∈ ignored_resource_types self)) as [Hin|Hnin].
  - left. split; [|done].
    rewrite bool_decide_eq_false_2; [done|]. by intros Hn.
  - rewrite bool_decide_eq_true_2 by done. simpl.
    destruct (_extract_initiator_frames (RequestWillBeSentEvent.initiator ev))
      as [frames|err]; simpl.
    + right. split; [done|]. rewrite Hd. eexists. split; [|reflexivity]. done.
    + left. done.
Qed.

Lemma deliver_requests_log (events : list RequestWillBeSentEvent.t) :
  forall self t d,
  _network_logs self !! t = Some d ->
  (length (items d) <= maxlen d)%nat ->
  exists d',
    _network_logs (deliver_requests self t events) !! t = Some d'
    /\ maxlen d' = maxlen d
    /\ map request_id (items d')
       = last_n (maxlen d)
           (map request_id (items d)
            ++ map RequestWillBeSentEvent.requestId
                 (List.filter (recorded self) events)).
Proof.
  induction events as [|ev events IH]; intros self t d Hd Hle.
  - exists d. simpl. rewrite app_nil_r.
    rewrite last_n_all by by rewrite length_map. done.
  - change (deliver_requests self t (ev :: events))
      with (deliver_requests (deliver_request self t ev) t events).
    destruct (deliver_request_cases self t ev d Hd)
      as [[Hrec ->]|[Hrec (entry & Hid & ->)]].
    + simpl. rewrite Hrec. by apply IH.
    + set (self' := set_network_logs _ self).
      assert (_network_logs self' !! t = Some (deque_append d entry)) as Hd'.
      { unfold self'. simpl. apply lookup_insert_eq. }
      assert (length (items (deque_append d entry)) <= maxlen (deque_append d entry))%nat
        as Hle'.
      { rewrite deque_append_items by done. rewrite last_n_length. simpl. lia. }
      destruct (IH self' t _ Hd' Hle') as (d' & Hlook & Hmax & Hids).
      exists d'. split; [done|]. split; [done|].
      rewrite Hids. change (maxlen (deque_append d entry)) with (maxlen d).
      assert (forall e, recorded self' e = recorded self e) as Hsame by done.
      rewrite (List.filter_ext _ _ Hsame).
      rewrite deque_append_items by done.
      cbn [List.filter]. rewrite Hrec. cbn [map].
      unfold last_n at 2. change (drop ?n ?l) with (skipn n l).
      rewrite <- skipn_map, map_app. cbn [map].
      replace (length (items d ++ [entry]))
        with (length (map request_id (items d) ++ [request_id entry]))
        by (rewrite !length_app, length_map; done).
      fold (last_n (maxlen d) (map request_id (items d) ++ [request_id entry])).
      rewrite last_n_app_last_n, Hid.
      by rewrite <- app_assoc.
Qed.

(** C2.  Request events delivered to one target, whatever they are and
    however many: the target's deque keeps its capacity, never holds more
    entries than that, and holds the last [maxlen] of the entries recorded
    so far, oldest first (the identifiers of the entries it had, followed by
    those of the events that were recorded, cut to the last [maxlen]).  The
    witness is the run of 205 requests on a deque of capacity 200. *)
Theorem history_store_bounded_fifo
    (self : NetworkWatchdog) (target_id : string)
    (events : list RequestWillBeSentEvent.t) (d : deque) :
  _network_logs self !! target_id = Some d ->
  (length (items d) <= maxlen d)%nat ->
  exists d',
    _network_logs (deliver_requests self target_id events) !! target_id = Some d'
    /\ maxlen d' = maxlen d
    /\ (length (items d') <= maxlen d)%nat
    /\ map request_id (items d')
       = last_n (maxlen d)
           (map request_id (items d)
            ++ map RequestWillBeSentEvent.requestId
                 (List.filter (recorded self) events)).
Proof.
  intros Hd Hle.
  destruct (deliver_requests_log events self target_id d Hd Hle)
    as (d' & Hlook & Hmax & Hids).
  exists d'. repeat split; try done.
  rewrite <- (length_map request_id), Hids, last_n_length. lia.
Qed.

Lemma history_store_bounded_fifo_witness :
  _network_logs attached_T !! "T" = Some {| items := []; maxlen := 200 |}
  /\ exists d',
       _network_logs (deliver_requests attached_T "T" requests_1_to_205) !! "T"
         = Some d'
       /\ maxlen d' = 200%nat
       /\ length (items d') = 200%nat
       /\ map request_id (items d') = request_ids 6 200.
Proof.
  assert (_network_logs attached_T !! "T" = Some {| items := []; maxlen := 200 |})
    as Hd by (vm_compute; reflexivity).
  split; [exact Hd|].
  assert (length (items {| items := []; maxlen := 200 |}) <= 200)%nat
    as Hle by (cbn [items length]; lia).
  destruct (history_store_bounded_fifo attached_T "T" requests_1_to_205
              {| items := []; maxlen := 200 |} Hd Hle)
    as (d' & Hlook & Hmax & _ & Hids).
  assert (map request_id (items d') = request_ids 6 200) as Hids'.
  { rewrite Hids. vm_compute. reflexivity. }
  exists d'. split; [exact Hlook|]. split; [exact Hmax|]. split; [|exact Hids'].
  rewrite <- (length_map request_id), Hids'. vm_compute. reflexivity.
Defined.

(** *** The bound, over every run *)

Lemma attach_to_target_logs env target_id s :
  let s' := snd (attach_to_target env target_id s) in
  max_logs_per_tab (watchdog s') = max_logs_per_tab (watchdog s)
  /\ (_network_logs (watchdog s') = _network_logs (watchdog s)
      \/ _network_logs (watchdog s')
         = <[target_id := {| items := [];
                             maxlen := Z.to_nat (max_logs_per_tab (watchdog s)) |}]>
             (_network_logs (watchdog s))).
Proof.
  destruct env as [sess en reg].
  unfold attach_to_target, try_except, attach_body, register_handler, bindM, lift,
    modify, get, ret, deque_new.
  cbn [network_watchdog.get_or_create_cdp_session network_watchdog.Network_enable
       network_watchdog.register].
  destruct (decide (target_id ∈ _monitored_targets (watchdog s))); [by auto|].
  destruct sess as [[]|e]; [|destruct (is_Exception e); by auto].
  destruct (_network_logs (watchdog s) !! target_id) as [d|] eqn:Hd.
  - by_steps en reg ltac:(try match goal with |- context [is_Exception ?x] =>
                                   destruct (is_Exception x) end; by auto).
  - destruct (max_logs_per_tab (watchdog s) <? 0)%Z; [by auto|].
    by_steps en reg ltac:(try match goal with |- context [is_Exception ?x] =>
                                   destruct (is_Exception x) end; by auto).
Qed.

Lemma deliver_request_capacity w t ev :
  max_logs_per_tab (deliver_request w t ev) = max_logs_per_tab w.
Proof.
  unfold deliver_request, on_request.
  destruct (decide _); [done|].
  destruct (_extract_initiator_frames _); [|done]. simpl.
  by destruct (_network_logs w !! t).
Qed.

Lemma deliver_request_bounded n w t ev :
  store_bounded n w -> store_bounded n (deliver_request w t ev).
Proof.
  intros Hb. destruct (_network_logs w !! t) as [d|] eqn:Hd.
  - destruct (deliver_request_cases w t ev d Hd) as [[_ ->]|[_ (entry & _ & ->)]];
      [done|].
    intros t' d'. simpl. destruct (decide (t = t')) as [<-|Hne].
    + rewrite lookup_insert_eq. intros [= <-].
      destruct (Hb t d Hd) as [Hmax Hlen]. split; [done|].
      rewrite deque_append_items by lia. rewrite last_n_length. lia.
    + rewrite lookup_insert_ne by done. apply Hb.
  - assert (deliver_request w t ev = w) as ->; [|done].
    unfold deliver_request, on_request.
    destruct (decide _); [done|].
    destruct (_extract_initiator_frames _); [|done]. simpl. by rewrite Hd.
Qed.

Lemma update_entry_bounded n w t i f :
  store_bounded n w -> store_bounded n (update_entry w t i f).
Proof.
  intros Hb. unfold update_entry.
  destruct (_network_logs w !! t) as [d|] eqn:Hd; [|done].
  intros t' d'. simpl. destruct (decide (t = t')) as [<-|Hne].
  - rewrite lookup_insert_eq. intros [= <-]. simpl.
    rewrite length_alter. exact (Hb t d Hd).
  - rewrite lookup_insert_ne by done. apply Hb.
Qed.

Lemma handle_bounded n w t u : store_bounded n w -> store_bounded n (handle w t u).
Proof.
  intros Hb. rewrite handle_unfold.
  destruct (_find_entry w t (update_request_id u)); [|done].
  by apply update_entry_bounded.
Qed.

Lemma handle_capacity w t u : max_logs_per_tab (handle w t u) = max_logs_per_tab w.
Proof.
  rewrite handle_unfold. destruct (_find_entry w t (update_request_id u)); [|done].
  unfold update_entry. by destruct (_network_logs w !! t).
Qed.

Lemma step_bounded (capacity : Z) s o :
  max_logs_per_tab (watchdog s) = capacity ->
  store_bounded (Z.to_nat capacity) (watchdog s) ->
  max_logs_per_tab (watchdog (step s o)) = capacity
  /\ store_bounded (Z.to_nat capacity) (watchdog (step s o)).
Proof.
  intros Hcap Hb. destruct o as [env t|t ev|t u]; simpl.
  - destruct (attach_to_target_logs env t s) as [Hc [Hlogs|Hlogs]].
    + split; [congruence|]. intros t' d'. rewrite Hlogs. apply Hb.
    + split; [congruence|]. intros t' d'. rewrite Hlogs, Hcap.
      destruct (decide (t = t')) as [<-|Hne].
      * rewrite lookup_insert_eq. intros [= <-]. simpl. split; [done|lia].
      * rewrite lookup_insert_ne by done. apply Hb.
  - split; [by rewrite deliver_request_capacity|by apply deliver_request_bounded].
  - split; [by rewrite handle_capacity|by apply handle_bounded].
Qed.

(** Over every run from a new watchdog, whatever its capacity and whatever
    the attachments answer: each target's deque has that capacity and never
    holds more entries than it. *)
Theorem history_store_bounded_in_every_run
    (capacity : Z) (ops : list operation) (target_id : string) (d : deque) :
  _network_logs (watchdog (run (fresh (watchdog_with_capacity capacity)) ops))
    !! target_id = Some d ->
  maxlen d = Z.to_nat capacity /\ (length (items d) <= Z.to_nat capacity)%nat.
Proof.
  assert (forall s,
            max_logs_per_tab (watchdog s) = capacity ->
            store_bounded (Z.to_nat capacity) (watchdog s) ->
            store_bounded (Z.to_nat capacity) (watchdog (run s ops))) as Hrun.
  { induction ops as [|o ops IH]; intros s Hcap Hb; [done|].
    destruct (step_bounded capacity s o Hcap Hb) as [Hcap' Hb'].
    by apply IH. }
  apply Hrun; [done|]. intros t d'. simpl. by rewrite lookup_empty.
Qed.

Lemma history_store_bounded_in_every_run_witness :
  exists d,
    _network_logs
      (watchdog (run (fresh (watchdog_with_capacity 2))
                   [Attach attach_ok "T";
                    Request_sent "T" (search_request "1");
                    Request_sent "T" (search_request "2");
                    Update "T" (Response_received (response_200 "1"));
                    Request_sent "T" (search_request "3")])) !! "T" = Some d
    /\ maxlen d = 2%nat
    /\ (length (items d) <= 2)%nat
    /\ map request_id (items d) = ["2"; "3"].
Proof.
  eexists. split; [vm_compute; reflexivity|].
  match goal with |- maxlen ?d = _ /\ _ =>
    destruct (history_store_bounded_in_every_run 2
                [Attach attach_ok "T";
                 Request_sent "T" (search_request "1");
                 Request_sent "T" (search_request "2");
                 Update "T" (Response_received (response_200 "1"));
                 Request_sent "T" (search_request "3")] "T" d) as [Hmax Hlen]
  end.
  - vm_compute. reflexivity.
  - split; [exact Hmax|]. split; [exact Hlen|]. reflexivity.
Defined.

(** *** A response and a failure for one request *)

Lemma on_response_found self t r i e :
  _find_entry self t (ResponseReceivedEvent.requestId r) = Some i ->
  get_traffic_log self t !! i = Some e ->
  let self' := on_response self t r in
  get_traffic_log self' t !! i
  = Some (apply_response (default Response.empty (ResponseReceivedEvent.response r)) e)
  /\ forall rid, _find_entry self' t rid = _find_entry self t rid.
Proof.
  intros Hfind He. unfold on_response. simpl. rewrite Hfind. split.
  - by apply get_traffic_log_update_entry_eq.
  - intros rid. apply find_entry_update_entry. apply apply_response_request_id.
Qed.

Lemma on_failure_found self t f i e :
  _find_entry self t (LoadingFailedEvent.requestId f) = Some i ->
  get_traffic_log self t !! i = Some e ->
  let self' := on_failure self t f in
  get_traffic_log self' t !! i = Some (apply_failure f e)
  /\ forall rid, _find_entry self' t rid = _find_entry self t rid.
Proof.
  intros Hfind He. unfold on_failure. simpl. rewrite Hfind. split.
  - by apply get_traffic_log_update_entry_eq.
  - intros rid. apply find_entry_update_entry. apply apply_failure_request_id.
Qed.

(** C3.  A response-received and a loading-failed event for the request of
    a live entry (one [_find_entry] finds, at position [i]), in the two
    orders.  Response first: the status ends as the one the response
    supplied, and as [0] when it supplied none.  Failure first: the status
    ends as what the response supplied, [None] when it supplied none.  So
    a supplied status is the final one in both orders, and the status ends
    as [0] only if the response supplied no status or supplied the status
    [0] itself. *)
Theorem response_failure_status_either_order
    (self : NetworkWatchdog) (target_id : string)
    (r : ResponseReceivedEvent.t) (f : LoadingFailedEvent.t) (i : nat) :
  ResponseReceivedEvent.requestId r = LoadingFailedEvent.requestId f ->
  _find_entry self target_id (ResponseReceivedEvent.requestId r) = Some i ->
  exists e1 e2,
    get_traffic_log (on_failure (on_response self target_id r) target_id f) target_id
      !! i = Some e1
    /\ get_traffic_log (on_response (on_failure self target_id f) target_id r) target_id
         !! i = Some e2
    /\ status e1 = Some (default 0%Z (supplied_status r))
    /\ status e2 = supplied_status r
    /\ (forall s, supplied_status r = Some s -> status e1 = Some s /\ status e2 = Some s)
    /\ (status e1 = Some 0%Z \/ status e2 = Some 0%Z ->
        supplied_status r = None \/ supplied_status r = Some 0%Z).
Proof.
  intros Hid Hfind.
  destruct (find_entry_lookup _ _ _ _ Hfind) as (e & He & _).
  set (resp := default Response.empty (ResponseReceivedEvent.response r)).
  destruct (on_response_found self target_id r i e Hfind He) as [He1 Hf1].
  destruct (on_failure_found self target_id f i e) as [He2 Hf2];
    [by rewrite <- Hid|done|].
  destruct (on_failure_found (on_response self target_id r) target_id f i
              (apply_response resp e)) as [He1' _];
    [by rewrite Hf1, <- Hid|done|].
  destruct (on_response_found (on_failure self target_id f) target_id r i
              (apply_failure f e)) as [He2' _];
    [by rewrite Hf2|done|].
  exists (apply_failure f (apply_response resp e)),
         (apply_response resp (apply_failure f e)).
  rewrite apply_failure_status, !apply_response_status.
  unfold supplied_status. fold resp.
  split; [done|]. split; [done|]. split; [done|]. split; [done|]. split.
  - by intros s ->.
  - destruct (Response.status resp) as [s|]; [|by left].
    simpl. intros [[= ->]|[= ->]]; by right.
Qed.

Lemma response_failure_status_either_order_witness :
  exists e1 e2,
    get_traffic_log (on_failure (on_response one_request "T" (response_200 "1"))
                       "T" (connection_reset "1")) "T" !! 0%nat = Some e1
    /\ get_traffic_log (on_response (on_failure one_request "T" (connection_reset "1"))
                          "T" (response_200 "1")) "T" !! 0%nat = Some e2
    /\ status e1 = Some 200%Z
    /\ status e2 = Some 200%Z.
Proof.
  destruct (response_failure_status_either_order one_request "T"
              (response_200 "1") (connection_reset "1") 0 eq_refl)
    as (e1 & e2 & H1 & H2 & Hs1 & Hs2 & _).
  { vm_compute. reflexivity. }
  exists e1, e2. auto.
Defined.

(** C3 as stated fails: the response supplies the status [0]; in both
    orders the status ends as [0], although a status was supplied. *)
Lemma supplied_status_0_ends_as_0 :
  exists e1 e2,
    get_traffic_log (on_failure (on_response one_request "T" (response_status_0 "1"))
                       "T" (connection_reset "1")) "T" !! 0%nat = Some e1
    /\ get_traffic_log (on_response (on_failure one_request "T" (connection_reset "1"))
                          "T" (response_status_0 "1")) "T" !! 0%nat = Some e2
    /\ supplied_status (response_status_0 "1") = Some 0%Z
    /\ supplied_status (response_status_0 "1") <> None
    /\ status e1 = Some 0%Z
    /\ status e2 = Some 0%Z.
Proof.
  eexists _, _. split; [vm_compute; reflexivity|].
  split; [vm_compute; reflexivity|].
  split; [reflexivity|]. split; [discriminate|]. split; reflexivity.
Qed.

(** *** Initiator stack flattening *)

(** One round of the [while] loop. *)
Lemma walk_stack_unfold (stack : pyval) :
  walk_stack stack =
  if truthy stack then
    match stack with
    | PDict d =>
        call_frames <- iter_items (py_or (dict_get d "callFrames") (PList []));;
        rest <- walk_stack (dict_get d "parent");;
        Returns (call_frames ++ rest)
    | _ => Raises (AttributeError "object has no attribute 'get'")
    end
  else Returns [].
Proof.
  destruct stack as [| | | | |l|d]; try reflexivity.
  cbn [walk_stack]. destruct (truthy (PDict d)); [|done].
  destruct (iter_items _) as [frames|err]; [|done]. cbn [bind].
  f_equal. clear frames. induction d as [|[k v] d IH]; [done|].
  cbn [dict_get]. by destruct (String.eqb k "parent").
Qed.

Lemma walk_stack_chain (chain : list (list pyval)) :
  walk_stack (stack_of_chain chain) = Returns (concat chain).
Proof.
  induction chain as [|frames outer IH]; [done|].
  rewrite walk_stack_unfold. cbn [stack_of_chain truthy].
  change (dict_get _ "parent") with (stack_of_chain outer).
  rewrite IH.
  change (dict_get _ "callFrames") with (PList frames).
  unfold py_or. by destruct frames.
Qed.

(** The frames of a parent-linked chain come out innermost stack first,
    each stack's frames in their order. *)
Lemma extract_initiator_frames_chain (chain : list (list pyval)) :
  _extract_initiator_frames (initiator_of_chain chain) = Returns (concat chain).
Proof.
  unfold _extract_initiator_frames, initiator_of_chain.
  change (dict_get _ "stack") with (stack_of_chain chain).
  unfold py_or. destruct (truthy (stack_of_chain chain)) eqn:Ht.
  - apply walk_stack_chain.
  - destruct chain; [done|discriminate].
Qed.

Example extract_initiator_frames_three_levels :
  _extract_initiator_frames
    (initiator_of_chain [[frame "a1"; frame "a2"]; [frame "b1"];
                         [frame "c1"; frame "c2"]])
  = Returns [frame "a1"; frame "a2"; frame "b1"; frame "c1"; frame "c2"].
Proof. reflexivity. Qed.

(** An initiator that is not a dict has no frames. *)
Lemma extract_initiator_frames_non_dict (initiator : pyval) :
  is_dict initiator = false -> _extract_initiator_frames initiator = Returns [].
Proof. by destruct initiator. Qed.

Lemma extract_initiator_frames_non_dict_witness :
  _extract_initiator_frames (PStr "script") = Returns []
  /\ _extract_initiator_frames PNone = Returns [].
Proof.
  split; apply extract_initiator_frames_non_dict; reflexivity.
Defined.

(** C4: where the code leaves the claim.  A [stack] (or a [parent]) that
    is true and not a dict, here a string, reaches [stack.get] before the
    [isinstance] test of the loop: [AttributeError] leaves
    [_extract_initiator_frames], and [on_request], so that the request is
    not recorded. *)
Theorem extract_initiator_frames_raises :
  _extract_initiator_frames initiator_string_stack
  = Raises (AttributeError "object has no attribute 'get'")
  /\ _extract_initiator_frames initiator_string_parent
     = Raises (AttributeError "object has no attribute 'get'")
  /\ on_request attached_T "T" (request_with_initiator "1" initiator_string_stack)
     = Raises (AttributeError "object has no attribute 'get'").
Proof. repeat split; vm_compute; reflexivity. Qed.

(** *** Attachment *)

(** [attach_body] stops at the first step that raises, with the set of
    monitored targets as it was; when no step raises it returns with the
    target added. *)
Lemma attach_body_outcome env target_id s :
  exists s1,
    attach_body env target_id s
    = (match first_error (attach_steps env s target_id) with
       | Some e => Raises e
       | None => Returns tt
       end, s1)
    /\ max_logs_per_tab (watchdog s1) = max_logs_per_tab (watchdog s)
    /\ monitored s1
       = match first_error (attach_steps env s target_id) with
         | Some _ => monitored s
         | None => {[ target_id ]} ∪ monitored s
         end.
Proof.
  destruct env as [sess en reg].
  unfold attach_body, attach_steps, register_handler, bindM, lift, modify, get,
    ret, monitored, deque_new.
  cbn [network_watchdog.get_or_create_cdp_session network_watchdog.Network_enable
       network_watchdog.register first_error].
  destruct sess as [[]|e]; [|eauto].
  destruct (_network_logs (watchdog s) !! target_id) as [d|] eqn:Hd.
  - by_steps en reg eauto.
  - destruct (max_logs_per_tab (watchdog s) <? 0)%Z; [eauto|]. cbn [bind].
    by_steps en reg eauto.
Qed.

Lemma attach_to_target_monitored env target_id s :
  target_id ∈ monitored s -> attach_to_target env target_id s = (Returns tt, s).
Proof.
  intros Hin. unfold attach_to_target, bindM, get, ret.
  by rewrite decide_True.
Qed.

Lemma attach_to_target_not_monitored env target_id s :
  target_id ∉ monitored s ->
  attach_to_target env target_id s
  = try_except (attach_body env target_id) is_Exception
      (fun e => modify (add_log (Warning_failed_to_attach target_id e))) s.
Proof.
  intros Hin. unfold attach_to_target, bindM, get.
  by rewrite decide_False.
Qed.

(** With a capacity that is not negative, an attachment in which the
    environment answers every call ends with the target monitored. *)
Lemma attach_ok_monitors target_id s :
  (0 <= max_logs_per_tab (watchdog s))%Z ->
  fst (attach_to_target attach_ok target_id s) = Returns tt
  /\ target_id ∈ monitored (snd (attach_to_target attach_ok target_id s)).
Proof.
  intros Hcap. destruct (decide (target_id ∈ monitored s)) as [Hin|Hnin].
  - by rewrite attach_to_target_monitored.
  - rewrite attach_to_target_not_monitored by done. unfold try_except.
    destruct (attach_body_outcome attach_ok target_id s) as (s1 & Hbody & _ & Hmon).
    rewrite Hbody.
    assert (first_error (attach_steps attach_ok s target_id) = None) as Hnone.
    { unfold attach_steps, deque_new. simpl.
      destruct (_network_logs (watchdog s) !! target_id); [done|].
      destruct (max_logs_per_tab (watchdog s) <? 0)%Z eqn:Hlt; [|done].
      apply Z.ltb_lt in Hlt. lia. }
    rewrite Hnone in Hmon. rewrite Hnone. simpl. split; [done|].
    rewrite Hmon. apply elem_of_union. left. by apply elem_of_singleton.
Qed.

(** C5.  [attach_to_target] on a monitored target returns at once and
    changes nothing: no command is sent, no handler registered.  On a
    target that is not monitored, when a step of the sequence (the session,
    the deque, the enable command, a registration) raises an [Exception],
    the call returns without raising and the set of monitored targets is
    as before, the target not in it; the next call therefore runs the
    sequence again, and ends with the target monitored when every step
    then succeeds (the capacity not being negative). *)
Theorem attach_idempotent_and_absorbing
    (env : attach_env) (target_id : string) (s : attach_state) :
  (target_id ∈ monitored s ->
   attach_to_target env target_id s = (Returns tt, s))
  /\ (forall e,
        target_id ∉ monitored s ->
        first_error (attach_steps env s target_id) = Some e ->
        is_Exception e = true ->
        let s' := snd (attach_to_target env target_id s) in
        fst (attach_to_target env target_id s) = Returns tt
        /\ monitored s' = monitored s
        /\ (target_id ∉ monitored s')
        /\ (forall env2,
              attach_to_target env2 target_id s'
              = try_except (attach_body env2 target_id) is_Exception
                  (fun e => modify (add_log (Warning_failed_to_attach target_id e))) s')
        /\ ((0 <= max_logs_per_tab (watchdog s))%Z ->
            target_id ∈ monitored (snd (attach_to_target attach_ok target_id s')))).
Proof.
  split; [apply attach_to_target_monitored|].
  intros e Hnin Herr Hexc.
  rewrite attach_to_target_not_monitored by done.
  destruct (attach_body_outcome env target_id s) as (s1 & Hbody & Hcap & Hmon).
  rewrite Herr in Hbody, Hmon.
  unfold try_except. rewrite Hbody, Hexc. unfold modify. cbn [fst snd].
  assert (monitored (add_log (Warning_failed_to_attach target_id e) s1) = monitored s)
    as Hmon' by done.
  split; [done|]. split; [done|]. split; [by rewrite Hmon'|]. split.
  - intros env2. apply attach_to_target_not_monitored. by rewrite Hmon'.
  - intros Hpos. apply attach_ok_monitors. simpl. by rewrite Hcap.
Qed.

(** The session provider fails: nothing is sent or registered, the
    warning is logged, the target is not monitored. *)
Example attach_without_session :
  attach_to_target attach_no_session "T" (fresh new_watchdog)
  = (Returns tt,
     {| watchdog := new_watchdog; enabled := []; registered := [];
        logger := [Warning_failed_to_attach "T" (OtherException "no session")] |}).
Proof. reflexivity. Qed.

Lemma attach_idempotent_and_absorbing_witness :
  let s := fresh new_watchdog in
  let s' := snd (attach_to_target attach_registration_fails "T" s) in
  fst (attach_to_target attach_registration_fails "T" s) = Returns tt
  /\ monitored s' = monitored s
  /\ "T" ∈ monitored (snd (attach_to_target attach_ok "T" s')).
Proof.
  destruct (attach_idempotent_and_absorbing attach_registration_fails "T"
              (fresh new_watchdog)) as [_ H].
  destruct (H (RuntimeError "connection closed")) as (Hr & Hm & _ & _ & Hretry).
  - vm_compute. set_solver.
  - reflexivity.
  - reflexivity.
  - cbv zeta. split; [exact Hr|]. split; [exact Hm|]. apply Hretry. by vm_compute.
Defined.

(** *** Strings *)

Lemma prefix_true (p s : string) :
  String.prefix p s = true <-> exists post, s = p +:+ post.
Proof.
  revert s. induction p as [|c p IH]; intros s.
  - split; [by exists s|]. by destruct s.
  - destruct s as [|c' s]; simpl.
    + split; [discriminate|]. by intros [post [=]].
    + destruct (ascii_dec c c') as [->|Hne].
      * rewrite IH. split; intros [post Hpost]; exists post.
        -- simpl. by rewrite Hpost.
        -- simpl in Hpost. by injection Hpost.
      * split; [discriminate|]. intros [post Hpost]. simpl in Hpost.
        injection Hpost as Hc _. congruence.
Qed.

Lemma str_contains_true (p s : string) :
  str_contains p s = true <-> exists pre post, s = pre +:+ p +:+ post.
Proof.
  induction s as [|c s IH]; cbn [str_contains].
  - rewrite orb_false_r, prefix_true. split.
    + intros [post ->]. by exists "", post.
    + intros (pre & post & H). destruct pre; [by exists post|discriminate].
  - rewrite orb_true_iff, prefix_true, IH. split.
    + intros [[post ->]|(pre & post & ->)].
      * by exists "", post.
      * by exists (String c pre), post.
    + intros (pre & post & H). destruct pre as [|c' pre].
      * left. by exists post.
      * right. injection H as -> ->. by exists pre, post.
Qed.

Lemma ascii_lower_app (a b : string) :
  ascii_lower (a +:+ b) = ascii_lower a +:+ ascii_lower b.
Proof. induction a as [|c a IH]; simpl; [done|by rewrite IH]. Qed.

(** [ascii_lower] works character by character: a split of
    [ascii_lower s] is the lowering of a split of [s]. *)
Lemma ascii_lower_split (s a b : string) :
  ascii_lower s = a +:+ b ->
  exists a' b', s = a' +:+ b' /\ ascii_lower a' = a /\ ascii_lower b' = b.
Proof.
  revert s. induction a as [|c a IH]; intros s H.
  - by exists "", s.
  - destruct s as [|c' s]; [discriminate|]. simpl in H.
    injection H as Hc Hs. destruct (IH s Hs) as (a' & b' & -> & <- & <-).
    exists (String c' a'), b'. by rewrite <- Hc.
Qed.

Lemma is_capital_true (c : ascii) :
  is_capital c = true <-> (65 <= nat_of_ascii c <= 90)%nat.
Proof. unfold is_capital. rewrite andb_true_iff, !Nat.leb_le. lia. Qed.

Lemma is_capital_false (c : ascii) :
  is_capital c = false <-> (nat_of_ascii c < 65 \/ 90 < nat_of_ascii c)%nat.
Proof. unfold is_capital. rewrite andb_false_iff, !Nat.leb_gt. lia. Qed.

Lemma nat_of_lower_ascii (c : ascii) :
  nat_of_ascii (lower_ascii c)
  = if is_capital c then (nat_of_ascii c + 32)%nat else nat_of_ascii c.
Proof.
  unfold lower_ascii. fold (is_capital c).
  destruct (is_capital c) eqn:Hcap; [|done].
  apply is_capital_true in Hcap. apply nat_ascii_embedding. lia.
Qed.

Lemma nat_of_ascii_inj (c1 c2 : ascii) :
  nat_of_ascii c1 = nat_of_ascii c2 -> c1 = c2.
Proof.
  intros H. rewrite <- (ascii_nat_embedding c1), <- (ascii_nat_embedding c2).
  by rewrite H.
Qed.

(** Two characters have the same lowering exactly when they are equal or
    a capital letter and its small letter. *)
Lemma lower_ascii_same_letter (c1 c2 : ascii) :
  lower_ascii c1 = lower_ascii c2 <-> same_letter c1 c2 = true.
Proof.
  unfold same_letter, small_of.
  rewrite !orb_true_iff, !andb_true_iff, Ascii.eqb_eq, !Nat.eqb_eq.
  split.
  - intros H%(f_equal nat_of_ascii). rewrite !nat_of_lower_ascii in H.
    destruct (is_capital c1) eqn:H1; destruct (is_capital c2) eqn:H2.
    + left; left. apply nat_of_ascii_inj. lia.
    + left; right. split; [done|lia].
    + right. split; [done|lia].
    + left; left. by apply nat_of_ascii_inj.
  - intros H. apply nat_of_ascii_inj. rewrite !nat_of_lower_ascii.
    destruct H as [[->|[Hcap H]]|[Hcap H]]; [done| |].
    + rewrite Hcap. apply is_capital_true in Hcap.
      destruct (is_capital c2) eqn:H2; [|lia].
      apply is_capital_true in H2. lia.
    + rewrite Hcap. apply is_capital_true in Hcap.
      destruct (is_capital c1) eqn:H1; [|lia].
      apply is_capital_true in H1. lia.
Qed.

Lemma ascii_lower_equal_ignoring_case (s1 s2 : string) :
  ascii_lower s1 = ascii_lower s2 <-> equal_ignoring_case s1 s2 = true.
Proof.
  revert s2. induction s1 as [|c1 s1 IH]; intros [|c2 s2]; simpl; try done.
  rewrite andb_true_iff, <- IH, <- lower_ascii_same_letter. split.
  - by intros [= -> ->].
  - by intros [-> ->].
Qed.

(** The test of [find_entry] on ASCII strings. *)
Lemma occurs_ascii_lower (pattern s : string) :
  occurs (ascii_lower pattern) (ascii_lower s) <-> occurs_ignoring_case pattern s.
Proof.
  unfold occurs, occurs_ignoring_case. split.
  - intros (pre & post & H).
    apply ascii_lower_split in H as (pre' & rest & -> & _ & Hrest).
    apply ascii_lower_split in Hrest as (mid & post' & -> & Hmid & _).
    exists pre', mid, post'. split; [done|].
    by apply ascii_lower_equal_ignoring_case.
  - intros (pre & mid & post & -> & Hmid%ascii_lower_equal_ignoring_case).
    exists (ascii_lower pre), (ascii_lower post).
    by rewrite !ascii_lower_app, Hmid.
Qed.

(** *** find_entry *)

(** The first hit of a scan of [reversed(l)]: the last item of [l] that
    satisfies [p]. *)
Lemma find_rev_Some {A} (p : A -> bool) (l : list A) (x : A) :
  List.find p (rev l) = Some x ->
  exists before after,
    l = before ++ x :: after /\ p x = true /\ forall y, y ∈ after -> p y = false.
Proof.
  induction l as [|a l IH] using rev_ind; [discriminate|].
  rewrite rev_unit. simpl. destruct (p a) eqn:Hpa.
  - intros [= <-]. exists l, []. repeat split; [done|].
    intros y Hy. by apply elem_of_nil in Hy.
  - intros (before & after & -> & Hpx & Hafter)%IH.
    exists before, (after ++ [a]). rewrite <- app_assoc. repeat split; [done|].
    intros y [Hy|Hy%list_elem_of_singleton]%elem_of_app; [by apply Hafter|by subst].
Qed.

Lemma find_all_false {A} (p : A -> bool) (l : list A) :
  (forall y, y ∈ l -> p y = false) -> List.find p l = None.
Proof.
  induction l as [|a l IH]; [done|]. intros H. simpl.
  rewrite (H a) by (apply elem_of_cons; by left).
  apply IH. intros y Hy. apply H, elem_of_cons. auto.
Qed.

(** The last item of [l] that satisfies [p] is the first hit of a scan of
    [reversed(l)]. *)
Lemma find_rev_last {A} (p : A -> bool) (before after : list A) (x : A) :
  p x = true -> (forall y, y ∈ after -> p y = false) ->
  List.find p (rev (before ++ x :: after)) = Some x.
Proof.
  intros Hx Hafter. induction after as [|a after IH] using rev_ind.
  - rewrite rev_unit. simpl. by rewrite Hx.
  - rewrite app_comm_cons, app_assoc, rev_unit. simpl.
    rewrite (Hafter a) by (apply elem_of_app; right; by apply list_elem_of_singleton).
    apply IH. intros y Hy. apply Hafter, elem_of_app. by left.
Qed.

Lemma not_true_false (b : bool) : ~ b = true -> b = false.
Proof. by destruct b. Qed.

(** C8.  [find_entry], for [str.lower] as any function [lower] that does
    to a string of ASCII characters what [ascii_lower] does.  An entry
    matches when the lowered pattern occurs in its lowered URL.  The
    target's log, [_network_logs[target_id]], is in arrival order.
    - If an entry of the log matches and no entry after it does,
      [find_entry] returns this entry: the most recently inserted match,
      whatever matches before it.
    - If no entry of the log matches, or the target has no log,
      [find_entry] returns [None].
    - What [find_entry] returns is an entry of the log that matches and
      that no match follows.
    - When the pattern and the URL are ASCII, an entry matches exactly
      when a substring of its URL is the pattern up to the case of the
      letters [A] to [Z]. *)
Theorem find_entry_most_recent_match
    (lower : string -> string) (self : NetworkWatchdog)
    (target_id url_pattern : string) :
  (forall s, isascii s = true -> lower s = ascii_lower s) ->
  let matches (entry : NetworkLogEntry) : Prop :=
    occurs (lower url_pattern) (lower (url entry)) in
  (forall d before entry after,
     _network_logs self !! target_id = Some d ->
     items d = before ++ entry :: after ->
     matches entry ->
     (forall later, later ∈ after -> ~ matches later) ->
     find_entry lower self target_id url_pattern = Some entry)
  /\ (forall d,
        _network_logs self !! target_id = Some d ->
        (forall entry, entry ∈ items d -> ~ matches entry) ->
        find_entry lower self target_id url_pattern = None)
  /\ (_network_logs self !! target_id = None ->
      find_entry lower self target_id url_pattern = None)
  /\ (forall entry,
        find_entry lower self target_id url_pattern = Some entry ->
        exists d before after,
          _network_logs self !! target_id = Some d
          /\ items d = before ++ entry :: after
          /\ matches entry
          /\ forall later, later ∈ after -> ~ matches later)
  /\ (forall entry,
        isascii url_pattern = true -> isascii (url entry) = true ->
        (matches entry <-> occurs_ignoring_case url_pattern (url entry))).
Proof.
  intros Hlower matches.
  split; [|split; [|split; [|split]]].
  - intros d before entry after Hd Hitems Hentry Hafter.
    unfold find_entry, get_traffic_log. rewrite Hd, Hitems.
    apply find_rev_last.
    + by apply str_contains_true.
    + intros later Hin. apply not_true_false.
      intros Hc%str_contains_true. by apply (Hafter later Hin).
  - intros d Hd Hnone. unfold find_entry, get_traffic_log. rewrite Hd.
    apply find_all_false. intros entry Hin%list_elem_of_In%in_rev%list_elem_of_In.
    apply not_true_false. intros Hc%str_contains_true. by apply (Hnone entry Hin).
  - intros Hnone. unfold find_entry, get_traffic_log. by rewrite Hnone.
  - intros entry. unfold find_entry, get_traffic_log.
    destruct (_network_logs self !! target_id) as [d|] eqn:Hd; [|discriminate].
    intros (before & after & Hitems & Hmatch & Hafter)%find_rev_Some.
    exists d, before, after. split; [done|]. split; [done|].
    split; [by apply str_contains_true|].
    intros later Hin Hc%str_contains_true.
    specialize (Hafter later Hin). simpl in Hafter. congruence.
  - intros entry Hp Hu. unfold matches.
    rewrite (Hlower _ Hp), (Hlower _ Hu). apply occurs_ascii_lower.
Qed.

(** The log holds two search requests and then a login request; of the
    two entries that match ["SEARCH"] the later one is returned. *)
Lemma find_entry_most_recent_match_witness :
  request_id <$> find_entry ascii_lower search_search_login "T" "SEARCH" = Some "2".
Proof.
  assert (exists d e1 e2 e3,
            _network_logs search_search_login !! "T" = Some d
            /\ items d = [e1] ++ e2 :: [e3]
            /\ request_id e2 = "2"
            /\ url e2 = "https://api.example.com/v1/search"
            /\ url e3 = "https://example.com/Login")
    as (d & e1 & e2 & e3 & Hd & Hitems & Hid & Hurl2 & Hurl3).
  { vm_compute. eexists _, _, _, _. repeat split; reflexivity. }
  destruct (find_entry_most_recent_match ascii_lower search_search_login
              "T" "SEARCH" (fun s _ => eq_refl)) as (Hlast & _).
  rewrite (Hlast d [e1] e2 [e3] Hd Hitems).
  - simpl. by rewrite Hid.
  - rewrite Hurl2. by exists "https://api.example.com/v1/", "".
  - intros later ->%list_elem_of_singleton Hc%str_contains_true.
    rewrite Hurl3 in Hc. vm_compute in Hc. discriminate.
Defined.

(** Two entries match ["SEARCH"]; the later one is returned. *)
Example find_entry_returns_last_match :
  let self :=
    deliver_requests attached_T "T"
      [search_request "1"; search_request "2"] in
  request_id <$> find_entry ascii_lower self "T" "SEARCH" = Some "2"
  /\ find_entry ascii_lower self "T" "login" = None
  /\ find_entry ascii_lower self "other" "search" = None.
Proof. vm_compute. done. Qed.

(** *** The summary line *)

Lemma status_str_nonzero e z :
  status e = Some z -> z <> 0%Z -> status_str e = str_of_int z.
Proof.
  intros Hs Hz. unfold status_str. rewrite Hs. simpl.
  by destruct (Z.eqb_spec z 0).
Qed.

Lemma status_falsy e :
  status e = None \/ status e = Some 0%Z -> status_truthy (status e) = false.
Proof. by intros [-> | ->]. Qed.

Lemma status_str_failed e r :
  status e = None \/ status e = Some 0%Z ->
  error_text e = Some r -> r <> "" ->
  status_str e = "FAILED(" +:+ r +:+ ")".
Proof.
  intros Hs He Hr. unfold status_str. rewrite (status_falsy e Hs), He. simpl.
  by destruct (String.eqb_spec r "").
Qed.

Lemma status_str_pending e :
  status e = None \/ status e = Some 0%Z ->
  error_text e = None \/ error_text e = Some "" ->
  status_str e = "PENDING".
Proof.
  intros Hs He. unfold status_str. rewrite (status_falsy e Hs).
  by destruct He as [-> | ->].
Qed.

(** C9, as amended.  The summary is
    [[METHOD] <status|FAILED(reason)|PENDING> URL (type)], followed by
    [ <N>ms] when the entry has an end time and by nothing otherwise.  The
    middle part is the status when it is a non-zero number; with no status
    or the status [0] it is [FAILED(<error_text>)] when [error_text] is a
    non-empty string and [PENDING] when [error_text] is [None] or empty.
    An entry completed with status 200 by [GET], of type [XHR], renders as
    [[GET] 200 <url> (XHR) <N>ms]. *)
Theorem to_string_format (e : NetworkLogEntry) :
  to_string e
  = "[" +:+ method e +:+ "] " +:+ status_str e +:+ " " +:+ url e
    +:+ " (" +:+ resource_type e +:+ ")" +:+ duration_str e
  /\ (forall z, status e = Some z -> z <> 0%Z -> status_str e = str_of_int z)
  /\ (forall r, status e = None \/ status e = Some 0%Z ->
                error_text e = Some r -> r <> "" ->
                status_str e = "FAILED(" +:+ r +:+ ")")
  /\ (status e = None \/ status e = Some 0%Z ->
      error_text e = None \/ error_text e = Some "" ->
      status_str e = "PENDING")
  /\ (forall t, end_time e = Some t ->
        duration_str e
        = " " +:+ format_0f (py_max 0%float ((t - start_time e) * 1000)%float)
          +:+ "ms")
  /\ (end_time e = None -> duration_str e = "")
  /\ (forall t, status e = Some 200%Z -> method e = "GET" ->
        resource_type e = "XHR" -> end_time e = Some t ->
        to_string e
        = "[GET] 200 " +:+ url e +:+ " (XHR) "
          +:+ format_0f (py_max 0%float ((t - start_time e) * 1000)%float)
          +:+ "ms").
Proof.
  split; [done|]. split; [apply status_str_nonzero|].
  split; [apply status_str_failed|]. split; [apply status_str_pending|].
  assert (forall t, end_time e = Some t ->
            duration_str e
            = " " +:+ format_0f (py_max 0%float ((t - start_time e) * 1000)%float)
              +:+ "ms") as Hdur.
  { intros t Ht. unfold duration_str, duration_ms. by rewrite Ht. }
  split; [exact Hdur|]. split.
  - intros Ht. unfold duration_str, duration_ms. by rewrite Ht.
  - intros t Hs Hm Hr Ht. unfold to_string.
    rewrite (status_str_nonzero e 200 Hs) by done.
    rewrite (Hdur t Ht), Hm, Hr. reflexivity.
Qed.

(** The end-to-end run of the specification: request, response with 200,
    loading finished with 1024 bytes; and the run that fails before any
    response. *)
Example summary_of_completed_request :
  to_string <$> get_traffic_log one_completed "T"
  = ["[GET] 200 https://api.example.com/v1/search (XHR) 500ms"]
  /\ status <$> get_traffic_log one_completed "T" = [Some 200%Z]
  /\ encoded_data_length <$> get_traffic_log one_completed "T" = [Some 1024%float].
Proof. vm_compute. done. Qed.

Example summary_of_failed_request :
  to_string <$> get_traffic_log one_failed "T"
  = ["[GET] FAILED(net::ERR_CONNECTION_RESET) https://api.example.com/v1/search (XHR) 250ms"]
  /\ status <$> get_traffic_log one_failed "T" = [Some 0%Z].
Proof. vm_compute. done. Qed.

(** C9 as stated fails: a request that failed before any response, with
    an [errorText] that is the empty string, has the status [0] and an
    error text that is set, and its summary reads [PENDING]. *)
Lemma failed_request_renders_pending :
  let self := on_failure one_request "T" (failed_without_text "1") in
  exists e,
    get_traffic_log self "T" = [e]
    /\ status e = Some 0%Z
    /\ error_text e = Some ""
    /\ to_string e = "[GET] PENDING https://api.example.com/v1/search (XHR) 250ms"
    /\ status_str e <> "FAILED(" +:+ default "" (error_text e) +:+ ")".
Proof.
  cbv zeta. eexists. split; [vm_compute; reflexivity|].
  split; [reflexivity|]. split; [reflexivity|]. split; [vm_compute; reflexivity|].
  vm_compute. discriminate.
Qed.

(** C10, as amended.  An entry whose status is [0] never shows ["0"]: its
    summary has, in the place of the status, [FAILED(<error_text>)] when
    [error_text] is a non-empty string and [PENDING] when [error_text] is
    [None] or the empty string. *)
Theorem status_zero_never_rendered (e : NetworkLogEntry) :
  status e = Some 0%Z ->
  status_str e <> "0"
  /\ to_string e
     = "[" +:+ method e +:+ "] " +:+ status_str e +:+ " " +:+ url e
       +:+ " (" +:+ resource_type e +:+ ")" +:+ duration_str e
  /\ (forall r, error_text e = Some r -> r <> "" ->
        status_str e = "FAILED(" +:+ r +:+ ")")
  /\ (error_text e = None \/ error_text e = Some "" -> status_str e = "PENDING").
Proof.
  intros Hs. split; [|split; [done|split]].
  - unfold status_str. rewrite Hs. simpl.
    destruct (str_truthy (error_text e)); discriminate.
  - intros r. apply status_str_failed. by right.
  - apply status_str_pending. by right.
Qed.

Lemma status_zero_never_rendered_witness :
  exists e,
    get_traffic_log one_failed "T" = [e]
    /\ status_str e = "FAILED(net::ERR_CONNECTION_RESET)"
    /\ status_str e <> "0".
Proof.
  eexists. split; [vm_compute; reflexivity|].
  match goal with |- status_str ?e = _ /\ _ =>
    destruct (status_zero_never_rendered e eq_refl) as (Hne & _ & Hfailed & _)
  end.
  split; [|exact Hne].
  apply (Hfailed "net::ERR_CONNECTION_RESET"); [reflexivity|discriminate].
Defined.

(** C10 as stated fails: the status is [0] and [error_text] is set, to the
    empty string; the summary shows [PENDING], not [FAILED()]. *)
Lemma status_zero_empty_error_renders_pending :
  status entry_status_0_empty_error = Some 0%Z
  /\ is_Some (error_text entry_status_0_empty_error)
  /\ status_str entry_status_0_empty_error = "PENDING"
  /\ to_string entry_status_0_empty_error
     = "[POST] PENDING https://example.com/data (Fetch)".
Proof. split; [done|]. split; [by eexists|]. split; reflexivity. Qed.

End network_facts.

(** ** Facts about screenshot_watchdog.py *)

Module screenshot_facts.
Import screenshot_watchdog capture.

Lemma after_calls_refl s : after_calls s s [].
Proof. unfold after_calls. by rewrite app_nil_r. Qed.

Lemma select_target_state e s : snd (select_target e s) = s.
Proof.
  unfold select_target.
  destruct (get_focused_target e) as [t|]; [destruct (is_page_or_tab t)|];
    try done; by destruct (last (get_page_targets e)).
Qed.

Lemma capture_target_calls e event target s :
  exists more,
    after_calls s (snd (capture_target e event target s)) more
    /\ capture_calls e event more.
Proof.
  unfold capture_target, record, bindM, modify, lift, ret, raise.
  destruct (get_or_create_cdp_session e target) as [[]|x] eqn:Hsess.
  - exists [Get_or_create_cdp_session target true;
            CaptureScreenshot target (capture_timeout event)].
    split.
    + destruct (captureScreenshot e (capture_timeout event)) as [result|x];
        [destruct result as [|kv result]; [|destruct (lookup_str _ _)]|];
        unfold after_calls; cbn; by rewrite <- app_assoc.
    + right. right. by exists target.
  - exists [Get_or_create_cdp_session target true]. split; [done|].
    right. left. exists target. eauto.
Qed.

(** After the lock is taken, and until the [finally] block, the handler
    touches neither the lock nor [lock_acquired]. *)
Lemma body_after_acquire_calls e event s :
  exists more,
    after_calls s
      (snd ((target <~ select_target e ;; capture_target e event target) s)) more
    /\ capture_calls e event more.
Proof.
  unfold bindM. pose proof (select_target_state e s) as Hsel.
  destruct (select_target e s) as [[target|x] s1]; simpl in Hsel; subst s1.
  - apply capture_target_calls.
  - exists []. split; [apply after_calls_refl|by left].
Qed.


Lemma try_except_reraise {A} (m : M state A) s :
  try_except m (fun _ => true) (fun x => raise x) s = m s.
Proof. unfold try_except, raise. by destruct (m s) as [[a|x] s']. Qed.

Lemma acquire_lock_outcome e s :
  acquire_lock e s
  = if cancelled_at_acquire e then (Raises CancelledError, called (Acquire 2) s)
    else if negb (_screenshot_lock s) || released_within e 2%float
         then (Returns tt,
               set_lock_acquired true (set_lock true (called (Acquire 2) s)))
         else (Raises contention_error, called (Acquire 2) s).
Proof.
  unfold acquire_lock, try_except, wait_for_acquire, record, bindM, modify, get,
    raise, called.
  destruct (cancelled_at_acquire e); [done|]. cbn.
  destruct (_screenshot_lock s); [|done]. cbn.
  by destruct (released_within e 2%float).
Qed.

Lemma cleanup_not_acquired e s :
  lock_acquired s = false ->
  cleanup e s
  = (match remove_highlights e with
     | Raises x => if is_Exception x then Returns tt else Raises x
     | Returns _ => Returns tt
     end, called Remove_highlights s).
Proof.
  intros Hacq.
  unfold cleanup, try_except, record, bindM, modify, get, lift, ret, called.
  rewrite Hacq. cbn. rewrite ?Hacq.
  destruct (remove_highlights e) as [[]|x]; [done|]. by destruct (is_Exception x).
Qed.

Lemma cleanup_acquired e s :
  lock_acquired s = true -> _screenshot_lock s = true ->
  cleanup e s
  = (match remove_highlights e with
     | Raises x => if is_Exception x then Returns tt else Raises x
     | Returns _ => Returns tt
     end, called Remove_highlights (set_lock false (called Release s))).
Proof.
  intros Hacq Hlock.
  unfold cleanup, release, try_except, record, bindM, modify, get, lift, ret, called.
  rewrite Hacq. cbn. rewrite Hlock. cbn. rewrite ?Hacq, ?Hlock.
  destruct (remove_highlights e) as [[]|x]; [done|]. by destruct (is_Exception x).
Qed.

Lemma try_finally_cleanup {A} (m : M state A) e s r s1 c s2 :
  m s = (r, s1) -> cleanup e s1 = (c, s2) ->
  try_finally m (cleanup e) s
  = (match c with Returns _ => r | Raises x => Raises x end, s2).
Proof.
  intros Hm Hc. unfold try_finally. rewrite Hm, Hc. by destruct c.
Qed.

(** A request that does not take the lock: the wait is the only call
    before the cleanup, and the lock is as the request found it. *)
Lemma request_not_acquired e event locked :
  acquires e locked = false ->
  request e event locked
  = (after_cleanup e
       (Raises (if cancelled_at_acquire e then CancelledError else contention_error)),
     called Remove_highlights (called (Acquire 2) (start locked))).
Proof.
  intros Hacq. unfold request, on_ScreenshotEvent.
  change ((modify (set_lock_acquired false) ;;; ?m) ?s) with (m (start locked)).
  assert (capture_body e event (start locked)
          = (Raises (if cancelled_at_acquire e then CancelledError else contention_error),
             called (Acquire 2) (start locked))) as Hbody.
  { unfold capture_body, bindM. rewrite acquire_lock_outcome.
    unfold acquires in Hacq. cbn [start _screenshot_lock].
    destruct (cancelled_at_acquire e); [done|]. cbn in Hacq. by rewrite Hacq. }
  erewrite try_finally_cleanup;
    [|rewrite try_except_reraise; exact Hbody|by apply cleanup_not_acquired].
  unfold after_cleanup. f_equal.
  destruct (remove_highlights e) as [[]|x]; [done|]. by destruct (is_Exception x).
Qed.

(** A request that takes the lock: the calls of the body, then the
    release, then the overlay cleanup; the lock is free at the end. *)
Lemma request_acquired e event locked :
  acquires e locked = true ->
  exists r more,
    request e event locked
    = (after_cleanup e r,
       {| _screenshot_lock := false; lock_acquired := true;
          calls := Acquire 2 :: more ++ [Release; Remove_highlights] |})
    /\ capture_calls e event more.
Proof.
  intros Hacq. unfold request, on_ScreenshotEvent.
  change ((modify (set_lock_acquired false) ;;; ?m) ?s) with (m (start locked)).
  set (s1 := set_lock_acquired true (set_lock true (called (Acquire 2) (start locked)))).
  destruct (body_after_acquire_calls e event s1) as (more & Hafter & Hcalls).
  destruct ((target <~ select_target e ;; capture_target e event target) s1)
    as [r s2] eqn:Hrest.
  destruct Hafter as (Hlock & Hflag & Hmore). cbn in Hlock, Hflag, Hmore.
  assert (capture_body e event (start locked) = (r, s2)) as Hbody.
  { unfold capture_body. unfold bindM at 1. rewrite acquire_lock_outcome.
    unfold acquires in Hacq. cbn [start _screenshot_lock].
    destruct (cancelled_at_acquire e); [done|]. cbn in Hacq. rewrite Hacq.
    exact Hrest. }
  exists r, more. split; [|done].
  erewrite try_finally_cleanup;
    [|rewrite try_except_reraise; exact Hbody|by apply cleanup_acquired].
  unfold after_cleanup. f_equal.
  - destruct (remove_highlights e) as [[]|x]; [done|]. by destruct (is_Exception x).
  - unfold called, set_lock. cbn. rewrite Hflag, Hmore. cbn.
    by rewrite <- !app_assoc.
Qed.


Lemma capture_calls_no_lock_call e event more :
  capture_calls e event more ->
  (forall t, Acquire t ∉ more) /\ (Release ∉ more) /\ (Remove_highlights ∉ more).
Proof.
  intros [->|[(target & -> & _)|(target & -> & _)]];
    (split; [intros t|split]); intros H;
    rewrite ?elem_of_cons, ?elem_of_nil in H; decompose [or] H; done.
Qed.

Lemma capture_timeout_cases (event : ScreenshotEvent) :
  capture_timeout event
  = match event_timeout event with
    | Some t =>
        if float_truthy t then py_max (t - 2)%float 1%float
        else py_max (15 - 2)%float 1%float
    | None => py_max (15 - 2)%float 1%float
    end.
Proof.
  unfold capture_timeout, timeout_seconds.
  destruct (event_timeout event) as [t|]; [|done]. by destruct (float_truthy t).
Qed.

(** C7.  Whatever the environment answers (so on every exit path: the
    payload returned, the contention error, no page target, no payload, a
    timeout, a cancellation, a failing session or cleanup), after the
    request: if the request took the lock it has released it, and the lock
    is free; a lock that the request found free is free; a lock still held
    is one the request found held and never took, and it made no release.
    A request that arrives next takes a free lock unless it is cancelled
    while it waits. *)
Theorem capture_gate_released_on_every_exit
    (e : env) (event : ScreenshotEvent) (locked : bool) :
  let s := snd (request e event locked) in
  (lock_acquired s = true -> _screenshot_lock s = false /\ Release ∈ calls s)
  /\ (locked = false -> _screenshot_lock s = false)
  /\ (_screenshot_lock s = true ->
      locked = true /\ lock_acquired s = false /\ (Release ∉ calls s))
  /\ (forall e' event',
        _screenshot_lock s = false -> cancelled_at_acquire e' = false ->
        let s' := snd (request e' event' (_screenshot_lock s)) in
        acquires e' (_screenshot_lock s) = true
        /\ lock_acquired s' = true
        /\ _screenshot_lock s' = false).
Proof.
  cbv zeta. destruct (acquires e locked) eqn:Hacq.
  - destruct (request_acquired e event locked Hacq) as (r & more & -> & Hmore).
    cbn [snd _screenshot_lock lock_acquired calls].
    split; [intros _; split; [done|]|split; [done|split; [done|]]].
    + rewrite elem_of_cons, elem_of_app, !elem_of_cons. auto.
    + intros e' event' _ Hc.
      assert (acquires e' false = true) as Hacq' by (unfold acquires; by rewrite Hc).
      destruct (request_acquired e' event' false Hacq') as (r' & more' & -> & _).
      done.
  - rewrite (request_not_acquired e event locked Hacq).
    cbn [snd called start _screenshot_lock lock_acquired calls].
    split; [done|]. split; [done|]. split.
    + intros ->. split; [done|]. split; [done|].
      intros H. cbn in H. rewrite !elem_of_cons, elem_of_nil in H.
      decompose [or] H; done.
    + intros e' event' -> Hc.
      assert (acquires e' false = true) as Hacq' by (unfold acquires; by rewrite Hc).
      destruct (request_acquired e' event' false Hacq') as (r' & more' & -> & _).
      done.
Qed.

(** The exit paths, one run each, with the lock free at the start: the
    outcome and the lock at the end. *)
Example exit_paths_leave_the_lock_free :
  let run e := (fst (request e event_default false),
                _screenshot_lock (snd (request e event_default false))) in
  run env_ok = (Returns "iVBORw0KGgo=", false)
  /\ run env_no_page
     = (Raises (BrowserError "[ScreenshotWatchdog] No page targets available for screenshot"),
        false)
  /\ run env_no_payload
     = (Raises (BrowserError "[ScreenshotWatchdog] Screenshot result missing data"),
        false)
  /\ run env_capture_times_out = (Raises TimeoutError, false)
  /\ run env_cancelled_in_capture = (Raises CancelledError, false).
Proof. repeat split. Qed.

(** Two requests: the second arrives while the first holds the lock and
    the first does not finish within the wait; a third arrives after. *)
Example second_request_meets_contention :
  fst (request env_ok event_default true) = Raises contention_error
  /\ calls (snd (request env_ok event_default true)) = [Acquire 2; Remove_highlights]
  /\ fst (request env_ok event_default false) = Returns "iVBORw0KGgo=".
Proof. repeat split. Qed.


Lemma float_neq (x y : float) : Prim2SF x <> Prim2SF y -> x <> y.
Proof. intros H ->. by apply H. Qed.

(** C6, as amended.  The handler waits for the lock once, under a timeout
    of 2.  When the lock is held and not released within that wait (and the
    wait is not cancelled), the request makes no other call than the
    cleanup and raises the error of a capture in progress (a cancellation
    of the cleanup would take its place).  Every capture command it issues
    is issued by a request that holds the lock, with the timeout
    max(overall - 2, 1), where overall is the event's timeout when it has
    one that is not zero, and 15 when it has none or has zero; and the
    command is issued whenever the session of the selected target is
    obtained. *)
Theorem capture_gate_timeouts
    (e : env) (event : ScreenshotEvent) (locked : bool) :
  let r := fst (request e event locked) in
  let s := snd (request e event locked) in
  (exists rest, calls s = Acquire 2 :: rest /\ forall t, Acquire t ∉ rest)
  /\ (locked = true -> cancelled_at_acquire e = false ->
      released_within e 2%float = false ->
      calls s = [Acquire 2; Remove_highlights]
      /\ (r = Raises contention_error
          \/ exists x, remove_highlights e = Raises x
                       /\ is_Exception x = false /\ r = Raises x))
  /\ (forall target t,
        CaptureScreenshot target t ∈ calls s ->
        lock_acquired s = true
        /\ t = match event_timeout event with
               | Some t0 =>
                   if float_truthy t0 then py_max (t0 - 2)%float 1%float
                   else py_max (15 - 2)%float 1%float
               | None => py_max (15 - 2)%float 1%float
               end)
  /\ (forall target,
        Get_or_create_cdp_session target true ∈ calls s ->
        get_or_create_cdp_session e target = Returns tt ->
        CaptureScreenshot target (capture_timeout event) ∈ calls s).
Proof.
  cbv zeta. destruct (acquires e locked) eqn:Hacq.
  - destruct (request_acquired e event locked Hacq) as (r & more & -> & Hmore).
    cbn [fst snd _screenshot_lock lock_acquired calls].
    destruct (capture_calls_no_lock_call e event more Hmore) as (Hno & _ & _).
    split; [|split; [|split]].
    + eexists. split; [reflexivity|]. intros t Hin.
      apply elem_of_app in Hin as [Hin|Hin]; [by apply (Hno t)|].
      rewrite !elem_of_cons, elem_of_nil in Hin. decompose [or] Hin; done.
    + intros -> Hc Hrel. unfold acquires in Hacq. rewrite Hc, Hrel in Hacq. done.
    + intros target t Hin. split; [done|]. rewrite <- capture_timeout_cases.
      rewrite elem_of_cons, elem_of_app, !elem_of_cons, elem_of_nil in Hin.
      destruct Hin as [?|[Hin|Hin]]; [done| |decompose [or] Hin; done].
      destruct Hmore as [->|[(tg & -> & _)|(tg & -> & _)]];
        rewrite ?elem_of_cons, ?elem_of_nil in Hin; decompose [or] Hin;
        try done; congruence.
    + intros target Hin Hsess.
      rewrite elem_of_cons, elem_of_app, !elem_of_cons, elem_of_nil in Hin.
      destruct Hin as [?|[Hin|Hin]]; [done| |decompose [or] Hin; done].
      rewrite elem_of_cons, elem_of_app. right. left.
      destruct Hmore as [->|[(tg & -> & x & Hx)|(tg & -> & _)]];
        rewrite ?elem_of_cons, ?elem_of_nil in Hin; decompose [or] Hin; try done.
      * congruence.
      * rewrite !elem_of_cons. right. left. congruence.
  - rewrite (request_not_acquired e event locked Hacq).
    cbn [fst snd called start _screenshot_lock lock_acquired calls app].
    split; [|split; [|split]].
    + eexists. split; [reflexivity|]. intros t Hin.
      rewrite !elem_of_cons, elem_of_nil in Hin. decompose [or] Hin; done.
    + intros _ Hc _. split; [done|]. rewrite Hc. unfold after_cleanup.
      destruct (remove_highlights e) as [[]|x] eqn:Hx; [by left|].
      destruct (is_Exception x) eqn:Hexc; [by left|]. right. eauto.
    + intros target t Hin.
      rewrite !elem_of_cons, elem_of_nil in Hin. decompose [or] Hin; done.
    + intros target Hin.
      rewrite !elem_of_cons, elem_of_nil in Hin. decompose [or] Hin; done.
Qed.

(** The timeouts of three requests: none supplied, 10 supplied, 2.5
    supplied. *)
Example capture_timeouts_of_requests :
  calls (snd (request env_ok event_default false))
  = [Acquire 2; Get_or_create_cdp_session "P" true; CaptureScreenshot "P" 13;
     Release; Remove_highlights]
  /\ calls (snd (request env_ok (event_of 10) false))
     = [Acquire 2; Get_or_create_cdp_session "P" true; CaptureScreenshot "P" 8;
        Release; Remove_highlights]
  /\ calls (snd (request env_ok (event_of 2.5) false))
     = [Acquire 2; Get_or_create_cdp_session "P" true; CaptureScreenshot "P" 1;
        Release; Remove_highlights].
Proof. repeat split. Qed.

(** C6 as stated fails: the request supplies the overall timeout 0; the
    stated formula gives max(0 - 2, 1) = 1, and the capture command is
    issued with 13. *)
Lemma zero_timeout_captures_with_13 :
  event_timeout event_zero = Some 0%float
  /\ spec_capture_timeout event_zero = 1%float
  /\ calls (snd (request env_ok event_zero false))
     = [Acquire 2; Get_or_create_cdp_session "P" true; CaptureScreenshot "P" 13;
        Release; Remove_highlights]
  /\ 13%float <> spec_capture_timeout event_zero.
Proof.
  split; [done|]. split; [done|]. split; [done|].
  apply float_neq. vm_compute. discriminate.
Qed.

End screenshot_facts.

(** ** More facts about network_watchdog.py *)

Module network_more_facts.
Import network_watchdog lifecycle network_facts.

(** *** Durations *)

Lemma py_max_zero_nonnegative (x : float) :
  PrimFloat.leb 0%float (py_max 0%float x) = true.
Proof.
  unfold py_max. destruct (PrimFloat.ltb 0%float x) eqn:Hlt; [|reflexivity].
  rewrite FloatAxioms.ltb_spec in Hlt. rewrite FloatAxioms.leb_spec.
  change (Prim2SF 0%float) with (S754_zero false) in *.
  destruct (Prim2SF x) as [s|s| |s m e]; try destruct s; try discriminate;
    reflexivity.
Qed.

(** [duration_ms] is [None] exactly when the entry has no end time, and
    is otherwise a float that is at least [0]: never negative, never a
    NaN, whatever the two times are. *)
Theorem duration_ms_nonnegative (e : NetworkLogEntry) :
  match duration_ms e with
  | Some d => PrimFloat.leb 0%float d = true /\ is_Some (end_time e)
  | None => end_time e = None
  end.
Proof.
  unfold duration_ms. destruct (end_time e) as [t|]; [|done].
  split; [apply py_max_zero_nonnegative|by eexists].
Qed.

(** *** The handlers as updates of the store *)

Lemma find_entry_handle self t u t' rid :
  _find_entry (handle self t u) t' rid = _find_entry self t' rid.
Proof.
  rewrite handle_unfold.
  destruct (_find_entry self t (update_request_id u)); [|done].
  apply find_entry_update_entry, apply_update_request_id.
Qed.

Lemma find_entry_None self t rid :
  _find_entry self t rid = None <->
  forall e, e ∈ get_traffic_log self t -> request_id e <> rid.
Proof.
  unfold _find_entry, get_traffic_log.
  destruct (_network_logs self !! t) as [d|].
  - rewrite find_last_None. split; intros H e He; specialize (H e He).
    + by apply String.eqb_neq.
    + by apply String.eqb_neq.
  - split; [|done]. intros _ e He. by apply elem_of_nil in He.
Qed.

(** Two updates of one target's log, one after the other. *)
Lemma update_entry_twice self t i j F G :
  update_entry (update_entry self t j G) t i F
  = match _network_logs self !! t with
    | None => self
    | Some d =>
        set_network_logs
          (<[t := {| items := alter F i (alter G j (items d)); maxlen := maxlen d |}]>
             (_network_logs self))
          self
    end.
Proof.
  unfold update_entry. destruct (_network_logs self !! t) as [d|] eqn:Hd.
  - simpl. rewrite lookup_insert_eq. unfold set_network_logs. simpl.
    by rewrite insert_insert_eq.
  - by rewrite Hd.
Qed.

(** Case analysis on an update: it is ignored, or rewrites the
    entry at the position [_find_entry] gives. *)
Lemma handle_cases self t u :
  (_find_entry self t (update_request_id u) = None /\ handle self t u = self)
  \/ (exists i, _find_entry self t (update_request_id u) = Some i
                /\ handle self t u = update_entry self t i (apply_update u)).
Proof.
  rewrite handle_unfold.
  destruct (_find_entry self t (update_request_id u)) as [i|]; eauto.
Qed.

(** An event about a request that has no entry in the target's log (it
    was filtered, evicted, never seen, or the target has no log) changes
    nothing. *)
Theorem update_for_unknown_request_is_ignored
    (self : NetworkWatchdog) (target_id : string) (u : update_event) :
  (forall e, e ∈ get_traffic_log self target_id ->
             request_id e <> update_request_id u) ->
  handle self target_id u = self.
Proof.
  intros Hnone. apply find_entry_None in Hnone.
  rewrite handle_unfold. by rewrite Hnone.
Qed.

Lemma update_for_unknown_request_is_ignored_witness :
  handle one_request "T" (Loading_failed (connection_reset "9")) = one_request
  /\ handle one_request "other" (Loading_failed (connection_reset "1")) = one_request.
Proof.
  split; apply update_for_unknown_request_is_ignored; intros e He.
  - assert (get_traffic_log one_request "T" = [search_entry]) as Hlog
      by (vm_compute; reflexivity).
    rewrite Hlog in He. apply list_elem_of_singleton in He as ->. discriminate.
  - assert (get_traffic_log one_request "other" = []) as Hlog
      by (vm_compute; reflexivity).
    rewrite Hlog in He. by apply elem_of_nil in He.
Defined.

(** An update changes one entry and nothing else: the entry it rewrites is
    the last one of the target's log with the event's request identifier
    (entries after it have other identifiers, an earlier entry with the
    same identifier is left alone); every other position of that log,
    and every log of another target, is as before; no entry is added,
    removed or moved. *)
Theorem update_touches_only_the_latest_entry
    (self : NetworkWatchdog) (target_id : string) (u : update_event) (j : nat) :
  _find_entry self target_id (update_request_id u) = Some j ->
  (exists e,
     get_traffic_log self target_id !! j = Some e
     /\ request_id e = update_request_id u
     /\ get_traffic_log (handle self target_id u) target_id !! j
        = Some (apply_update u e))
  /\ (forall k e', (j < k)%nat ->
        get_traffic_log self target_id !! k = Some e' ->
        request_id e' <> update_request_id u)
  /\ (forall t i, t <> target_id \/ i <> j ->
        get_traffic_log (handle self target_id u) t !! i
        = get_traffic_log self t !! i)
  /\ (forall t,
        map request_id (get_traffic_log (handle self target_id u) t)
        = map request_id (get_traffic_log self t)).
Proof.
  intros Hfind. rewrite handle_unfold, Hfind.
  destruct (find_entry_lookup _ _ _ _ Hfind) as (e & He & Hid).
  split; [|split; [|split]].
  - exists e. split; [done|]. split; [done|].
    by apply get_traffic_log_update_entry_eq.
  - intros k e' Hk He'. unfold _find_entry in Hfind. unfold get_traffic_log in He'.
    destruct (_network_logs self !! target_id) as [d|]; [|discriminate].
    apply find_last_Some in Hfind as (_ & _ & _ & Hlater).
    specialize (Hlater k e' Hk He'). by apply String.eqb_neq.
  - intros t i Hne. unfold get_traffic_log, update_entry.
    destruct (_network_logs self !! target_id) as [d|] eqn:Hd; [|done]. simpl.
    destruct (decide (target_id = t)) as [<-|Hnt].
    + rewrite lookup_insert_eq, Hd. simpl.
      destruct Hne as [?|Hij]; [done|]. by rewrite list_lookup_alter_ne.
    + by rewrite lookup_insert_ne.
  - intros t. unfold get_traffic_log, update_entry.
    destruct (_network_logs self !! target_id) as [d|] eqn:Hd; [|done]. simpl.
    destruct (decide (target_id = t)) as [<-|Hnt].
    + rewrite lookup_insert_eq, Hd. simpl.
      generalize (items d) j. clear. intros l.
      induction l as [|a l IH]; intros [|j]; simpl; try done.
      * by rewrite apply_update_request_id.
      * f_equal. apply IH.
    + by rewrite lookup_insert_ne.
Qed.

Lemma update_touches_only_the_latest_entry_witness :
  exists e,
    get_traffic_log two_requests_same_id "T" !! 1%nat = Some e
    /\ get_traffic_log (handle two_requests_same_id "T"
                          (Response_received (response_200 "1"))) "T" !! 1%nat
       = Some (apply_update (Response_received (response_200 "1")) e)
    /\ get_traffic_log (handle two_requests_same_id "T"
                          (Response_received (response_200 "1"))) "T" !! 0%nat
       = get_traffic_log two_requests_same_id "T" !! 0%nat.
Proof.
  destruct (update_touches_only_the_latest_entry two_requests_same_id "T"
              (Response_received (response_200 "1")) 1)
    as ((e & He & _ & He') & _ & Hother & _).
  { vm_compute. reflexivity. }
  exists e. split; [exact He|]. split; [exact He'|].
  apply Hother. right. discriminate.
Defined.

(** *** Repeated and reordered events *)

Lemma float_or_idem x y : float_or x (float_or x y) = float_or x y.
Proof. unfold float_or. destruct x as [f|]; [|done]. by destruct (float_truthy f). Qed.

Lemma apply_update_idem u e : apply_update u (apply_update u e) = apply_update u e.
Proof.
  destruct e. destruct u as [r|f|g]; simpl.
  - unfold apply_response.
    destruct (Response.headers (default Response.empty (ResponseReceivedEvent.response r)));
      simpl; by rewrite float_or_idem.
  - unfold apply_failure. simpl.
    destruct status0; simpl; destruct end_time0; simpl; try reflexivity;
      by destruct (LoadingFailedEvent.timestamp f).
  - reflexivity.
Qed.

(** A handler that receives the same event a second time changes nothing
    more: delivering an event twice leaves the watchdog as delivering it
    once does. *)
Theorem duplicate_delivery_is_idempotent
    (self : NetworkWatchdog) (target_id : string) (u : update_event) :
  handle (handle self target_id u) target_id u = handle self target_id u.
Proof.
  destruct (handle_cases self target_id u) as [[Hnone Hsame]|(i & Hfind & Hupd)].
  - by rewrite Hsame, Hsame.
  - rewrite (handle_unfold (handle self target_id u)), find_entry_handle, Hfind.
    rewrite Hupd, update_entry_twice. unfold update_entry.
    destruct (_network_logs self !! target_id) as [d|]; [|done].
    do 3 f_equal. rewrite list_alter_alter_eq.
    apply list_alter_ext; [|done]. intros x _. apply apply_update_idem.
Qed.

Lemma failure_finish_commute_entry f g e :
  is_Some (LoadingFinishedEvent.timestamp g) ->
  apply_failure f (apply_loading_finished g e)
  = apply_loading_finished g (apply_failure f e).
Proof.
  intros [ts Hts]. destruct e. unfold apply_failure, apply_loading_finished.
  simpl. rewrite Hts. destruct status0; simpl; by destruct end_time0.
Qed.

(** A loading-failed and a loading-finished event, for the same request
    or for two requests of one target, give the same watchdog in either
    order, provided the finish event has its timestamp. *)
Theorem failure_and_finish_commute
    (self : NetworkWatchdog) (target_id : string)
    (f : LoadingFailedEvent.t) (g : LoadingFinishedEvent.t) :
  is_Some (LoadingFinishedEvent.timestamp g) ->
  on_failure (on_loading_finished self target_id g) target_id f
  = on_loading_finished (on_failure self target_id f) target_id g.
Proof.
  intros Hts.
  change (handle (handle self target_id (Loading_finished g)) target_id (Loading_failed f)
          = handle (handle self target_id (Loading_failed f)) target_id (Loading_finished g)).
  rewrite (handle_unfold (handle self target_id (Loading_finished g))).
  rewrite (handle_unfold (handle self target_id (Loading_failed f))).
  rewrite !find_entry_handle.
  destruct (handle_cases self target_id (Loading_failed f))
    as [[Hf ->]|(i & Hf & ->)];
    destruct (handle_cases self target_id (Loading_finished g))
      as [[Hg ->]|(j & Hg & ->)]; rewrite Hf, Hg; try reflexivity.
  rewrite !update_entry_twice.
  destruct (_network_logs self !! target_id) as [d|]; [|done].
  do 3 f_equal. destruct (decide (i = j)) as [->|Hij].
  - rewrite !list_alter_alter_eq. apply list_alter_ext; [|done].
    intros x _. simpl. by apply failure_finish_commute_entry.
  - by apply list_alter_alter_ne.
Qed.

Lemma failure_and_finish_commute_witness :
  on_failure (on_loading_finished one_request "T" (finished_1024 "1")) "T"
    (connection_reset "1")
  = on_loading_finished (on_failure one_request "T" (connection_reset "1")) "T"
      (finished_1024 "1").
Proof.
  apply failure_and_finish_commute. by eexists.
Defined.

Lemma on_loading_finished_found self t g i e :
  _find_entry self t (LoadingFinishedEvent.requestId g) = Some i ->
  get_traffic_log self t !! i = Some e ->
  let self' := on_loading_finished self t g in
  get_traffic_log self' t !! i = Some (apply_loading_finished g e)
  /\ forall rid, _find_entry self' t rid = _find_entry self t rid.
Proof.
  intros Hfind He. unfold on_loading_finished. simpl. rewrite Hfind. split.
  - by apply get_traffic_log_update_entry_eq.
  - intros rid. by apply find_entry_update_entry.
Qed.

(** The end time under a response and a finish for one live entry.  When
    the finish comes last the end time is the finish's timestamp.  When
    the response comes last the end time is the response's [responseTime]
    if it has one that is not zero, and the finish's timestamp otherwise:
    the two orders differ exactly through a [responseTime]. *)
Theorem response_and_finish_end_time
    (self : NetworkWatchdog) (target_id : string)
    (r : ResponseReceivedEvent.t) (g : LoadingFinishedEvent.t) (i : nat) :
  ResponseReceivedEvent.requestId r = LoadingFinishedEvent.requestId g ->
  _find_entry self target_id (ResponseReceivedEvent.requestId r) = Some i ->
  exists e1 e2,
    get_traffic_log (on_loading_finished (on_response self target_id r) target_id g)
      target_id !! i = Some e1
    /\ get_traffic_log (on_response (on_loading_finished self target_id g) target_id r)
         target_id !! i = Some e2
    /\ end_time e1 = LoadingFinishedEvent.timestamp g
    /\ end_time e2
       = float_or
           (Response.responseTime
              (default Response.empty (ResponseReceivedEvent.response r)))
           (LoadingFinishedEvent.timestamp g)
    /\ status e1 = status e2
    /\ encoded_data_length e1 = encoded_data_length e2.
Proof.
  intros Hid Hfind.
  destruct (find_entry_lookup _ _ _ _ Hfind) as (e & He & _).
  set (resp := default Response.empty (ResponseReceivedEvent.response r)).
  destruct (on_response_found self target_id r i e Hfind He) as [He1 Hf1].
  destruct (on_loading_finished_found self target_id g i e) as [He2 Hf2];
    [by rewrite <- Hid|done|].
  destruct (on_loading_finished_found (on_response self target_id r) target_id g i
              (apply_response resp e)) as [He1' _];
    [by rewrite Hf1, <- Hid|done|].
  destruct (on_response_found (on_loading_finished self target_id g) target_id r i
              (apply_loading_finished g e)) as [He2' _];
    [by rewrite Hf2|done|].
  exists (apply_loading_finished g (apply_response resp e)),
         (apply_response resp (apply_loading_finished g e)).
  split; [done|]. split; [done|]. split; [done|].
  rewrite apply_response_end_time, !apply_response_status.
  split; [reflexivity|]. split.
  - change (status (apply_loading_finished g (apply_response resp e)))
      with (status (apply_response resp e)).
    apply apply_response_status.
  - unfold apply_response. by destruct (Response.headers resp).
Qed.

Lemma response_and_finish_end_time_witness :
  exists e1 e2,
    get_traffic_log (on_loading_finished (on_response one_request "T" (response_at_2000 "1"))
                       "T" (finished_1024 "1")) "T" !! 0%nat = Some e1
    /\ get_traffic_log (on_response (on_loading_finished one_request "T" (finished_1024 "1"))
                          "T" (response_at_2000 "1")) "T" !! 0%nat = Some e2
    /\ end_time e1 = Some 1000.5%float
    /\ end_time e2 = Some 2000%float.
Proof.
  destruct (response_and_finish_end_time one_request "T" (response_at_2000 "1")
              (finished_1024 "1") 0 eq_refl)
    as (e1 & e2 & H1 & H2 & Ht1 & Ht2 & _).
  { vm_compute. reflexivity. }
  exists e1, e2. split; [exact H1|]. split; [exact H2|].
  split; [exact Ht1|exact Ht2].
Defined.

(** *** What a request event records *)

Lemma last_deque_append d e : (0 < maxlen d)%nat -> last (items (deque_append d e)) = Some e.
Proof.
  intros Hpos. unfold deque_append. simpl. rewrite length_app. simpl.
  destruct (maxlen d <? length (items d) + 1)%nat eqn:Hlt; [|apply last_snoc].
  destruct (items d) as [|a l]; simpl.
  - apply Nat.ltb_lt in Hlt. simpl in Hlt. lia.
  - apply last_snoc.
Qed.

(** A request event whose type is not ignored and whose initiator can be
    read is recorded, on a deque that can hold an entry, as the newest
    entry of the target's log: it has the event's identifier, URL (or the
    empty string), method (or [GET]) and type (or [Unknown]), and no
    outcome yet, so its summary reads [PENDING] without a duration. *)
Theorem recorded_request_is_newest_entry
    (self : NetworkWatchdog) (target_id : string)
    (event : RequestWillBeSentEvent.t) (d : deque) :
  _network_logs self !! target_id = Some d ->
  (0 < maxlen d)%nat ->
  recorded self event = true ->
  exists self' e,
    on_request self target_id event = Returns self'
    /\ last (get_traffic_log self' target_id) = Some e
    /\ request_id e = RequestWillBeSentEvent.requestId event
    /\ url e = default "" (Request.url
                 (default Request.empty (RequestWillBeSentEvent.request event)))
    /\ method e = default "GET" (Request.method
                    (default Request.empty (RequestWillBeSentEvent.request event)))
    /\ resource_type e = default "Unknown" (RequestWillBeSentEvent.type event)
    /\ status e = None /\ error_text e = None /\ end_time e = None
    /\ to_string e
       = "[" +:+ method e +:+ "] PENDING " +:+ url e
         +:+ " (" +:+ resource_type e +:+ ")".
Proof.
  intros Hd Hpos Hrec. unfold recorded in Hrec.
  apply andb_prop in Hrec as [Htype Hinit]. apply bool_decide_eq_true in Htype.
  unfold on_request. rewrite decide_False by done.
  destruct (_extract_initiator_frames (RequestWillBeSentEvent.initiator event))
    as [frames|x]; [|discriminate].
  cbn [bind]. rewrite Hd. eexists _, _. split; [reflexivity|].
  split.
  { unfold get_traffic_log. simpl. rewrite lookup_insert_eq.
    by apply last_deque_append. }
  repeat (split; [reflexivity|]).
  unfold to_string, status_str, duration_str, duration_ms. simpl.
  reflexivity.
Qed.

Lemma recorded_request_is_newest_entry_witness :
  exists self' e,
    on_request attached_T "T" (search_request "1") = Returns self'
    /\ last (get_traffic_log self' "T") = Some e
    /\ request_id e = "1"
    /\ to_string e = "[GET] PENDING https://api.example.com/v1/search (XHR)".
Proof.
  destruct (recorded_request_is_newest_entry attached_T "T" (search_request "1")
              {| items := []; maxlen := 200 |})
    as (self' & e & Hret & Hlast & Hid & Hurl & Hmethod & Htype & _ & _ & _ & Hstr).
  - vm_compute. reflexivity.
  - simpl. lia.
  - vm_compute. reflexivity.
  - exists self', e. split; [exact Hret|]. split; [exact Hlast|].
    split; [exact Hid|]. rewrite Hstr, Hurl, Hmethod, Htype. reflexivity.
Defined.

(** *** Ignored resource types *)

Lemma elem_of_deque_append d e x :
  x ∈ items (deque_append d e) -> x ∈ items d \/ x = e.
Proof.
  unfold deque_append. simpl.
  destruct (maxlen d <? length (items d ++ [e]))%nat.
  - intros Hx. assert (x ∈ items d ++ [e]) as Hin.
    { destruct (items d ++ [e]) as [|a l]; [done|]. simpl in Hx.
      apply elem_of_cons. by right. }
    apply elem_of_app in Hin as [?|Hin]; [by left|right].
    by apply list_elem_of_singleton in Hin.
  - intros [?|Hin]%elem_of_app; [by left|right].
    by apply list_elem_of_singleton in Hin.
Qed.

Lemma deliver_request_ignored w t ev :
  ignored_resource_types (deliver_request w t ev) = ignored_resource_types w.
Proof.
  unfold deliver_request, on_request. destruct (decide _); [done|].
  destruct (_extract_initiator_frames _); [|done]. simpl.
  by destruct (_network_logs w !! t).
Qed.

Lemma deliver_request_entries w t ev t' e :
  e ∈ get_traffic_log (deliver_request w t ev) t' ->
  e ∈ get_traffic_log w t' \/ resource_type e ∉ ignored_resource_types w.
Proof.
  unfold deliver_request, on_request.
  destruct (decide _) as [Hin|Hnin]; [by left|].
  destruct (_extract_initiator_frames _) as [frames|x]; [|by left]. cbn [bind].
  destruct (_network_logs w !! t) as [d|] eqn:Hd; [|by left].
  unfold get_traffic_log. simpl. destruct (decide (t = t')) as [<-|Hne].
  - rewrite lookup_insert_eq, Hd. intros [?| ->]%elem_of_deque_append; [by left|].
    by right.
  - rewrite lookup_insert_ne by done. by left.
Qed.

Lemma get_traffic_log_update_entry_alter self t j f t' :
  get_traffic_log (update_entry self t j f) t'
  = if decide (t = t') then alter f j (get_traffic_log self t')
    else get_traffic_log self t'.
Proof.
  unfold get_traffic_log, update_entry.
  destruct (_network_logs self !! t) as [d|] eqn:Hd.
  - simpl. destruct (decide (t = t')) as [<-|Hne].
    + by rewrite lookup_insert_eq, Hd.
    + by rewrite lookup_insert_ne.
  - destruct (decide (t = t')) as [<-|Hne]; [|done]. by rewrite Hd.
Qed.

Lemma elem_of_alter {A} (f : A -> A) (i : nat) (l : list A) (x : A) :
  x ∈ alter f i l -> exists y, y ∈ l /\ (x = y \/ x = f y).
Proof.
  intros [k Hk]%list_elem_of_lookup. destruct (decide (i = k)) as [->|Hne].
  - rewrite list_lookup_alter_eq in Hk.
    destruct (l !! k) as [y|] eqn:Hy; [|discriminate]. injection Hk as <-.
    exists y. split; [|by right]. apply list_elem_of_lookup. eauto.
  - rewrite list_lookup_alter_ne in Hk by done.
    exists x. split; [|by left]. apply list_elem_of_lookup. eauto.
Qed.

Lemma apply_update_resource_type u e :
  resource_type (apply_update u e) = resource_type e.
Proof.
  destruct u as [r|f|g]; simpl.
  - unfold apply_response. by destruct (Response.headers _).
  - unfold apply_failure. simpl. destruct (status e); simpl; by destruct (end_time e).
  - done.
Qed.

Lemma handle_entries w t u t' e' :
  e' ∈ get_traffic_log (handle w t u) t' ->
  exists e, e ∈ get_traffic_log w t' /\ resource_type e' = resource_type e.
Proof.
  rewrite handle_unfold.
  destruct (_find_entry w t (update_request_id u)) as [j|]; [|by eauto].
  rewrite get_traffic_log_update_entry_alter.
  destruct (decide (t = t')); [|by eauto].
  intros (y & Hy & [->| ->])%elem_of_alter; exists y; split; try done.
  apply apply_update_resource_type.
Qed.

Lemma handle_ignored w t u :
  ignored_resource_types (handle w t u) = ignored_resource_types w.
Proof.
  rewrite handle_unfold. destruct (_find_entry w t (update_request_id u)); [|done].
  unfold update_entry. by destruct (_network_logs w !! t).
Qed.

Lemma attach_to_target_ignored env t s :
  ignored_resource_types (watchdog (snd (attach_to_target env t s)))
  = ignored_resource_types (watchdog s).
Proof.
  destruct env as [sess en reg].
  unfold attach_to_target, try_except, attach_body, register_handler, bindM, lift,
    modify, get, ret, deque_new.
  cbn [network_watchdog.get_or_create_cdp_session network_watchdog.Network_enable
       network_watchdog.register].
  destruct (decide (t ∈ _monitored_targets (watchdog s))); [done|].
  destruct sess as [[]|e]; [|by destruct (is_Exception e)].
  destruct (_network_logs (watchdog s) !! t) as [d|] eqn:Hd.
  - by_steps en reg ltac:(try match goal with |- context [is_Exception ?x] =>
                                   destruct (is_Exception x) end; done).
  - destruct (max_logs_per_tab (watchdog s) <? 0)%Z; [done|].
    by_steps en reg ltac:(try match goal with |- context [is_Exception ?x] =>
                                   destruct (is_Exception x) end; done).
Qed.

Lemma attach_to_target_entries env t s t' e :
  e ∈ get_traffic_log (watchdog (snd (attach_to_target env t s))) t' ->
  e ∈ get_traffic_log (watchdog s) t'.
Proof.
  destruct (attach_to_target_logs env t s) as [_ [Hlogs|Hlogs]];
    unfold get_traffic_log; rewrite Hlogs; [done|].
  destruct (decide (t = t')) as [<-|Hne].
  - rewrite lookup_insert_eq. simpl. intros H. by apply elem_of_nil in H.
  - by rewrite lookup_insert_ne.
Qed.

(** Over every run from a new watchdog, no entry of any log has one of
    the ignored resource types ([Image], [Stylesheet], [Font], [Media],
    [Manifest], [Other]): such requests are never recorded, and no handler
    changes the type of an entry. *)
Theorem ignored_resource_types_never_recorded
    (capacity : Z) (ops : list operation) (target_id : string)
    (e : NetworkLogEntry) :
  e ∈ get_traffic_log
        (watchdog (run (fresh (watchdog_with_capacity capacity)) ops)) target_id ->
  resource_type e ∉ default_ignored_resource_types.
Proof.
  assert (forall s,
            ignored_resource_types (watchdog s) = default_ignored_resource_types ->
            (forall t x, x ∈ get_traffic_log (watchdog s) t ->
                         resource_type x ∉ default_ignored_resource_types) ->
            forall t x, x ∈ get_traffic_log (watchdog (run s ops)) t ->
                        resource_type x ∉ default_ignored_resource_types) as Hrun.
  { induction ops as [|o ops IH]; intros s Hign Hinv; [done|].
    apply (IH (step s o)); destruct o as [env t|t ev|t u]; simpl.
    - by rewrite attach_to_target_ignored.
    - by rewrite deliver_request_ignored.
    - by rewrite handle_ignored.
    - intros t' x Hx%attach_to_target_entries. by apply (Hinv t').
    - intros t' x [Hx|Hx]%deliver_request_entries; [by apply (Hinv t')|].
      by rewrite <- Hign.
    - intros t' x (y & Hy & ->)%handle_entries. by apply (Hinv t'). }
  apply Hrun; [done|]. intros t x Hx. unfold get_traffic_log in Hx. simpl in Hx.
  rewrite lookup_empty in Hx. by apply elem_of_nil in Hx.
Qed.

Lemma ignored_resource_types_never_recorded_witness :
  exists e,
    get_traffic_log
      (watchdog (run (fresh (watchdog_with_capacity 200))
                   [Attach attach_ok "T";
                    Request_sent "T" image_request;
                    Request_sent "T" (search_request "2")])) "T" = [e]
    /\ resource_type e = "XHR"
    /\ resource_type e ∉ default_ignored_resource_types.
Proof.
  eexists. split; [vm_compute; reflexivity|]. split; [reflexivity|].
  apply (ignored_resource_types_never_recorded 200
           [Attach attach_ok "T";
            Request_sent "T" image_request;
            Request_sent "T" (search_request "2")] "T").
  apply list_elem_of_lookup. exists 0%nat. vm_compute. reflexivity.
Defined.

(** *** Attachments *)

(** The attachment unfolded, for a case analysis on its steps. *)
Ltac attach_unfold env :=
  destruct env as [sess en reg];
  unfold attach_to_target, try_except, attach_body, register_handler, bindM, lift,
    modify, get, ret, deque_new, monitored;
  cbn [network_watchdog.get_or_create_cdp_session network_watchdog.Network_enable
       network_watchdog.register].

Ltac absorb tac :=
  try match goal with |- context [is_Exception ?x] => destruct (is_Exception x) end;
  tac.

(** An attachment only adds to what was sent and registered, and keeps
    the logs there are. *)
Lemma attach_to_target_grows env t s :
  let s' := snd (attach_to_target env t s) in
  (forall x, x ∈ enabled s -> x ∈ enabled s')
  /\ (forall x, x ∈ registered s -> x ∈ registered s')
  /\ (forall t', is_Some (_network_logs (watchdog s) !! t') ->
                 is_Some (_network_logs (watchdog s') !! t')).
Proof.
  assert (forall (m : gmap string deque) d t',
            is_Some (m !! t') -> is_Some (<[t := d]> m !! t')) as Hins.
  { intros m d t' Hs. destruct (decide (t = t')) as [<-|Hne].
    - rewrite lookup_insert_eq. by eexists.
    - by rewrite lookup_insert_ne. }
  attach_unfold env.
  destruct (decide (t ∈ _monitored_targets (watchdog s))); [done|].
  destruct sess as [[]|e]; [|by destruct (is_Exception e)].
  destruct (_network_logs (watchdog s) !! t) as [d|] eqn:Hd.
  - by_steps en reg ltac:(absorb
      ltac:(cbn; repeat split; try done; intros x Hx; rewrite ?elem_of_app; auto)).
  - destruct (max_logs_per_tab (watchdog s) <? 0)%Z; [done|].
    by_steps en reg ltac:(absorb
      ltac:(cbn; repeat split; try done; try (intros x Hx; by apply Hins);
            intros x Hx; rewrite ?elem_of_app; auto)).
Qed.

(** The set of monitored targets after an attachment: as before, or with
    the target added, and then the target has a log, the enable command
    was sent for it and its four handlers are registered. *)
Lemma attach_to_target_monitors env t s :
  let s' := snd (attach_to_target env t s) in
  monitored s' = monitored s
  \/ (monitored s' = {[ t ]} ∪ monitored s
      /\ is_Some (_network_logs (watchdog s') !! t)
      /\ t ∈ enabled s'
      /\ forall h, (t, h) ∈ registered s').
Proof.
  attach_unfold env.
  destruct (decide (t ∈ _monitored_targets (watchdog s))); [by left|].
  destruct sess as [[]|e]; [|destruct (is_Exception e); by left].
  destruct (_network_logs (watchdog s) !! t) as [d|] eqn:Hd.
  - by_steps en reg ltac:(absorb ltac:(first
      [ by left
      | right; cbn; rewrite Hd; repeat split; try done; try (by eexists);
        try intros []; rewrite !elem_of_app, !list_elem_of_singleton; auto ])).
  - destruct (max_logs_per_tab (watchdog s) <? 0)%Z; [by left|].
    by_steps en reg ltac:(absorb ltac:(first
      [ by left
      | right; cbn; rewrite lookup_insert_eq; repeat split; try done;
        try (by eexists);
        try intros []; rewrite !elem_of_app, !list_elem_of_singleton; auto ])).
Qed.

Lemma deliver_request_monitored w t ev :
  _monitored_targets (deliver_request w t ev) = _monitored_targets w.
Proof.
  unfold deliver_request, on_request. destruct (decide _); [done|].
  destruct (_extract_initiator_frames _); [|done]. simpl.
  by destruct (_network_logs w !! t).
Qed.

Lemma handle_monitored w t u :
  _monitored_targets (handle w t u) = _monitored_targets w.
Proof.
  rewrite handle_unfold. destruct (_find_entry w t (update_request_id u)); [|done].
  unfold update_entry. by destruct (_network_logs w !! t).
Qed.

Lemma deliver_request_keeps_logs w t ev t' :
  is_Some (_network_logs w !! t') ->
  is_Some (_network_logs (deliver_request w t ev) !! t').
Proof.
  unfold deliver_request, on_request. destruct (decide _); [done|].
  destruct (_extract_initiator_frames _); [|done]. simpl.
  destruct (_network_logs w !! t) as [d|] eqn:Hd; [|done]. simpl.
  destruct (decide (t = t')) as [<-|Hne].
  - rewrite lookup_insert_eq. by eexists.
  - by rewrite lookup_insert_ne.
Qed.

Lemma handle_keeps_logs w t u t' :
  is_Some (_network_logs w !! t') ->
  is_Some (_network_logs (handle w t u) !! t').
Proof.
  rewrite handle_unfold. destruct (_find_entry w t (update_request_id u)); [|done].
  unfold update_entry. destruct (_network_logs w !! t) as [d|] eqn:Hd; [|done].
  simpl. destruct (decide (t = t')) as [<-|Hne].
  - rewrite lookup_insert_eq. by eexists.
  - by rewrite lookup_insert_ne.
Qed.

(** Over every run from a new watchdog, whatever the attachments answer:
    a target in the set of monitored targets has a log, the enable command
    was sent for it, and each of the four handlers is registered for it.
    A failed attachment never leaves a target marked as monitored. *)
Theorem monitored_targets_are_subscribed
    (capacity : Z) (ops : list operation) (target_id : string) :
  let s := run (fresh (watchdog_with_capacity capacity)) ops in
  target_id ∈ monitored s ->
  is_Some (_network_logs (watchdog s) !! target_id)
  /\ target_id ∈ enabled s
  /\ forall h, (target_id, h) ∈ registered s.
Proof.
  cbv zeta.
  set (inv := fun s : attach_state =>
         forall t, t ∈ monitored s ->
           is_Some (_network_logs (watchdog s) !! t)
           /\ t ∈ enabled s /\ forall h, (t, h) ∈ registered s).
  assert (forall s, inv s -> inv (run s ops)) as Hrun.
  { induction ops as [|o ops IH]; intros s Hinv; [done|].
    apply (IH (step s o)). intros t Ht.
    destruct o as [env t0|t0 ev|t0 u]; simpl in *.
    - destruct (attach_to_target_grows env t0 s) as (Hen & Hreg & Hlogs).
      destruct (attach_to_target_monitors env t0 s)
        as [Hsame|(Hadd & Hlog & Hin & Hall)].
      + rewrite Hsame in Ht. destruct (Hinv t Ht) as (H1 & H2 & H3).
        split; [by apply Hlogs|]. split; [by apply Hen|].
        intros h. by apply Hreg.
      + rewrite Hadd in Ht. apply elem_of_union in Ht as [Ht|Ht].
        * apply elem_of_singleton in Ht as ->. done.
        * destruct (Hinv t Ht) as (H1 & H2 & H3).
          split; [by apply Hlogs|]. split; [by apply Hen|].
          intros h. by apply Hreg.
    - unfold monitored in Ht. simpl in Ht. rewrite deliver_request_monitored in Ht.
      destruct (Hinv t Ht) as (H1 & H2 & H3).
      split; [by apply deliver_request_keeps_logs|done].
    - unfold monitored in Ht. simpl in Ht. rewrite handle_monitored in Ht.
      destruct (Hinv t Ht) as (H1 & H2 & H3).
      split; [by apply handle_keeps_logs|done]. }
  apply Hrun. intros t Ht. unfold monitored in Ht. simpl in Ht.
  by apply elem_of_empty in Ht.
Qed.

Lemma monitored_targets_are_subscribed_witness :
  let s := run (fresh (watchdog_with_capacity 200))
             [Attach attach_registration_fails "T"; Attach attach_ok "T";
              Attach attach_no_session "U"] in
  "T" ∈ monitored s
  /\ "T" ∈ enabled s
  /\ (forall h, ("T", h) ∈ registered s)
  /\ "U" ∉ monitored s.
Proof.
  cbv zeta.
  assert ("T" ∈ monitored (run (fresh (watchdog_with_capacity 200))
             [Attach attach_registration_fails "T"; Attach attach_ok "T";
              Attach attach_no_session "U"])) as HT.
  { vm_compute. set_solver. }
  destruct (monitored_targets_are_subscribed 200
              [Attach attach_registration_fails "T"; Attach attach_ok "T";
               Attach attach_no_session "U"] "T" HT) as (_ & Hen & Hreg).
  split; [exact HT|]. split; [exact Hen|]. split; [exact Hreg|].
  vm_compute. set_solver.
Defined.

(** The state after an attachment of an unmonitored target in which every
    step succeeds. *)
Lemma attach_all_steps_succeed env t s :
  t ∉ monitored s ->
  (0 <= max_logs_per_tab (watchdog s))%Z ->
  get_or_create_cdp_session env = Returns tt ->
  Network_enable env = Returns tt ->
  (forall h, register env h = Returns tt) ->
  let s' := snd (attach_to_target env t s) in
  registered s' = registered s ++ subscriptions t
  /\ enabled s' = enabled s ++ [t]
  /\ monitored s' = {[ t ]} ∪ monitored s
  /\ max_logs_per_tab (watchdog s') = max_logs_per_tab (watchdog s).
Proof.
  intros Hnin Hcap Hsess Hen Hreg. unfold monitored in Hnin.
  destruct env as [sess en reg]. simpl in Hsess, Hen, Hreg. subst sess en.
  unfold attach_to_target, try_except, attach_body, register_handler, bindM, lift,
    modify, get, ret, deque_new, monitored, subscriptions.
  cbn [network_watchdog.get_or_create_cdp_session network_watchdog.Network_enable
       network_watchdog.register].
  rewrite decide_False by done. rewrite !Hreg.
  assert ((max_logs_per_tab (watchdog s) <? 0)%Z = false) as -> by (apply Z.ltb_ge; lia).
  destruct (_network_logs (watchdog s) !! t); cbn;
    rewrite <- !app_assoc; done.
Qed.

Lemma attach_last_registration_raises env t s e :
  t ∉ monitored s ->
  (0 <= max_logs_per_tab (watchdog s))%Z ->
  get_or_create_cdp_session env = Returns tt ->
  Network_enable env = Returns tt ->
  register env requestWillBeSent = Returns tt ->
  register env responseReceived = Returns tt ->
  register env loadingFailed = Returns tt ->
  register env loadingFinished = Raises e ->
  is_Exception e = true ->
  let s' := snd (attach_to_target env t s) in
  fst (attach_to_target env t s) = Returns tt
  /\ registered s'
     = registered s ++ [(t, requestWillBeSent); (t, responseReceived); (t, loadingFailed)]
  /\ enabled s' = enabled s ++ [t]
  /\ monitored s' = monitored s
  /\ max_logs_per_tab (watchdog s') = max_logs_per_tab (watchdog s).
Proof.
  intros Hnin Hcap Hsess Hen H1 H2 H3 H4 Hexc. unfold monitored in Hnin.
  destruct env as [sess en reg]. simpl in Hsess, Hen, H1, H2, H3, H4. subst sess en.
  unfold attach_to_target, try_except, attach_body, register_handler, bindM, lift,
    modify, get, ret, deque_new, monitored.
  cbn [network_watchdog.get_or_create_cdp_session network_watchdog.Network_enable
       network_watchdog.register].
  rewrite decide_False by done. rewrite H1, H2, H3, H4.
  assert ((max_logs_per_tab (watchdog s) <? 0)%Z = false) as -> by (apply Z.ltb_ge; lia).
  destruct (_network_logs (watchdog s) !! t); cbn; rewrite Hexc; cbn;
    rewrite <- !app_assoc; done.
Qed.

(** What the code does after a partial failure.  An attachment whose last
    registration raises is absorbed and leaves the target unmonitored, but
    the enable command and the first three registrations stay; the retry
    that succeeds sends the command and registers those three handlers a
    second time. *)
Theorem retry_after_partial_failure_registers_again
    (env : attach_env) (target_id : string) (s : attach_state) (e : exn) :
  target_id ∉ monitored s ->
  (0 <= max_logs_per_tab (watchdog s))%Z ->
  get_or_create_cdp_session env = Returns tt ->
  Network_enable env = Returns tt ->
  register env requestWillBeSent = Returns tt ->
  register env responseReceived = Returns tt ->
  register env loadingFailed = Returns tt ->
  register env loadingFinished = Raises e ->
  is_Exception e = true ->
  let s1 := snd (attach_to_target env target_id s) in
  let s2 := snd (attach_to_target attach_ok target_id s1) in
  (target_id ∉ monitored s1)
  /\ target_id ∈ monitored s2
  /\ registered s2
     = registered s
       ++ [(target_id, requestWillBeSent); (target_id, responseReceived);
           (target_id, loadingFailed)]
       ++ subscriptions target_id
  /\ enabled s2 = enabled s ++ [target_id; target_id].
Proof.
  intros Hnin Hcap Hsess Hen H1 H2 H3 H4 Hexc. cbv zeta.
  destruct (attach_last_registration_raises env target_id s e)
    as (_ & Hreg1 & Hen1 & Hmon1 & Hcap1); try done.
  destruct (attach_all_steps_succeed attach_ok target_id
              (snd (attach_to_target env target_id s)))
    as (Hreg2 & Hen2 & Hmon2 & _); try done.
  - by rewrite Hmon1.
  - by rewrite Hcap1.
  - split; [by rewrite Hmon1|]. split.
    + rewrite Hmon2. apply elem_of_union. left. by apply elem_of_singleton.
    + rewrite Hreg2, Hreg1, Hen2, Hen1, <- !app_assoc. done.
Qed.

Lemma retry_after_partial_failure_registers_again_witness :
  let s1 := snd (attach_to_target attach_last_registration_fails "T"
                   (fresh new_watchdog)) in
  let s2 := snd (attach_to_target attach_ok "T" s1) in
  registered s2
  = [("T", requestWillBeSent); ("T", responseReceived); ("T", loadingFailed);
     ("T", requestWillBeSent); ("T", responseReceived); ("T", loadingFailed);
     ("T", loadingFinished)]
  /\ enabled s2 = ["T"; "T"].
Proof.
  cbv zeta.
  destruct (retry_after_partial_failure_registers_again
              attach_last_registration_fails "T" (fresh new_watchdog)
              (RuntimeError "connection closed"))
    as (_ & _ & Hreg & Hen); try reflexivity.
  - vm_compute. set_solver.
  - vm_compute. discriminate.
  - split; [exact Hreg|exact Hen].
Defined.

(** *** Triggers *)

Lemma fire_unfold env s tr :
  fire env s tr
  = match trigger_target tr with
    | Some t => snd (attach_to_target env t s)
    | None => s
    end.
Proof.
  destruct tr as [[t|]|[t|]]; simpl; try done;
    unfold on_TabCreatedEvent, on_BrowserStateRequestEvent;
    by destruct (String.eqb t "").
Qed.

Lemma elem_of_subscriptions t t' h : (t', h) ∈ subscriptions t <-> t' = t.
Proof.
  unfold subscriptions. rewrite !elem_of_cons, elem_of_nil. split.
  - intros H. decompose [or] H; try done; congruence.
  - intros ->. destruct h; auto 6.
Qed.

Lemma NoDup_subscriptions t : NoDup (subscriptions t).
Proof.
  unfold subscriptions. repeat constructor;
    rewrite ?elem_of_cons, ?elem_of_nil; intros H; decompose [or] H;
    try done; congruence.
Qed.

(** When every attachment succeeds, a target is subscribed once, however
    often and by whichever event it is triggered: after any sequence of
    tab-created and browser-state-request events, no registration and no
    enable command is repeated; the handlers registered are those of the
    monitored targets; and the monitored targets are the non-empty target
    identifiers the events carried. *)
Theorem successful_attachments_subscribe_once
    (capacity : Z) (trs : list trigger) :
  (0 <= capacity)%Z ->
  let s := fire_all attach_ok (fresh (watchdog_with_capacity capacity)) trs in
  NoDup (registered s)
  /\ NoDup (enabled s)
  /\ (forall t h, (t, h) ∈ registered s <-> t ∈ monitored s)
  /\ (forall t, t ∈ enabled s <-> t ∈ monitored s)
  /\ (forall t, t ∈ monitored s <-> Some t ∈ map trigger_target trs).
Proof.
  intros Hcap. cbv zeta.
  set (inv := fun s : attach_state =>
         max_logs_per_tab (watchdog s) = capacity
         /\ NoDup (registered s) /\ NoDup (enabled s)
         /\ (forall t h, (t, h) ∈ registered s <-> t ∈ monitored s)
         /\ (forall t, t ∈ enabled s <-> t ∈ monitored s)).
  assert (forall s, inv s ->
            inv (fire_all attach_ok s trs)
            /\ forall t, t ∈ monitored (fire_all attach_ok s trs)
                         <-> t ∈ monitored s \/ Some t ∈ map trigger_target trs)
    as Hrun.
  { induction trs as [|tr trs IH]; intros s Hinv.
    { split; [done|]. intros t. simpl. rewrite elem_of_nil. tauto. }
    change (fire_all attach_ok s (tr :: trs))
      with (fire_all attach_ok (fire attach_ok s tr) trs).
    assert (inv (fire attach_ok s tr)
            /\ forall t, t ∈ monitored (fire attach_ok s tr)
                         <-> t ∈ monitored s \/ Some t = trigger_target tr)
      as [Hinv' Hmon'].
    { rewrite fire_unfold. destruct (trigger_target tr) as [t0|].
      - destruct (decide (t0 ∈ monitored s)) as [Hin|Hnin].
        + rewrite attach_to_target_monitored by done. simpl.
          split; [done|]. intros t. split; [by left|].
          intros [?|[= ->]]; done.
        + destruct Hinv as (Hc & Hnd1 & Hnd2 & Hreg & Hen).
          destruct (attach_all_steps_succeed attach_ok t0 s)
            as (Hreg' & Hen' & Hmon & Hc'); try done; [by rewrite Hc|].
          split; [split; [congruence|split; [|split; [|split]]]|].
          * rewrite Hreg'. apply NoDup_app. split; [done|].
            split; [|apply NoDup_subscriptions].
            intros [t h] Hx Hy. apply elem_of_subscriptions in Hy as ->.
            by apply Hreg in Hx.
          * rewrite Hen'. apply NoDup_app. split; [done|].
            split; [|apply NoDup_singleton].
            intros t Hx Hy%list_elem_of_singleton. subst. by apply Hen in Hx.
          * intros t h. rewrite Hreg', Hmon, elem_of_app, elem_of_subscriptions,
              elem_of_union, elem_of_singleton, Hreg. tauto.
          * intros t. rewrite Hen', Hmon, elem_of_app, list_elem_of_singleton,
              elem_of_union, elem_of_singleton, Hen. tauto.
          * intros t. rewrite Hmon, elem_of_union, elem_of_singleton.
            split; [intros [->|?]; auto|intros [?|[= ->]]; auto].
      - split; [done|]. intros t. split; [by left|]. by intros [?|?]. }
    destruct (IH _ Hinv') as [Hfinal Hmon].
    split; [done|]. intros t. rewrite Hmon, Hmon'. simpl.
    rewrite elem_of_cons. split; intros H; decompose [or] H; auto. }
  destruct (Hrun (fresh (watchdog_with_capacity capacity))) as [Hinv Hmon].
  { unfold inv, monitored. simpl. split; [done|].
    split; [apply NoDup_nil_2|]. split; [apply NoDup_nil_2|].
    split; intros t; [intros h|]; rewrite elem_of_nil; split; try done;
      intros H; by apply elem_of_empty in H. }
  destruct Hinv as (_ & H1 & H2 & H3 & H4).
  split; [done|]. split; [done|]. split; [done|]. split; [done|].
  intros t. rewrite Hmon. unfold monitored. simpl.
  split; [intros [H|?]; [by apply elem_of_empty in H|done]|by right].
Qed.

Lemma successful_attachments_subscribe_once_witness :
  let s := fire_all attach_ok (fresh (watchdog_with_capacity 200))
             [Tab_created (Some "T"); Browser_state_request (Some "T");
              Browser_state_request None; Tab_created (Some "")] in
  NoDup (registered s)
  /\ registered s = subscriptions "T"
  /\ enabled s = ["T"].
Proof.
  cbv zeta.
  destruct (successful_attachments_subscribe_once 200
              [Tab_created (Some "T"); Browser_state_request (Some "T");
               Browser_state_request None; Tab_created (Some "")])
    as (Hnd & _); [lia|].
  split; [exact Hnd|]. split; reflexivity.
Defined.

End network_more_facts.

(** ** Facts about the formatting and the body fetch *)

Module formatting_facts.
Import network_watchdog lifecycle formatting network_facts.

(** *** Stack traces *)

Lemma format_frame_call_frame repr idx f :
  format_frame repr idx (frame_dict f) = Returns (frame_line idx f).
Proof.
  unfold format_frame, frame_dict, frame_line, frame_get. cbn [bind dict_get].
  cbn [String.eqb Ascii.eqb Bool.eqb andb]. cbn [one_based py_str].
  unfold py_or. cbn [truthy].
  destruct (String.eqb (CallFrame.functionName f) "");
    destruct (String.eqb (CallFrame.url f) ""); reflexivity.
Qed.

Lemma format_frames_call_frames repr (fs : list CallFrame.t) :
  forall idx,
  format_frames repr idx (map frame_dict fs)
  = Returns (imap (fun i => frame_line (idx + i)) fs).
Proof.
  induction fs as [|f fs IH]; intros idx; [done|].
  cbn [map format_frames]. rewrite format_frame_call_frame, IH. cbn [bind].
  rewrite imap_cons, Nat.add_0_r. do 2 f_equal.
  apply imap_ext. intros i x _. simpl. f_equal. lia.
Qed.

Lemma slice_to_map {A B} (f : A -> B) (l : list A) (n : Z) :
  slice_to (map f l) n = map f (slice_to l n).
Proof.
  unfold slice_to. rewrite length_map.
  destruct (0 <=? n)%Z; apply firstn_map.
Qed.

(** [format_stack_trace] on a stack of well-typed call frames: it does
    not raise, and gives one line per frame of [stack_trace[:frame_limit]]
    (a negative limit counts from the end), joined by newlines; the line of
    a frame shows its position, its name or [(anonymous)], its URL or
    [<unknown>], and its line and column plus one.  With a limit the action
    model accepts (1 to 30) the frames shown are the first
    min(limit, length), at most 30, and at least one of a non-empty
    stack. *)
Theorem format_stack_trace_of_call_frames
    (repr : pyval -> string) (e : NetworkLogEntry)
    (frames : list CallFrame.t) (frame_limit : Z) :
  stack_trace e = map frame_dict frames ->
  format_stack_trace repr e frame_limit
  = Returns (String.concat newline (imap frame_line (slice_to frames frame_limit)))
  /\ (views.accepts views.GetNetworkRequestStackAction_frame_limit frame_limit ->
      slice_to frames frame_limit = take (Z.to_nat frame_limit) frames
      /\ length (slice_to frames frame_limit)
         = Nat.min (Z.to_nat frame_limit) (length frames)
      /\ (length (slice_to frames frame_limit) <= 30)%nat
      /\ (frames <> [] -> slice_to frames frame_limit <> [])).
Proof.
  intros Hstack. split.
  - unfold format_stack_trace. rewrite Hstack.
    destruct frames as [|f frames].
    { unfold slice_to. cbn [map]. by destruct (0 <=? frame_limit)%Z; rewrite take_nil. }
    cbn [map]. change (frame_dict f :: map frame_dict frames)
      with (map frame_dict (f :: frames)).
    rewrite slice_to_map, format_frames_call_frames. reflexivity.
  - unfold views.accepts. simpl. intros [Hge Hle].
    assert (slice_to frames frame_limit = take (Z.to_nat frame_limit) frames) as Hs.
    { unfold slice_to. destruct (Z.leb_spec 0 frame_limit); [done|lia]. }
    rewrite Hs, length_take. split; [done|]. split; [done|]. split; [lia|].
    intros Hne Htake. destruct frames as [|f frames]; [done|].
    destruct (Z.to_nat frame_limit) eqn:Hn; [lia|discriminate].
Qed.

Lemma format_stack_trace_of_call_frames_witness :
  format_stack_trace no_repr (with_stack (map frame_dict frames_abc) search_entry) 2
  = Returns ("#0 fetchResults @ https://example.com/app.js:42:8" +:+ newline
             +:+ "#1 (anonymous) @ <unknown>:1:1").
Proof.
  destruct (format_stack_trace_of_call_frames no_repr
              (with_stack (map frame_dict frames_abc) search_entry) frames_abc 2
              eq_refl) as [Hfmt _].
  rewrite Hfmt. reflexivity.
Defined.

Lemma format_frames_app repr (fs : list CallFrame.t) (l : list pyval) :
  forall idx,
  format_frames repr idx (map frame_dict fs ++ l)
  = (lines <- format_frames repr (idx + length fs) l;;
     Returns (imap (fun i => frame_line (idx + i)) fs ++ lines)).
Proof.
  induction fs as [|f fs IH]; intros idx.
  - simpl. rewrite Nat.add_0_r. by destruct (format_frames repr idx l).
  - cbn [map app format_frames length]. rewrite format_frame_call_frame, IH.
    cbn [bind]. replace (S idx + length fs)%nat with (idx + S (length fs))%nat by lia.
    destruct (format_frames repr (idx + S (length fs)) l) as [lines|x]; [|done].
    cbn [bind]. rewrite imap_cons, Nat.add_0_r. simpl. do 3 f_equal.
    apply imap_ext. intros i x _. simpl. f_equal. lia.
Qed.

(** A frame that is not a dict, within the limit, makes
    [format_stack_trace] raise: [frame.get] is called on it.  Such frames
    come out of [_extract_initiator_frames] when [callFrames] is a string
    (its characters) or a dict (its keys). *)
Theorem format_stack_trace_raises_on_a_non_dict_frame
    (repr : pyval -> string) (e : NetworkLogEntry)
    (before : list CallFrame.t) (bad : pyval) (rest : list pyval)
    (frame_limit : Z) :
  stack_trace e = map frame_dict before ++ bad :: rest ->
  is_dict bad = false ->
  (Z.of_nat (length before) < frame_limit)%Z ->
  format_stack_trace repr e frame_limit
  = Raises (AttributeError "object has no attribute 'get'").
Proof.
  intros Hstack Hbad Hlimit. unfold format_stack_trace. rewrite Hstack.
  assert (slice_to (map frame_dict before ++ bad :: rest) frame_limit
          = map frame_dict before
            ++ bad :: take (Z.to_nat frame_limit - S (length before)) rest) as ->.
  { unfold slice_to. destruct (Z.leb_spec 0 frame_limit); [|lia].
    rewrite take_app, length_map.
    rewrite take_ge by (rewrite length_map; lia). f_equal.
    replace (Z.to_nat frame_limit - length before)%nat
      with (S (Z.to_nat frame_limit - S (length before))) by lia.
    done. }
  rewrite format_frames_app. cbn [format_frames].
  assert (format_frame repr (0 + length before) bad
          = Raises (AttributeError "object has no attribute 'get'")) as ->.
  { unfold format_frame, frame_get. by destruct bad. }
  cbn [bind]. by destruct before.
Qed.

Lemma format_stack_trace_raises_on_a_non_dict_frame_witness :
  _extract_initiator_frames
    (PDict [("stack", PDict [("callFrames", PStr "ab")])])
  = Returns [PStr "a"; PStr "b"]
  /\ format_stack_trace no_repr (with_stack [PStr "a"; PStr "b"] search_entry) 10
     = Raises (AttributeError "object has no attribute 'get'").
Proof.
  split; [reflexivity|].
  apply (format_stack_trace_raises_on_a_non_dict_frame no_repr _ [] (PStr "a")
           [PStr "b"] 10); [reflexivity|reflexivity|simpl; lia].
Defined.

(** *** Truncated bodies *)

Lemma substring_0_split (n : nat) (s : string) :
  (n <= String.length s)%nat ->
  exists dropped,
    s = String.substring 0 n s +:+ dropped
    /\ String.length (String.substring 0 n s) = n
    /\ String.length dropped = (String.length s - n)%nat.
Proof.
  revert s. induction n as [|n IH]; intros s Hn.
  - exists s. destruct s; simpl; repeat split; lia.
  - destruct s as [|c s]; [simpl in Hn; lia|].
    destruct (IH s) as (dropped & Hs & Hkept & Hdropped); [simpl in Hn; lia|].
    exists dropped. split; [|split].
    + change (String c s = String c (String.substring 0 n s +:+ dropped)).
      by f_equal.
    + change (S (String.length (String.substring 0 n s)) = S n). by f_equal.
    + exact Hdropped.
Qed.

(** The preview of a request body.  Post data that is not a string has no
    preview; a string of at most 2000 characters is its own preview; a
    longer one is cut after its first 2000 characters, and the number the
    note reports is the number of characters dropped. *)
Theorem request_body_preview_keeps_the_first_2000 (post_data : pyval) :
  match post_data with
  | PStr s =>
      ((String.length s <= 2000)%nat -> body_preview post_data = Some s)
      /\ ((2000 < String.length s)%nat ->
          exists kept dropped,
            s = kept +:+ dropped
            /\ String.length kept = 2000%nat
            /\ body_preview post_data
               = Some (kept +:+ "... (truncated "
                       +:+ str_of_int (Z.of_nat (String.length dropped))
                       +:+ " chars)"))
  | _ => body_preview post_data = None
  end.
Proof.
  destruct post_data as [| | | |s| |]; try reflexivity.
  unfold body_preview. split.
  - intros Hle. apply Nat.leb_le in Hle. by rewrite Hle.
  - intros Hlt. assert ((String.length s <=? 2000)%nat = false) as ->
      by (apply Nat.leb_gt; exact Hlt).
    destruct (substring_0_split 2000 s) as (dropped & Hs & Hkept & Hdropped);
      [apply Nat.lt_le_incl; exact Hlt|].
    exists (String.substring 0 2000 s), dropped.
    split; [exact Hs|]. split; [exact Hkept|].
    rewrite Hdropped. do 4 f_equal.
    rewrite Nat2Z.inj_sub by (apply Nat.lt_le_incl; exact Hlt). reflexivity.
Qed.

(** The response body as the details show it, for a length that is not
    negative: a body no longer than the length is shown whole; a longer one
    is cut after exactly that many characters, and the number the note
    reports is the number of characters dropped. *)
Theorem shown_body_keeps_a_prefix (body : string) (body_length : Z) :
  (0 <= body_length)%Z ->
  ((Z.of_nat (String.length body) <= body_length)%Z ->
   shown_body body body_length = body)
  /\ ((body_length < Z.of_nat (String.length body))%Z ->
      exists kept dropped,
        body = kept +:+ dropped
        /\ Z.of_nat (String.length kept) = body_length
        /\ shown_body body body_length
           = kept +:+ newline +:+ "... (truncated "
             +:+ str_of_int (Z.of_nat (String.length dropped)) +:+ " chars)").
Proof.
  intros Hpos. unfold shown_body, str_slice_to. split.
  - intros Hle. destruct (Z.ltb_spec body_length (Z.of_nat (String.length body)));
      [lia|done].
  - intros Hlt. destruct (Z.ltb_spec body_length (Z.of_nat (String.length body)));
      [|lia].
    destruct (Z.leb_spec 0 body_length); [|lia].
    destruct (substring_0_split (Z.to_nat body_length) body)
      as (dropped & Hs & Hkept & Hdropped); [lia|].
    exists (String.substring 0 (Z.to_nat body_length) body), dropped.
    split; [exact Hs|]. split; [lia|].
    assert (Z.of_nat (String.length dropped)
            = (Z.of_nat (String.length body) - body_length)%Z) as -> by lia.
    reflexivity.
Qed.

Lemma shown_body_keeps_a_prefix_witness :
  shown_body "0123456789" 4
  = "0123" +:+ newline +:+ "... (truncated 6 chars)"
  /\ shown_body "0123456789" 10 = "0123456789".
Proof.
  destruct (shown_body_keeps_a_prefix "0123456789" 4) as [_ Hcut]; [lia|].
  destruct (shown_body_keeps_a_prefix "0123456789" 10) as [Hwhole _]; [lia|].
  split; [|apply Hwhole; simpl; lia].
  destruct Hcut as (kept & dropped & _ & _ & _); [simpl; lia|]. reflexivity.
Defined.

(** *** The body fetch and the details never raise an error *)

(** Whatever the session provider, the protocol and the decoding answer,
    [get_response_body] and [format_entry_details] raise no [Exception]:
    an exception that leaves them is not one (it is a cancellation).  A
    session or a protocol call that raises an [Exception] gives the body
    [None]; a base64 body whose decoding raises gives the placeholder; and
    the details without the response body never raise at all. *)
Theorem body_fetch_absorbs_exceptions
    (repr : pyval -> string) (b64decode : string -> result string)
    (decode : string -> string) (env : body_env) (target_id : string) :
  (forall request_id e,
     get_response_body b64decode decode env target_id request_id = Raises e ->
     is_Exception e = false)
  /\ (forall request_id e,
        is_Exception e = true ->
        body_session env target_id = Raises e
        \/ (body_session env target_id = Returns tt
            /\ getResponseBody env request_id = Raises e) ->
        get_response_body b64decode decode env target_id request_id = Returns None)
  /\ (forall request_id body e,
        is_Exception e = true ->
        body_session env target_id = Returns tt ->
        getResponseBody env request_id
        = Returns {| ResponseBody.body := Some body;
                     ResponseBody.base64Encoded := Some true |} ->
        b64decode body = Raises e ->
        get_response_body b64decode decode env target_id request_id
        = Returns (Some "<base64-encoded response body could not be decoded>"))
  /\ (forall entry h b r n e,
        format_entry_details repr b64decode decode env target_id entry h b r n
        = Raises e ->
        is_Exception e = false)
  /\ (forall entry h b n,
        exists text,
          format_entry_details repr b64decode decode env target_id entry h b false n
          = Returns text).
Proof.
  assert (forall request_id e,
            get_response_body b64decode decode env target_id request_id = Raises e ->
            is_Exception e = false) as Hbody.
  { intros rid e. unfold get_response_body.
    destruct (body_session env target_id) as [[]|x]; cbn [bind].
    - destruct (getResponseBody env rid) as [res|x]; cbn [bind].
      + destruct (ResponseBody.body res) as [body|]; [|discriminate].
        destruct (default false (ResponseBody.base64Encoded res)); [|discriminate].
        destruct (b64decode body) as [decoded|x]; [discriminate|].
        destruct (is_Exception x) eqn:Hx; [discriminate|].
        rewrite Hx. by intros [= <-].
      + destruct (is_Exception x) eqn:Hx; [discriminate|]. by intros [= <-].
    - destruct (is_Exception x) eqn:Hx; [discriminate|]. by intros [= <-]. }
  split; [exact Hbody|]. split; [|split; [|split]].
  - intros rid e Hexc [Hs|[Hs Hp]]; unfold get_response_body.
    + rewrite Hs. cbn [bind]. by rewrite Hexc.
    + rewrite Hs, Hp. cbn [bind]. by rewrite Hexc.
  - intros rid body e Hexc Hs Hp Hd. unfold get_response_body.
    rewrite Hs, Hp. cbn [bind ResponseBody.body ResponseBody.base64Encoded default].
    by rewrite Hd, Hexc.
  - intros entry h b r n e. unfold format_entry_details.
    destruct r; [|discriminate].
    destruct (get_response_body b64decode decode env target_id (request_id entry))
      as [body|x] eqn:Hget; cbn [bind].
    + by destruct (str_truthy body).
    + intros [= <-]. by apply (Hbody (request_id entry)).
  - intros entry h b n. unfold format_entry_details. cbn [bind]. eauto.
Qed.

Lemma body_fetch_absorbs_exceptions_witness :
  get_response_body no_b64decode no_decode body_env_fails "T" "1" = Returns None
  /\ get_response_body no_b64decode no_decode body_env_base64 "T" "1"
     = Returns (Some "<base64-encoded response body could not be decoded>").
Proof.
  destruct (body_fetch_absorbs_exceptions no_repr no_b64decode no_decode
              body_env_fails "T") as (_ & Hnone & _).
  destruct (body_fetch_absorbs_exceptions no_repr no_b64decode no_decode
              body_env_base64 "T") as (_ & _ & Hplace & _).
  split.
  - apply (Hnone "1" (OtherException "No resource with given identifier"));
      [reflexivity|]. right. split; reflexivity.
  - apply (Hplace "1" "aGVsbG8" (ValueError "Incorrect padding")); reflexivity.
Defined.

End formatting_facts.

(** ** More facts about screenshot_watchdog.py *)

Module screenshot_more_facts.
Import screenshot_watchdog capture screenshot_facts.

Lemma select_target_outcome e s :
  select_target e s = (fst (select_target e (start false)), s).
Proof.
  unfold select_target.
  destruct (get_focused_target e) as [t|]; [destruct (is_page_or_tab t)|];
    try done; by destruct (last (get_page_targets e)).
Qed.

Lemma select_target_rule e target :
  fst (select_target e (start false)) = Returns target -> is_capture_target e target.
Proof.
  unfold select_target, is_capture_target.
  destruct (get_focused_target e) as [f|] eqn:Hf.
  - destruct (is_page_or_tab f) eqn:Hp.
    + intros [= <-]. left. by exists f.
    + destruct (last (get_page_targets e)) as [p|] eqn:Hlast; [|discriminate].
      intros [= <-]. right. split; [right; by exists f|by exists p].
  - destruct (last (get_page_targets e)) as [p|] eqn:Hlast; [|discriminate].
    intros [= <-]. right. split; [by left|by exists p].
Qed.

(** The body after the lock is taken: its outcome and the calls it adds. *)
Lemma body_after_acquire_outcome e event s :
  exists r more,
    (target <~ select_target e ;; capture_target e event target) s
    = (r, {| _screenshot_lock := _screenshot_lock s;
             lock_acquired := lock_acquired s; calls := calls s ++ more |})
    /\ ((more = [] /\ exists x, fst (select_target e (start false)) = Raises x
                                /\ r = Raises x)
        \/ (exists target x,
              fst (select_target e (start false)) = Returns target
              /\ more = [Get_or_create_cdp_session target true]
              /\ get_or_create_cdp_session e target = Raises x /\ r = Raises x)
        \/ (exists target,
              fst (select_target e (start false)) = Returns target
              /\ more = [Get_or_create_cdp_session target true;
                         CaptureScreenshot target (capture_timeout event)]
              /\ get_or_create_cdp_session e target = Returns tt
              /\ r = payload (captureScreenshot e (capture_timeout event)))).
Proof.
  unfold bindM. rewrite select_target_outcome.
  destruct (fst (select_target e (start false))) as [target|x] eqn:Hsel.
  - unfold capture_target, record, bindM, modify, lift, ret, raise.
    cbn -[lookup_str].
    destruct (get_or_create_cdp_session e target) as [[]|x] eqn:Hsess.
    + exists (payload (captureScreenshot e (capture_timeout event))),
             [Get_or_create_cdp_session target true;
              CaptureScreenshot target (capture_timeout event)].
      split; [|right; right; by exists target].
      unfold payload.
      destruct (captureScreenshot e (capture_timeout event)) as [result|x];
        [destruct result as [|kv result];
           [|destruct (lookup_str (kv :: result) "data")]|];
        cbn -[lookup_str]; rewrite <- app_assoc; reflexivity.
    + eexists _, [_]. split; [reflexivity|]. right. left. by exists target, x.
  - exists (Raises x), []. split; [by rewrite app_nil_r; destruct s|].
    left. split; [done|]. by exists x.
Qed.


Lemma request_acquired_outcome e event locked :
  acquires e locked = true ->
  exists r more,
    request e event locked
    = (after_cleanup e r,
       {| _screenshot_lock := false; lock_acquired := true;
          calls := Acquire 2 :: more ++ [Release; Remove_highlights] |})
    /\ ((more = [] /\ exists x, fst (select_target e (start false)) = Raises x
                                /\ r = Raises x)
        \/ (exists target x,
              fst (select_target e (start false)) = Returns target
              /\ more = [Get_or_create_cdp_session target true]
              /\ get_or_create_cdp_session e target = Raises x /\ r = Raises x)
        \/ (exists target,
              fst (select_target e (start false)) = Returns target
              /\ more = [Get_or_create_cdp_session target true;
                         CaptureScreenshot target (capture_timeout event)]
              /\ get_or_create_cdp_session e target = Returns tt
              /\ r = payload (captureScreenshot e (capture_timeout event)))).
Proof.
  intros Hacq. unfold request, on_ScreenshotEvent.
  change ((modify (set_lock_acquired false) ;;; ?m) ?s) with (m (start locked)).
  set (s1 := set_lock_acquired true (set_lock true (called (Acquire 2) (start locked)))).
  destruct (body_after_acquire_outcome e event s1) as (r & more & Hrest & Hcases).
  assert (capture_body e event (start locked)
          = (r, {| _screenshot_lock := true; lock_acquired := true;
                   calls := [Acquire 2] ++ more |})) as Hbody.
  { unfold capture_body. unfold bindM at 1. rewrite acquire_lock_outcome.
    unfold acquires in Hacq. cbn [start _screenshot_lock].
    destruct (cancelled_at_acquire e); [done|]. cbn in Hacq. rewrite Hacq.
    exact Hrest. }
  exists r, more. split; [|exact Hcases].
  erewrite try_finally_cleanup;
    [|rewrite try_except_reraise; exact Hbody|by apply cleanup_acquired].
  unfold after_cleanup. f_equal.
  - destruct (remove_highlights e) as [[]|x]; [done|]. by destruct (is_Exception x).
  - unfold called, set_lock. cbn. by rewrite <- !app_assoc.
Qed.

(** The calls of a request, on every path: one wait for the lock; then,
    only when the lock was taken, the session and the capture command
    (none, the first, or both); the release exactly when the lock was
    taken; and the overlay cleanup, always and last. *)
Theorem calls_of_a_request
    (e : env) (event : ScreenshotEvent) (locked : bool) :
  exists more,
    calls (snd (request e event locked))
    = Acquire 2 :: more
      ++ (if acquires e locked then [Release] else [])
      ++ [Remove_highlights]
    /\ capture_calls e event more
    /\ (acquires e locked = false -> more = []).
Proof.
  destruct (acquires e locked) eqn:Hacq.
  - destruct (request_acquired e event locked Hacq) as (r & more & -> & Hmore).
    exists more. repeat split; done.
  - rewrite (request_not_acquired e event locked Hacq).
    exists []. split; [reflexivity|]. split; [by left|done].
Qed.

(** The outcome of a request that issued the capture command is the
    outcome of the command: its payload; the error of a missing payload
    when the answer is empty or has no ['data']; and the command's own
    exception (a timeout, a cancellation, a protocol error) when it
    raised.  Only a cancellation of the overlay cleanup can take its
    place; an [Exception] of the cleanup is dropped. *)
Theorem request_outcome_is_the_capture_outcome
    (e : env) (event : ScreenshotEvent) (locked : bool) (target : string) (t : float) :
  CaptureScreenshot target t ∈ calls (snd (request e event locked)) ->
  fst (request e event locked)
  = after_cleanup e (payload (captureScreenshot e (capture_timeout event)))
  /\ t = capture_timeout event
  /\ is_capture_target e target.
Proof.
  intros Hin. destruct (acquires e locked) eqn:Hacq.
  - destruct (request_acquired_outcome e event locked Hacq)
      as (r & more & Hreq & Hcases).
    rewrite Hreq in Hin |- *. cbn [fst snd calls] in *.
    rewrite elem_of_cons, elem_of_app, !elem_of_cons, elem_of_nil in Hin.
    destruct Hin as [?|[Hin|Hin]]; [done| |decompose [or] Hin; done].
    destruct Hcases as [[-> _]|[(tg & x & _ & -> & _)|(tg & Hsel & -> & _ & ->)]].
    + by apply elem_of_nil in Hin.
    + rewrite elem_of_cons, elem_of_nil in Hin. decompose [or] Hin; done.
    + rewrite !elem_of_cons, elem_of_nil in Hin.
      destruct Hin as [?|[Heq|?]]; try done. injection Heq as -> ->.
      split; [done|]. split; [done|]. by apply select_target_rule.
  - rewrite (request_not_acquired e event locked Hacq) in Hin. cbn in Hin.
    rewrite !elem_of_cons, elem_of_nil in Hin. decompose [or] Hin; done.
Qed.

Lemma request_outcome_is_the_capture_outcome_witness :
  fst (request env_iframe_focused event_default false) = Returns "iVBORw0KGgo="
  /\ is_capture_target env_iframe_focused "Q"
  /\ fst (request env_capture_times_out event_default false) = Raises TimeoutError.
Proof.
  assert (calls (snd (request env_iframe_focused event_default false))
          = [Acquire 2; Get_or_create_cdp_session "Q" true; CaptureScreenshot "Q" 13;
             Release; Remove_highlights]) as Hc by reflexivity.
  assert (calls (snd (request env_capture_times_out event_default false))
          = [Acquire 2; Get_or_create_cdp_session "P" true; CaptureScreenshot "P" 13;
             Release; Remove_highlights]) as Hc' by reflexivity.
  destruct (request_outcome_is_the_capture_outcome env_iframe_focused event_default
              false "Q" 13) as (Hr & _ & Htarget).
  { rewrite Hc, !elem_of_cons. auto. }
  destruct (request_outcome_is_the_capture_outcome env_capture_times_out event_default
              false "P" 13) as (Hr' & _ & _).
  { rewrite Hc', !elem_of_cons. auto. }
  split; [rewrite Hr; reflexivity|]. split; [exact Htarget|].
  rewrite Hr'. reflexivity.
Defined.

(** The capture command is never given less than one second: the timeout
    of every capture command a request issues is not below 1, whatever
    overall timeout the event carries. *)
Theorem capture_timeout_is_never_below_one
    (e : env) (event : ScreenshotEvent) (locked : bool) (target : string) (t : float) :
  CaptureScreenshot target t ∈ calls (snd (request e event locked)) ->
  PrimFloat.ltb t 1%float = false.
Proof.
  intros Hin.
  assert (t = capture_timeout event) as ->.
  { destruct (acquires e locked) eqn:Hacq.
    - destruct (request_acquired e event locked Hacq) as (r & more & Hreq & Hmore).
      rewrite Hreq in Hin. cbn [snd calls] in Hin.
      rewrite elem_of_cons, elem_of_app, !elem_of_cons, elem_of_nil in Hin.
      destruct Hin as [?|[Hin|Hin]]; [done| |decompose [or] Hin; done].
      destruct Hmore as [->|[(tg & -> & _)|(tg & -> & _)]];
        rewrite ?elem_of_cons, ?elem_of_nil in Hin; decompose [or] Hin;
        try done; congruence.
    - rewrite (request_not_acquired e event locked Hacq) in Hin. cbn in Hin.
      rewrite !elem_of_cons, elem_of_nil in Hin. decompose [or] Hin; done. }
  unfold capture_timeout, py_max.
  destruct (PrimFloat.ltb (timeout_seconds event - 2) 1) eqn:Hlt; [reflexivity|done].
Qed.

Lemma capture_timeout_is_never_below_one_witness :
  CaptureScreenshot "P" 1 ∈ calls (snd (request env_ok (event_of 0.5) false))
  /\ PrimFloat.ltb 1 1 = false.
Proof.
  assert (CaptureScreenshot "P" 1 ∈ calls (snd (request env_ok (event_of 0.5) false)))
    as Hin.
  { assert (calls (snd (request env_ok (event_of 0.5) false))
            = [Acquire 2; Get_or_create_cdp_session "P" true; CaptureScreenshot "P" 1;
               Release; Remove_highlights]) as -> by reflexivity.
    rewrite !elem_of_cons. auto. }
  split; [exact Hin|].
  exact (capture_timeout_is_never_below_one env_ok (event_of 0.5) false "P" 1 Hin).
Defined.

End screenshot_more_facts.
